(** * Section scheduler: the assignment engine of services/scheduler.ts

    A shallow embedding of the scheduling engine (feasible-combination
    search, cost evaluation, failure diagnosis, the sequential run and the
    result assembly) and of the manual-override validation of
    components/ScheduleEditorModal.tsx, with the properties the design
    document states about them; and of the code around the engine: the
    pre-flight check of the preassignments, the manual override and its undo
    (App.tsx), the configuration panel (AdminPanel, initialConfig.ts) and
    the dashboard's reading of a result (components/DiagnosticPanel.tsx,
    components/ResultsDashboard.tsx), with further properties read off the
    code.

    Conventions of the embedding.
    - JavaScript numbers that the engine uses (subject ids, block numbers,
      capacities, occupant counts, costs) are integers and are modelled in Z;
      [students.length] is [Z.of_nat (length _)].
    - A [Map] or [Record] that the code only looks up ([scheduleConfig],
      [conflictMap], [sections], [sectionSizes], [studentCourses], ...) is a
      [gmap]; a [Set] that is only tested for membership is a [gset].
    - A [Map] or [Set] whose iteration order drives the run ([enrollments],
      [preassignedSections], a student's enrolled subject names, an
      [Assignment]) is an association list or list in insertion order.
    - [throw] is an explicit outcome of the run monad. *)

From stdpp Require Import gmap strings list fin_maps pretty sorting.

Local Open Scope Z_scope.

(** ** Types (types.ts) *)

Record Subject := mkSubject {
  subj_id : Z;
  subj_name : string;
  subj_capacity : Z;
  subj_s1_block : Z;
  subj_s2_block : Z
}.

Record Section := mkSection {
  sec_id : string;
  sec_subjectId : Z;
  sec_subjectName : string;
  sec_block : Z;
  sec_students : list string;
  sec_capacity : Z
}.

(** One entry of [ScheduleConfig = Record<number, {s1_block, s2_block, capacity}>]. *)
Record Config := mkConfig {
  s1_block : Z;
  s2_block : Z;
  capacity : Z
}.

Inductive BalancingStrategy := speed | equitable.

(** ['mañana' | 'tarde']; an absent preference is [None]. *)
Inductive Preference := manana | tarde.

Inductive DiagnosisType := CAPACITY | SCHEDULE | CONFLICT | UNKNOWN.

Record StudentAssignment := mkStudentAssignment {
  sa_name : string;
  sa_code : string;
  sa_course : string;
  sa_sections : list string
}.

(** [Omit<UnassignedStudentInfo, 'studentCode'>], the value [diagnoseFailure] returns. *)
Record Diagnosis := mkDiagnosis {
  d_type : DiagnosisType;
  d_reason : string;
  d_subjects : list string;
  d_conflictingSubjects : list string
}.

Record UnassignedStudentInfo := mkUnassigned {
  u_studentCode : string;
  u_diagnosis : Diagnosis
}.

Record Stats := mkStats {
  totalStudents : nat;
  totalEnrollments : nat;
  assignedStudents : nat;
  unassignedStudentsCount : nat;
  combinationsChecked : nat
}.

Record ScheduleResult := mkResult {
  r_sections : gmap string Section;
  r_unassignedStudents : list UnassignedStudentInfo;
  r_studentAssignments : gmap string StudentAssignment;
  r_studentCodeToName : gmap string string;
  r_stats : Stats
}.

(** [type Assignment = Map<number, string>], in insertion order. *)
Abbreviation Assignment := (list (Z * string)).

(** [Map.prototype.set]: an existing key keeps its position, a new key is appended. *)
Fixpoint map_set (k : Z) (v : string) (m : Assignment) : Assignment :=
  match m with
  | [] => [(k, v)]
  | (k', v') :: m' => if decide (k' = k) then (k, v) :: m' else (k', v') :: map_set k v m'
  end.

(** [Map.prototype.delete]. *)
Definition map_delete (k : Z) (m : Assignment) : Assignment :=
  filter (λ kv, kv.1 ≠ k) m.

(** [assignment.values()]. *)
Definition values (a : Assignment) : list string := a.*2.

(** ** Strings *)

(** The template literal [`${subjectId}.${sectionIdSuffix}`]. *)
Definition sectionId (subjectId : Z) (sectionIdSuffix : string) : string :=
  pretty subjectId +:+ "." +:+ sectionIdSuffix.

(** [String.prototype.endsWith]. *)
Fixpoint endsWith (s suffix : string) : bool :=
  String.eqb s suffix ||
  match s with
  | EmptyString => false
  | String _ s' => endsWith s' suffix
  end.

(** ** Conflict index *)

(** [conflictMap.get(studentCode) || new Set()]. *)
Definition conflictsOf (conflictMap : gmap string (gset string)) (studentCode : string)
  : gset string :=
  default ∅ (conflictMap !! studentCode).

(** The body of [conflictPairs.forEach(([a, b]) => ...)]. *)
Definition addConflictPair (conflictMap : gmap string (gset string)) (p : string * string)
  : gmap string (gset string) :=
  let '(a, b) := p in
  let m1 := if decide (is_Some (conflictMap !! a)) then conflictMap else <[a := ∅]> conflictMap in
  let m2 := if decide (is_Some (m1 !! b)) then m1 else <[b := ∅]> m1 in
  let m3 := alter (λ s, s ∪ {[b]}) a m2 in
  alter (λ s, s ∪ {[a]}) b m3.

Definition buildConflictMap (conflictPairs : list (string * string))
  : gmap string (gset string) :=
  foldl addConflictPair ∅ conflictPairs.

(** ** Feasible-combination search *)

Section search.
Context (studentConflicts : gset string).
Context (sections : gmap string Section).
Context (scheduleConfig : gmap Z Config).

(** The three mutable objects the closure [backtrack] works on. *)
Record BtState := mkBt {
  currentAssignment : Assignment;
  usedBlocks : gset Z;
  validAssignments : list Assignment
}.

(** The loop [for (const assignedStudentCode of section.students)] that
    sets [hasConflict], behind the guard [studentConflicts.size > 0]. *)
Definition hasConflict (section : Section) : bool :=
  if bool_decide (0 < size studentConflicts)%nat
  then existsb (λ c, bool_decide (c ∈ studentConflicts)) (sec_students section)
  else false.

(** [processSection], with the recursive call [backtrack(subjectIndex + 1, ...)]
    passed as [next]. *)
Definition processSection (next : BtState → BtState) (subjectId : Z)
    (block : Z) (sectionIdSuffix : string) (st : BtState) : BtState :=
  if decide (block ∈ usedBlocks st) then st else
  match sections !! sectionId subjectId sectionIdSuffix with
  | None => st
  | Some section =>
      if bool_decide (sec_capacity section ≤ Z.of_nat (length (sec_students section)))
      then st
      else if hasConflict section then st
      else
        let st1 := mkBt (map_set subjectId (sectionId subjectId sectionIdSuffix)
                                 (currentAssignment st))
                        (usedBlocks st ∪ {[block]})
                        (validAssignments st) in
        let st2 := next st1 in
        mkBt (map_delete subjectId (currentAssignment st2))
             (usedBlocks st2 ∖ {[block]})
             (validAssignments st2)
  end.

(** [backtrack]; the argument is the part of [studentSubjects] from
    [subjectIndex] on, so [subjectIndex === studentSubjects.length] is the
    empty list. *)
Fixpoint backtrack (rest : list Z) (st : BtState) : BtState :=
  match rest with
  | [] =>
      mkBt (currentAssignment st) (usedBlocks st)
           (validAssignments st ++ [currentAssignment st])
  | subjectId :: rest' =>
      match scheduleConfig !! subjectId with
      | None => st
      | Some config =>
          let st1 := processSection (backtrack rest') subjectId (s1_block config) "1" st in
          processSection (backtrack rest') subjectId (s2_block config) "2" st1
      end
  end.
End search.

Definition findValidAssignments (studentSubjects : list Z) (studentCode : string)
    (conflictMap : gmap string (gset string)) (sections : gmap string Section)
    (scheduleConfig : gmap Z Config) : list Assignment :=
  validAssignments
    (backtrack (conflictsOf conflictMap studentCode) sections scheduleConfig
               studentSubjects (mkBt [] ∅ [])).

(** ** Section universe (the [subjectsConfig.forEach] of [scheduleStudents]) *)

Definition addSubjectSections (scheduleConfig : gmap Z Config)
    (sections : gmap string Section) (subject : Subject) : gmap string Section :=
  match scheduleConfig !! subj_id subject with
  | None => sections
  | Some config =>
      <[sectionId (subj_id subject) "2" :=
          mkSection (sectionId (subj_id subject) "2") (subj_id subject) (subj_name subject)
                    (s2_block config) [] (capacity config)]>
      (<[sectionId (subj_id subject) "1" :=
          mkSection (sectionId (subj_id subject) "1") (subj_id subject) (subj_name subject)
                    (s1_block config) [] (capacity config)]> sections)
  end.

Definition buildSections (subjectsConfig : list Subject) (scheduleConfig : gmap Z Config)
  : gmap string Section :=
  foldl (addSubjectSections scheduleConfig) ∅ subjectsConfig.

(** ** The search as a pure enumeration

    The same traversal as [backtrack] without the mutable objects: the
    completions of a partial assignment whose used blocks are [used], slot 1
    before slot 2, subjects in list order. *)

Section enumeration.
Context (studentConflicts : gset string).
Context (sections : gmap string Section).
Context (scheduleConfig : gmap Z Config).

(** The guards of [processSection] as one test. *)
Definition slotOpen (used : gset Z) (subjectId block : Z) (sectionIdSuffix : string) : bool :=
  bool_decide (block ∉ used) &&
  match sections !! sectionId subjectId sectionIdSuffix with
  | None => false
  | Some section =>
      negb (bool_decide (sec_capacity section ≤ Z.of_nat (length (sec_students section))))
      && negb (hasConflict studentConflicts section)
  end.

Fixpoint enumerate (rest : list Z) (used : gset Z) : list Assignment :=
  match rest with
  | [] => [[]]
  | subjectId :: rest' =>
      match scheduleConfig !! subjectId with
      | None => []
      | Some config =>
          (if slotOpen used subjectId (s1_block config) "1"
           then cons (subjectId, sectionId subjectId "1")
                  <$> enumerate rest' (used ∪ {[s1_block config]})
           else [])
          ++
          (if slotOpen used subjectId (s2_block config) "2"
           then cons (subjectId, sectionId subjectId "2")
                  <$> enumerate rest' (used ∪ {[s2_block config]})
           else [])
      end
  end.

(** *** What the design document requires of a combination *)

(** One chosen section: it is a section of the subject, with room left,
    and none of its occupants is in the student's conflict set. *)
Definition feasibleEntry (e : Z * string) : Prop :=
  ∃ section,
    sections !! e.2 = Some section ∧
    sec_subjectId section = e.1 ∧
    Z.of_nat (length (sec_students section)) < sec_capacity section ∧
    ∀ c, c ∈ sec_students section → c ∉ studentConflicts.

(** The blocks of the chosen sections. *)
Definition chosenBlocks (a : Assignment) : list Z :=
  omap (λ sid, sec_block <$> sections !! sid) (values a).

(** A complete assignment for [studentSubjects] (one section per enrolled
    subject, in enrolment order) that satisfies (a) block uniqueness,
    (b) capacity and (c) conflicts. *)
Definition feasibleAssignment (studentSubjects : list Z) (a : Assignment) : Prop :=
  a.*1 = studentSubjects ∧
  NoDup (chosenBlocks a) ∧
  Forall feasibleEntry a.
End enumeration.

(** The sections are those of the section universe: every section sits under
    the id of its subject and slot, with the block and capacity of the
    subject's configuration. Occupants are unconstrained. *)
Definition sections_wf (sections : gmap string Section) (scheduleConfig : gmap Z Config) : Prop :=
  ∀ sid section,
    sections !! sid = Some section →
    ∃ config,
      scheduleConfig !! sec_subjectId section = Some config ∧
      sec_capacity section = capacity config ∧
      ((sid = sectionId (sec_subjectId section) "1" ∧ sec_block section = s1_block config) ∨
       (sid = sectionId (sec_subjectId section) "2" ∧ sec_block section = s2_block config)).

(** ** Cost evaluator *)

(** [CurrentSectionSizes]: the snapshot
    [sections.forEach((section, id) => sectionSizes.set(id, section.students.length))]. *)
Definition sectionSizesOf (sections : gmap string Section) : gmap string Z :=
  (λ section, Z.of_nat (length (sec_students section))) <$> sections.

(** The two [for (const sectionId of assignment.values())] loops;
    [sectionSizes.get(sectionId) || 0] is [default 0]. *)
Definition baseCost (balancingStrategy : BalancingStrategy) (sectionSizes : gmap string Z)
    (assignment : Assignment) : Z :=
  match balancingStrategy with
  | equitable =>
      foldl (λ cost sid, cost + (default 0 (sectionSizes !! sid)) ^ 2) 0 (values assignment)
  | speed =>
      foldl (λ cost sid, cost + default 0 (sectionSizes !! sid)) 0 (values assignment)
  end.

(** The loop [for (const [subjectId, sectionId] of assignment.entries())];
    [None] is the [TypeError] of reading a block of [scheduleConfig[subjectId]]
    when that entry is [undefined]. *)
Fixpoint preferencePenalty (preference : Preference) (scheduleConfig : gmap Z Config)
    (entries : Assignment) (preferenceMismatchPenalty : Z) : option Z :=
  match entries with
  | [] => Some preferenceMismatchPenalty
  | (subjectId, sid) :: entries' =>
      match scheduleConfig !! subjectId with
      | None => None
      | Some config =>
          let block := if endsWith sid ".1" then s1_block config else s2_block config in
          let blockTime := if bool_decide (block = 3) then tarde else manana in
          let p1 :=
            match preference, blockTime with
            | manana, tarde => preferenceMismatchPenalty + 10
            | _, _ => preferenceMismatchPenalty
            end in
          let p2 :=
            match preference, blockTime with
            | tarde, manana => p1 + 5
            | _, _ => p1
            end in
          preferencePenalty preference scheduleConfig entries' p2
      end
  end.

Definition calculateAssignmentCost (assignment : Assignment) (sectionSizes : gmap string Z)
    (preference : option Preference) (scheduleConfig : gmap Z Config)
    (balancingStrategy : BalancingStrategy) : option Z :=
  let cost := baseCost balancingStrategy sectionSizes assignment in
  match preference with
  | Some p =>
      match preferencePenalty p scheduleConfig assignment 0 with
      | Some preferenceMismatchPenalty => Some (cost + preferenceMismatchPenalty)
      | None => None
      end
  | None => Some cost
  end.

(** The selection loop [for (let i = 1; i < validAssignments.length; i++)] of
    [scheduleStudents], with [cost] the cost function at the student's
    snapshot; [None] is a [TypeError] raised by a cost evaluation. *)
Fixpoint selectBest (cost : Assignment → option Z) (bestAssignment : Assignment)
    (minCost : Z) (candidates : list Assignment) : option (Assignment * Z) :=
  match candidates with
  | [] => Some (bestAssignment, minCost)
  | a :: candidates' =>
      match cost a with
      | None => None
      | Some c =>
          if bool_decide (c < minCost)
          then selectBest cost a c candidates'
          else selectBest cost bestAssignment minCost candidates'
      end
  end.

(** *** The cost as the design document words it *)

(** The designated afternoon block. *)
Definition afternoonBlock : Z := 3.

Definition sumZ (l : list Z) : Z := foldr Z.add 0 l.

(** Linear weight under "speed", quadratic under "equitable". *)
Definition occupancyWeight (balancingStrategy : BalancingStrategy) (count : Z) : Z :=
  match balancingStrategy with
  | speed => count
  | equitable => count * count
  end.

(** 10 for an afternoon section against a morning preference, 5 for a
    morning section against an afternoon preference, nothing otherwise. *)
Definition mismatchWeight (preference : option Preference) (block : Z) : Z :=
  match preference with
  | Some manana => if decide (block = afternoonBlock) then 10 else 0
  | Some tarde => if decide (block = afternoonBlock) then 0 else 5
  | None => 0
  end.

(** The chosen sections of an assignment, as records of the section map. *)
Definition chosenSections (sections : gmap string Section) (a : Assignment) : list Section :=
  omap (λ sid, sections !! sid) (values a).

Definition documentedCost (sections : gmap string Section)
    (preference : option Preference) (balancingStrategy : BalancingStrategy)
    (a : Assignment) : Z :=
  sumZ ((λ section,
           occupancyWeight balancingStrategy (Z.of_nat (length (sec_students section))))
        <$> chosenSections sections a)
  + sumZ ((λ section, mismatchWeight preference (sec_block section))
          <$> chosenSections sections a).

(** What the search guarantees of every entry it records, whatever the
    subject list: the subject is configured and the section is one of the
    subject's two, present in the section map. *)
Definition searchEntry (sections : gmap string Section) (scheduleConfig : gmap Z Config)
    (e : Z * string) : Prop :=
  ∃ config suffix section,
    scheduleConfig !! e.1 = Some config ∧
    (suffix = "1" ∨ suffix = "2") ∧
    e.2 = sectionId e.1 suffix ∧
    sections !! e.2 = Some section.

(** The invariant of the traversal: the partial assignment and every
    recorded assignment consist of such entries. *)
Definition entriesOk (sections : gmap string Section) (scheduleConfig : gmap Z Config)
    (st : BtState) : Prop :=
  Forall (searchEntry sections scheduleConfig) (currentAssignment st) ∧
  Forall (Forall (searchEntry sections scheduleConfig)) (validAssignments st).

(** Enumeration order: at the first subject where two assignments differ,
    the earlier one takes slot 1 and the later one slot 2. *)
Inductive lexBefore : Assignment → Assignment → Prop :=
  | lexBefore_here (s : Z) (a a' : Assignment) :
      lexBefore ((s, sectionId s "1") :: a) ((s, sectionId s "2") :: a')
  | lexBefore_later (e : Z * string) (a a' : Assignment) :
      lexBefore a a' → lexBefore (e :: a) (e :: a').

(** ** Failure diagnoser *)

(** [Set.prototype.add] on a set kept in insertion order. *)
Definition set_add {A : Type} `{EqDecision A} (x : A) (l : list A) : list A :=
  if decide (x ∈ l) then l else l ++ [x].

(** [Array.prototype.join]. *)
Fixpoint join (separator : string) (l : list string) : string :=
  match l with
  | [] => ""
  | [x] => x
  | x :: l' => x +:+ separator +:+ join separator l'
  end.

(** The first result of a loop that stops ([break]) at its first success. *)
Fixpoint firstSome {A B : Type} (f : A → option B) (l : list A) : option B :=
  match l with
  | [] => None
  | x :: l' =>
      match f x with
      | Some b => Some b
      | None => firstSome f l'
      end
  end.

Definition getSubjectNameById (allSubjects : list Subject) (id : Z) : string :=
  match List.find (λ s, bool_decide (subj_id s = id)) allSubjects with
  | Some subject => subj_name subject
  | None => "ID de Asignatura Desconocido " +:+ pretty id
  end.

(** The test of the first loop of [diagnoseFailure]: the subject is
    configured and both its sections exist and are full. *)
Definition bothSectionsFull (sections : gmap string Section) (scheduleConfig : gmap Z Config)
    (subjectId : Z) : bool :=
  match scheduleConfig !! subjectId with
  | None => false
  | Some _ =>
      match sections !! sectionId subjectId "1", sections !! sectionId subjectId "2" with
      | Some section1, Some section2 =>
          bool_decide (sec_capacity section1 ≤ Z.of_nat (length (sec_students section1)))
          && bool_decide (sec_capacity section2 ≤ Z.of_nat (length (sec_students section2)))
      | _, _ => false
      end
  end.

(** The test of the pair loop: both subjects are configured and
    [blocksA.size === blocksB.size && [...blocksA].every(b => blocksB.has(b))]. *)
Definition sameBlockSets (scheduleConfig : gmap Z Config) (a b : Z) : bool :=
  match scheduleConfig !! a, scheduleConfig !! b with
  | Some subA, Some subB =>
      let blocksA : gset Z := {[s1_block subA]} ∪ {[s2_block subA]} in
      let blocksB : gset Z := {[s1_block subB]} ∪ {[s2_block subB]} in
      bool_decide (size blocksA = size blocksB)
      && forallb (λ b, bool_decide (b ∈ blocksB)) (elements blocksA)
  | _, _ => false
  end.

(** The nested loops over [i < j] that fill [conflictingSubjectNames]. *)
Fixpoint pairLoop (allSubjects : list Subject) (scheduleConfig : gmap Z Config)
    (studentSubjects : list Z) (conflictingSubjectNames : list string) : list string :=
  match studentSubjects with
  | [] => conflictingSubjectNames
  | si :: rest =>
      pairLoop allSubjects scheduleConfig rest
        (foldl (λ names sj,
                  if sameBlockSets scheduleConfig si sj
                  then set_add (getSubjectNameById allSubjects sj)
                         (set_add (getSubjectNameById allSubjects si) names)
                  else names)
               conflictingSubjectNames rest)
  end.

(** [blockingStudentsForThisSchedule] of one potential schedule. *)
Definition blockingStudents (studentConflicts : gset string)
    (sections : gmap string Section) (schedule : Assignment) : list string :=
  foldl (λ blocking sid,
           match sections !! sid with
           | Some section =>
               foldl (λ blocking c,
                        if bool_decide (c ∈ studentConflicts) then set_add c blocking
                        else blocking)
                     blocking (sec_students section)
           | None => blocking
           end)
        [] (values schedule).

(** The two nested loops that look for a substitution; the result is the
    first pair (subject to replace, new subject) whose search is non-empty. *)
Definition findSuggestion (studentCode : string) (studentSubjects : list Z)
    (conflictMap : gmap string (gset string)) (sections : gmap string Section)
    (scheduleConfig : gmap Z Config) (allSubjectIds : list Z) : option (Z * Z) :=
  let otherAvailableSubjectIds :=
    filter (λ id, id ∉ studentSubjects) allSubjectIds in
  let attempt (subjectToReplaceId : Z) : option (Z * Z) :=
    let currentSubjectsWithoutOne := filter (λ id, id ≠ subjectToReplaceId) studentSubjects in
    match List.find (λ newSubjectId,
             bool_decide (0 < length (findValidAssignments
                                        (currentSubjectsWithoutOne ++ [newSubjectId])
                                        studentCode conflictMap sections scheduleConfig))%nat)
            otherAvailableSubjectIds with
    | Some newSubjectId => Some (subjectToReplaceId, newSubjectId)
    | None => None
    end in
  firstSome attempt studentSubjects.

Definition diagnoseFailure (allSubjects : list Subject)
    (studentCode : string) (studentSubjects : list Z)
    (conflictMap : gmap string (gset string)) (sections : gmap string Section)
    (studentCodeToName : gmap string string) (scheduleConfig : gmap Z Config) : Diagnosis :=
  let allSubjectNames := getSubjectNameById allSubjects <$> studentSubjects in
  let allSubjectIds := subj_id <$> allSubjects in
  let potentialSchedules :=
    findValidAssignments studentSubjects "" ∅ sections scheduleConfig in
  match potentialSchedules with
  | [] =>
      match List.find (bothSectionsFull sections scheduleConfig) studentSubjects with
      | Some subjectId =>
          mkDiagnosis CAPACITY
            ("Conflicto de Capacidad: Ambas secciones para la asignatura '"
               +:+ getSubjectNameById allSubjects subjectId +:+ "' están llenas.")
            allSubjectNames
            [getSubjectNameById allSubjects subjectId]
      | None =>
          let conflictingSubjectNames :=
            pairLoop allSubjects scheduleConfig studentSubjects [] in
          mkDiagnosis SCHEDULE
            "Conflicto de Horario: La combinación de asignaturas es imposible de planificar."
            allSubjectNames
            (match conflictingSubjectNames with
             | [] => allSubjectNames
             | _ => conflictingSubjectNames
             end)
      end
  | _ =>
      let studentConflicts := conflictsOf conflictMap studentCode in
      let blockingStudentsBySchedule :=
        filter (λ blocking, blocking ≠ [])
          (blockingStudents studentConflicts sections <$> potentialSchedules) in
      let unknown :=
        mkDiagnosis UNKNOWN "No se pudo asignar debido a un conflicto inevitable."
          allSubjectNames [] in
      match blockingStudentsBySchedule with
      | [] => unknown
      | first :: others =>
          let intersection :=
            foldl (λ inter blocking, filter (λ x, x ∈ blocking) inter) first others in
          match intersection with
          | [] => unknown
          | _ =>
              let names :=
                join ", "
                  ((λ code,
                      (match studentCodeToName !! code with
                       | Some name => if decide (name = "") then "Desconocido" else name
                       | None => "Desconocido"
                       end) +:+ " (" +:+ code +:+ ")") <$> intersection) in
              let reason :=
                "Conflicto de Convivencia: Todos los horarios posibles están bloqueados por un conflicto con: "
                  +:+ names +:+ "." in
              let suggestion :=
                match findSuggestion studentCode studentSubjects conflictMap sections
                        scheduleConfig allSubjectIds with
                | Some (subjectToReplaceId, newSubjectId) =>
                    " Solución propuesta: Cambiar la asignatura '"
                      +:+ getSubjectNameById allSubjects subjectToReplaceId
                      +:+ "' por '" +:+ getSubjectNameById allSubjects newSubjectId
                      +:+ "' podría resolver el conflicto."
                | None => ""
                end in
              mkDiagnosis CONFLICT (reason +:+ suggestion) allSubjectNames []
          end
      end
  end.

(** *** The search with only the block-uniqueness rule

    The design document describes the SCHEDULE test as the combination search
    re-run with all capacity and conflict constraints disabled. This is that
    search, worded from the document: a slot is open as soon as its block is
    not used yet and its section exists. *)
Fixpoint enumerateBlocksOnly (sections : gmap string Section)
    (scheduleConfig : gmap Z Config) (rest : list Z) (used : gset Z) : list Assignment :=
  match rest with
  | [] => [[]]
  | subjectId :: rest' =>
      match scheduleConfig !! subjectId with
      | None => []
      | Some config =>
          (if bool_decide (s1_block config ∉ used)
              && bool_decide (is_Some (sections !! sectionId subjectId "1"))
           then cons (subjectId, sectionId subjectId "1")
                  <$> enumerateBlocksOnly sections scheduleConfig rest'
                        (used ∪ {[s1_block config]})
           else [])
          ++
          (if bool_decide (s2_block config ∉ used)
              && bool_decide (is_Some (sections !! sectionId subjectId "2"))
           then cons (subjectId, sectionId subjectId "2")
                  <$> enumerateBlocksOnly sections scheduleConfig rest'
                        (used ∪ {[s2_block config]})
           else [])
      end
  end.

Definition findBlockOnlyAssignments (studentSubjects : list Z)
    (sections : gmap string Section) (scheduleConfig : gmap Z Config) : list Assignment :=
  enumerateBlocksOnly sections scheduleConfig studentSubjects ∅.

(** ** Manual-override validation (components/ScheduleEditorModal.tsx) *)

(** What a JavaScript run can end with besides a value: [throw new Error(message)]
    or the [TypeError] of reading a property of [undefined]. *)
Inductive Error :=
  | Err (message : string)
  | TypeErr.

Inductive Outcome (A : Type) :=
  | Done (a : A)
  | Thrown (e : Error).
Arguments Done {A} a.
Arguments Thrown {A} e.

(** The [validation] state: [{ isValid, message }]. *)
Record Validation := mkValidation {
  isValid : bool;
  message : string
}.

(** The first loop of [validate]: [true] when a block is met twice.
    [sections.get(sectionId)!] on an absent section is a [TypeError]. *)
Fixpoint blockClash (sections : gmap string Section) (selectedSectionIds : list string)
    (usedBlocks : gset Z) : Outcome bool :=
  match selectedSectionIds with
  | [] => Done false
  | sid :: ids' =>
      match sections !! sid with
      | None => Thrown TypeErr
      | Some section =>
          if decide (sec_block section ∈ usedBlocks) then Done true
          else blockClash sections ids' (usedBlocks ∪ {[sec_block section]})
      end
  end.

(** The second loop of [validate]: the message of the first full or
    conflicting section, if any. *)
Fixpoint occupancyClash (studentCode : string) (studentConflicts : gset string)
    (sections : gmap string Section) (selectedSectionIds : list string)
    : Outcome (option string) :=
  match selectedSectionIds with
  | [] => Done None
  | sid :: ids' =>
      match sections !! sid with
      | None => Thrown TypeErr
      | Some section =>
          if bool_decide (sec_capacity section ≤
                          Z.of_nat (length (filter (λ s, s ≠ studentCode)
                                                   (sec_students section))))
          then Done (Some ("La sección " +:+ sid +:+ " está llena (capacidad: "
                             +:+ pretty (sec_capacity section) +:+ ")."))
          else if existsb (λ otherStudent, bool_decide (otherStudent ∈ studentConflicts))
                          (sec_students section)
          then Done (Some ("Conflicto de convivencia en la sección " +:+ sid +:+ "."))
          else occupancyClash studentCode studentConflicts sections ids'
      end
  end.

(** [validate], on [selectedSectionIds = Object.values(currentSections)];
    [Done None] is the early [return] that leaves the validation state as it
    was, [Done (Some v)] a call [setValidation(v)]. *)
Definition validate (studentCode : string) (selectedSectionIds : list string)
    (studentSubjectsLength : nat) (sections : gmap string Section)
    (conflictPairs : list (string * string)) : Outcome (option Validation) :=
  if decide (length selectedSectionIds ≠ studentSubjectsLength) then Done None else
  match blockClash sections selectedSectionIds ∅ with
  | Thrown e => Thrown e
  | Done true =>
      Done (Some (mkValidation false
                    "Conflicto de horario: dos asignaturas en el mismo bloque."))
  | Done false =>
      let conflictMap := buildConflictMap conflictPairs in
      let studentConflicts := conflictsOf conflictMap studentCode in
      match occupancyClash studentCode studentConflicts sections selectedSectionIds with
      | Thrown e => Thrown e
      | Done (Some msg) => Done (Some (mkValidation false msg))
      | Done None => Done (Some (mkValidation true "La nueva asignación es válida."))
      end
  end.

(** The blocks of the selected sections. *)
Definition selectedBlocks (sections : gmap string Section) (selectedSectionIds : list string)
  : list Z :=
  omap (λ sid, sec_block <$> sections !! sid) selectedSectionIds.

(** ** The run: [scheduleStudents] *)

(** The mutable section map, with a ghost trace: the section map after each
    [students.push], most recent first. *)
Record Store := mkStore {
  store_sections : gmap string Section;
  store_trace : list (gmap string Section)
}.

Definition Run (A : Type) : Type := Store → Outcome A * Store.

Definition ret {A : Type} (a : A) : Run A := λ st, (Done a, st).

Definition bind {A B : Type} (m : Run A) (k : A → Run B) : Run B :=
  λ st, match m st with
        | (Done a, st') => k a st'
        | (Thrown e, st') => (Thrown e, st')
        end.

Definition throw {A : Type} (e : Error) : Run A := λ st, (Thrown e, st).

Definition getSections : Run (gmap string Section) :=
  λ st, (Done (store_sections st), st).

Notation "'let*' x ':=' m 'in' k" := (bind m (λ x, k))
  (at level 10, x name, m at level 100, k at level 200, only parsing).

(** [section.students.push(studentCode)]. *)
Definition pushTo (studentCode : string) (section : Section) : Section :=
  mkSection (sec_id section) (sec_subjectId section) (sec_subjectName section)
            (sec_block section) (sec_students section ++ [studentCode])
            (sec_capacity section).

(** [sections.get(sectionId)?.students.push(studentCode)]: nothing happens
    when the section does not exist. *)
Definition pushStore (studentCode sid : string) (st : Store) : Store :=
  match store_sections st !! sid with
  | Some section =>
      let sections' := <[sid := pushTo studentCode section]> (store_sections st) in
      mkStore sections' (sections' :: store_trace st)
  | None => st
  end.

Definition pushStudent (sid studentCode : string) : Run unit :=
  λ st, (Done tt, pushStore studentCode sid st).

Fixpoint forEach {A : Type} (l : list A) (body : A → Run unit) : Run unit :=
  match l with
  | [] => ret tt
  | x :: l' => let* _ := body x in forEach l' body
  end.

(** A loop that updates local variables [B]. *)
Fixpoint foldRun {A B : Type} (body : B → A → Run B) (b : B) (l : list A) : Run B :=
  match l with
  | [] => ret b
  | x :: l' => let* b' := body b x in foldRun body b' l'
  end.

(** [`${studentCodeToName.get(studentCode)}`]. *)
Definition nameOrUndefined (studentCodeToName : gmap string string) (studentCode : string)
  : string :=
  default "undefined" (studentCodeToName !! studentCode).

(** Phase 1, the body of [for (const sectionId of sectionIds)]. *)
Definition placeInSection (studentCodeToName : gmap string string)
    (studentCode sid : string) : Run unit :=
  let* sections := getSections in
  match sections !! sid with
  | Some section =>
      if bool_decide (sec_capacity section ≤ Z.of_nat (length (sec_students section)))
      then throw (Err ("No se puede pre-asignar al alumno "
                         +:+ nameOrUndefined studentCodeToName studentCode
                         +:+ " (" +:+ studentCode +:+ ") a la sección " +:+ sid
                         +:+ " porque está llena."))
      else pushStudent sid studentCode
  | None =>
      throw (Err ("El alumno " +:+ nameOrUndefined studentCodeToName studentCode
                    +:+ " (" +:+ studentCode
                    +:+ ") tiene una sección pre-asignada inválida ('" +:+ sid
                    +:+ "') que no existe."))
  end.

(** Phase 1, one entry of [preassignedSections]. *)
Definition placePreassigned (studentCodeToName : gmap string string)
    (entry : string * list string) : Run unit :=
  let '(studentCode, sectionIds) := entry in
  forEach sectionIds (placeInSection studentCodeToName studentCode).

(** The inter-student validation, the body of
    [for (const otherStudentCode of section.students)]. *)
Definition checkOccupant (conflictMap : gmap string (gset string))
    (studentCodeToName : gmap string string) (studentCode sid otherStudentCode : string)
  : Run unit :=
  if bool_decide (studentCode ≠ otherStudentCode)
     && bool_decide (otherStudentCode ∈ conflictsOf conflictMap studentCode)
  then throw (Err ("Conflicto de convivencia en los datos pre-asignados: "
                     +:+ nameOrUndefined studentCodeToName studentCode
                     +:+ " (" +:+ studentCode +:+ ") y "
                     +:+ nameOrUndefined studentCodeToName otherStudentCode
                     +:+ " (" +:+ otherStudentCode
                     +:+ ") no pueden estar juntos en la sección " +:+ sid +:+ "."))
  else ret tt.

(** The body of [for (const sectionId of sectionIds)]. *)
Definition checkSection (conflictMap : gmap string (gset string))
    (studentCodeToName : gmap string string) (studentCode sid : string) : Run unit :=
  let* sections := getSections in
  match sections !! sid with
  | Some section =>
      forEach (sec_students section)
              (checkOccupant conflictMap studentCodeToName studentCode sid)
  | None => ret tt
  end.

(** The inter-student validation, one entry of [preassignedSections]. *)
Definition checkPreassigned (conflictMap : gmap string (gset string))
    (studentCodeToName : gmap string string) (entry : string * list string) : Run unit :=
  let '(studentCode, sectionIds) := entry in
  let studentConflicts := conflictsOf conflictMap studentCode in
  if bool_decide (size studentConflicts = 0%nat) then ret tt else
  forEach sectionIds (checkSection conflictMap studentCodeToName studentCode).

(** [Map.prototype.get] on a map kept as its list of entries. *)
Fixpoint entries_get {V : Type} (k : string) (entries : list (string * V)) : option V :=
  match entries with
  | [] => None
  | (k', v) :: entries' => if decide (k' = k) then Some v else entries_get k entries'
  end.

(** [[...new Set(Array.from(rawSubjects).map(...).filter(...))]]: the ids of
    the enrolled subject names that are configured, without repetition, in
    order of first occurrence. *)
Definition resolveSubjects (subjectsConfig : list Subject) (rawSubjects : list string)
  : list Z :=
  foldl (λ ids id, set_add id ids) []
    (omap (λ name,
             subj_id <$> List.find (λ s, bool_decide (subj_name s = name)) subjectsConfig)
          rawSubjects).

(** The local variables of the main loop. *)
Record LoopVars := mkLoopVars {
  lv_unassignedStudents : list UnassignedStudentInfo;
  lv_combinationsChecked : nat
}.

(** The commit: [for (const sectionId of bestAssignment.values())]. *)
Definition commit (studentCode : string) (bestAssignment : Assignment) : Run unit :=
  forEach (values bestAssignment) (λ sid, pushStudent sid studentCode).

(** The body of [for (const studentCode of studentsToSchedule)]. The local
    [totalEnrollments], which the loop fills once and nothing reads (the
    result recomputes the sum), is left out. *)
Definition scheduleStudent
    (enrollments : list (string * list string))
    (studentCodeToName : gmap string string)
    (studentPreferences : gmap string Preference)
    (conflictMap : gmap string (gset string))
    (subjectsConfig : list Subject)
    (scheduleConfig : gmap Z Config)
    (balancingStrategy : BalancingStrategy)
    (vars : LoopVars) (studentCode : string) : Run LoopVars :=
  let rawSubjects := default [] (entries_get studentCode enrollments) in
  let studentSubjects := resolveSubjects subjectsConfig rawSubjects in
  match studentSubjects with
  | [] => ret vars
  | _ =>
      let* sections := getSections in
      let validAssignments :=
        findValidAssignments studentSubjects studentCode conflictMap sections
          scheduleConfig in
      let checked := (lv_combinationsChecked vars + length validAssignments)%nat in
      match validAssignments with
      | [] =>
          let diagnosis :=
            diagnoseFailure subjectsConfig studentCode studentSubjects conflictMap
              sections studentCodeToName scheduleConfig in
          ret (mkLoopVars
                 (lv_unassignedStudents vars ++ [mkUnassigned studentCode diagnosis])
                 checked)
      | first :: others =>
          let sectionSizes := sectionSizesOf sections in
          let studentPreference := studentPreferences !! studentCode in
          let cost := λ a, calculateAssignmentCost a sectionSizes studentPreference
                             scheduleConfig balancingStrategy in
          match cost first with
          | None => throw TypeErr
          | Some minCost =>
              match selectBest cost first minCost others with
              | None => throw TypeErr
              | Some (bestAssignment, _) =>
                  let* _ := commit studentCode bestAssignment in
                  ret (mkLoopVars (lv_unassignedStudents vars) checked)
              end
          end
      end
  end.

(** *** Result assembly *)

(** [assignedStudentsSet]. *)
Definition assignedStudentsSet (sections : gmap string Section) : gset string :=
  foldl (λ set entry, foldl (λ set s, set ∪ {[s]}) set (sec_students entry.2))
        ∅ (map_to_list sections).

(** [studentToSectionsMap]. *)
Definition studentToSectionsMap (sections : gmap string Section) : gmap string (list string) :=
  foldl (λ m entry,
           foldl (λ m studentCode,
                    let m1 := if decide (is_Some (m !! studentCode)) then m
                              else <[studentCode := []]> m in
                    alter (λ l, l ++ [entry.1]) studentCode m1)
                 m (sec_students entry.2))
        ∅ (map_to_list sections).

(** [Array.prototype.sort] on section ids. *)
Definition sortIds (l : list string) : list string := merge_sort String.le l.

(** [studentToSectionsMap.forEach(...)]: a record only for a student whose
    course is found and not the empty string. *)
Definition buildStudentAssignments (studentCourses studentCodeToName : gmap string string)
    (bySections : gmap string (list string)) : gmap string StudentAssignment :=
  map_imap (λ studentCode assignedSections,
              match studentCourses !! studentCode with
              | Some course =>
                  if decide (course = "") then None
                  else Some (mkStudentAssignment
                               (match studentCodeToName !! studentCode with
                                | Some name => if decide (name = "") then "Desconocido" else name
                                | None => "Desconocido"
                                end)
                               studentCode course (sortIds assignedSections))
              | None => None
              end)
           bySections.

Definition assemble (enrollments : list (string * list string))
    (studentCourses studentCodeToName : gmap string string)
    (sections : gmap string Section) (vars : LoopVars) : ScheduleResult :=
  mkResult sections (lv_unassignedStudents vars)
    (buildStudentAssignments studentCourses studentCodeToName (studentToSectionsMap sections))
    studentCodeToName
    (mkStats (length enrollments)
             (foldl (λ sum current, (sum + length current.2)%nat) 0%nat enrollments)
             (size (assignedStudentsSet sections))
             (length (lv_unassignedStudents vars))
             (lv_combinationsChecked vars)).

(** The students the main loop visits. *)
Definition studentsToSchedule (enrollments : list (string * list string))
    (preassignedSections : list (string * list string)) : list string :=
  let preassignedStudentCodes : gset string := list_to_set preassignedSections.*1 in
  filter (λ code, code ∉ preassignedStudentCodes) enrollments.*1.

(** [scheduleStudents] as a computation on the section store. The module
    variable [allSubjects], which the function sets to [subjectsConfig] and
    [getSubjectNameById] reads, is passed to the diagnoser as an argument. *)
Definition scheduleStudentsRun
    (enrollments : list (string * list string))
    (studentCourses studentCodeToName : gmap string string)
    (studentPreferences : gmap string Preference)
    (preassignedSections : list (string * list string))
    (conflictPairs : list (string * string))
    (subjectsConfig : list Subject)
    (scheduleConfig : gmap Z Config)
    (balancingStrategy : BalancingStrategy) : Run ScheduleResult :=
  let conflictMap := buildConflictMap conflictPairs in
  let* _ := forEach preassignedSections (placePreassigned studentCodeToName) in
  let* _ := forEach preassignedSections (checkPreassigned conflictMap studentCodeToName) in
  let* vars :=
    foldRun (scheduleStudent enrollments studentCodeToName studentPreferences
               conflictMap subjectsConfig scheduleConfig balancingStrategy)
            (mkLoopVars [] 0) (studentsToSchedule enrollments preassignedSections) in
  let* sections := getSections in
  ret (assemble enrollments studentCourses studentCodeToName sections vars).

(** [scheduleStudents]: the run on the freshly built section universe. The
    second component carries the final section map and the trace. *)
Definition scheduleStudents
    (enrollments : list (string * list string))
    (studentCourses studentCodeToName : gmap string string)
    (studentPreferences : gmap string Preference)
    (preassignedSections : list (string * list string))
    (conflictPairs : list (string * string))
    (subjectsConfig : list Subject)
    (scheduleConfig : gmap Z Config)
    (balancingStrategy : BalancingStrategy) : Outcome ScheduleResult * Store :=
  scheduleStudentsRun enrollments studentCourses studentCodeToName studentPreferences
    preassignedSections conflictPairs subjectsConfig scheduleConfig balancingStrategy
    (mkStore (buildSections subjectsConfig scheduleConfig) []).

(** ** Invariants of the section store *)

(** A section that has occupants has at most [capacity] of them. *)
Definition capacityRespected (S : gmap string Section) : Prop :=
  ∀ sid section,
    S !! sid = Some section →
    sec_students section = [] ∨
    Z.of_nat (length (sec_students section)) ≤ sec_capacity section.

(** No section holds two different students that conflict. *)
Definition conflictFree (conflictMap : gmap string (gset string))
    (S : gmap string Section) : Prop :=
  ∀ sid section a b,
    S !! sid = Some section →
    a ∈ sec_students section → b ∈ sec_students section →
    a ≠ b → b ∉ conflictsOf conflictMap a.

(** Student [s] is an occupant of section [sid]. *)
Definition occupies (S : gmap string Section) (s sid : string) : Prop :=
  ∃ section, S !! sid = Some section ∧ s ∈ sec_students section.

(** No two sections that hold student [s] share a block. *)
Definition blocksDistinct (S : gmap string Section) (s : string) : Prop :=
  ∀ sid1 sid2 section1 section2,
    sid1 ≠ sid2 →
    S !! sid1 = Some section1 → S !! sid2 = Some section2 →
    s ∈ sec_students section1 → s ∈ sec_students section2 →
    sec_block section1 ≠ sec_block section2.

(** Every occupant was placed by an entry of [entries] that lists the section. *)
Definition occupantsFrom (entries : list (string * list string))
    (S : gmap string Section) : Prop :=
  ∀ s sid, occupies S s sid → ∃ ids, (s, ids) ∈ entries ∧ sid ∈ ids.

(** [T] is [S] after [studentCode] was pushed on the sections [J]. *)
Definition pushedOn (studentCode : string) (J : list string)
    (S T : gmap string Section) : Prop :=
  ∀ sid, T !! sid = (if decide (sid ∈ J) then pushTo studentCode <$> S !! sid
                     else S !! sid).

(** The store after the commit loop over [sids]. *)
Definition commitStore (studentCode : string) (st : Store) (sids : list string) : Store :=
  foldl (λ st sid, pushStore studentCode sid st) st sids.

(** The store invariant of a run: the sections are those of the universe,
    and the capacity bound holds now and held after every push so far. *)
Definition storeOk (scheduleConfig : gmap Z Config) (st : Store) : Prop :=
  sections_wf (store_sections st) scheduleConfig ∧
  capacityRespected (store_sections st) ∧
  Forall capacityRespected (store_trace st).

(** [S] has no section that [S0] lacks, and each section keeps its block. *)
Definition sameBlocks (S0 S : gmap string Section) : Prop :=
  ∀ sid section,
    S !! sid = Some section →
    ∃ section0, S0 !! sid = Some section0 ∧ sec_block section0 = sec_block section.

(** The sections fixed for a preassigned student lie on different blocks. *)
Definition fixedBlocksDistinct (S0 : gmap string Section)
    (preassignedSections : list (string * list string)) (s : string) : Prop :=
  ∀ ids1 ids2 sid1 sid2 section1 section2,
    (s, ids1) ∈ preassignedSections → (s, ids2) ∈ preassignedSections →
    sid1 ∈ ids1 → sid2 ∈ ids2 → sid1 ≠ sid2 →
    S0 !! sid1 = Some section1 → S0 !! sid2 = Some section2 →
    sec_block section1 ≠ sec_block section2.

(** The invariant of the main loop, with [pending] the students still to
    visit: they hold no section yet and none of them is preassigned; a
    student who is not preassigned holds sections on different blocks; a
    preassigned student holds only sections of the student's fixed list. *)
Definition pendingInv (scheduleConfig : gmap Z Config)
    (preassignedSections : list (string * list string)) (S0 : gmap string Section)
    (pending : list string) (st : Store) : Prop :=
  sections_wf (store_sections st) scheduleConfig ∧
  sameBlocks S0 (store_sections st) ∧
  (∀ s, s ∈ pending → s ∉ preassignedSections.*1) ∧
  (∀ s sid, s ∈ pending → ¬ occupies (store_sections st) s sid) ∧
  (∀ s, s ∉ preassignedSections.*1 → blocksDistinct (store_sections st) s) ∧
  (∀ s sid, s ∈ preassignedSections.*1 → occupies (store_sections st) s sid →
            ∃ ids, (s, ids) ∈ preassignedSections ∧ sid ∈ ids).

(** ** Worked configurations *)

Module Examples.
(** Two subjects on the same two blocks, one seat per section. *)
Definition subjects : list Subject :=
  [mkSubject 1 "A" 1 1 2; mkSubject 2 "B" 1 1 2].

Definition config : gmap Z Config :=
  <[1 := mkConfig 1 2 1]> (<[2 := mkConfig 1 2 1]> ∅).

(** P holds the only seat of section 1.2 and Q the only seat of 2.2, both
    by preassignment; X is enrolled in both subjects. *)
Definition enrollments : list (string * list string) :=
  [("P", ["A"]); ("Q", ["B"]); ("X", ["A"; "B"])].

Definition preassigned : list (string * list string) :=
  [("P", ["1.2"]); ("Q", ["2.2"])].

Definition run : Outcome ScheduleResult * Store :=
  scheduleStudents enrollments ∅ ∅ ∅ preassigned [] subjects config speed.

Definition sections : gmap string Section := store_sections run.2.

(** P is preassigned to sections 1.1 and 2.1, which are both on block 1. *)
Definition clashingPreassigned : list (string * list string) :=
  [("P", ["1.1"; "2.1"])].

Definition clashingRun : Outcome ScheduleResult * Store :=
  scheduleStudents [("P", ["A"; "B"])] ∅ ∅ ∅ clashingPreassigned [] subjects config
    speed.

(** Two subjects with three seats per section: A on blocks 1 and 3, B on
    blocks 2 and 3. P and X conflict, X prefers the morning, and no course
    label is known. *)
Definition wideSubjects : list Subject :=
  [mkSubject 1 "A" 3 1 3; mkSubject 2 "B" 3 2 3].

Definition wideConfig : gmap Z Config :=
  <[1 := mkConfig 1 3 3]> (<[2 := mkConfig 2 3 3]> ∅).

Definition wideEnrollments : list (string * list string) :=
  [("P", ["A"]); ("Q", ["A"; "B"]); ("X", ["A"; "B"])].

Definition widePreferences : gmap string Preference := <["X" := manana]> ∅.

Definition widePairs : list (string * string) := [("P", "X")].

Definition wideRun : Outcome ScheduleResult * Store :=
  scheduleStudents wideEnrollments ∅ ∅ widePreferences [] widePairs wideSubjects
    wideConfig equitable.

(** The result of a run that completed. *)
Definition resultOf (run : Outcome ScheduleResult * Store) : ScheduleResult :=
  match run.1 with
  | Done r => r
  | Thrown _ => mkResult ∅ [] ∅ ∅ (mkStats 0 0 0 0 0)
  end.

(** The store when the main loop reaches X, after P and Q. *)
Definition storeBeforeX : Store :=
  (foldRun (scheduleStudent wideEnrollments ∅ widePreferences (buildConflictMap widePairs)
              wideSubjects wideConfig equitable)
           (mkLoopVars [] 0) ["P"; "Q"]
           (mkStore (buildSections wideSubjects wideConfig) [])).2.
End Examples.

(** ** What the main loop leaves for a student it visits *)

(** The outcome for student [c], read on the diagnostics list and the
    section map. Without a configured subject the student is skipped: no
    diagnostics entry, no section. Otherwise the student either has one
    diagnostics entry and no section, or no diagnostics entry and exactly the
    sections of one combination: one section, slot 1 or slot 2, for each of
    the student's subjects. *)
Definition studentOutcome (subjectsConfig : list Subject) (scheduleConfig : gmap Z Config)
    (enrollments : list (string * list string)) (c : string)
    (unassignedStudents : list UnassignedStudentInfo) (S : gmap string Section) : Prop :=
  let studentSubjects :=
    resolveSubjects subjectsConfig (default [] (entries_get c enrollments)) in
  let diagnosed := filter (λ u, u_studentCode u = c) unassignedStudents in
  match studentSubjects with
  | [] => diagnosed = [] ∧ ∀ sid, ¬ occupies S c sid
  | _ =>
      (length diagnosed = 1%nat ∧ ∀ sid, ¬ occupies S c sid) ∨
      (diagnosed = [] ∧
       ∃ a : Assignment,
         a.*1 = studentSubjects ∧
         Forall (searchEntry S scheduleConfig) a ∧
         ∀ sid, occupies S c sid ↔ sid ∈ values a)
  end.

(** ** Manual override: [handleApplyChange] and [handleUndo] (App.tsx) *)

(** [section.students = section.students.filter(s => s !== studentCode)]. *)
Definition removeFrom (studentCode : string) (section : Section) : Section :=
  mkSection (sec_id section) (sec_subjectId section) (sec_subjectName section)
            (sec_block section) (filter (λ s, s ≠ studentCode) (sec_students section))
            (sec_capacity section).

(** The body of [oldSections.forEach(...)], on the copied section map. *)
Definition removeStudent (studentCode : string) (newSectionsMap : gmap string Section)
    (sid : string) : gmap string Section :=
  match newSectionsMap !! sid with
  | Some section => <[sid := removeFrom studentCode section]> newSectionsMap
  | None => newSectionsMap
  end.

(** The body of [newSections.forEach(...)]. *)
Definition addStudent (studentCode : string) (newSectionsMap : gmap string Section)
    (sid : string) : gmap string Section :=
  match newSectionsMap !! sid with
  | Some section => <[sid := pushTo studentCode section]> newSectionsMap
  | None => newSectionsMap
  end.

(** The state updater of [handleApplyChange], on a result that is not
    [null]: the student leaves the sections of the student's record and
    enters the new ones; without a record the result is returned as it is. *)
Definition handleApplyChange (studentCode : string) (newSections : list string)
    (prevResult : ScheduleResult) : ScheduleResult :=
  match r_studentAssignments prevResult !! studentCode with
  | None => prevResult
  | Some studentAssignment =>
      let oldSections := sa_sections studentAssignment in
      let removed := foldl (removeStudent studentCode) (r_sections prevResult) oldSections in
      let newSectionsMap := foldl (addStudent studentCode) removed newSections in
      let updatedAssignment :=
        mkStudentAssignment (sa_name studentAssignment) (sa_code studentAssignment)
                            (sa_course studentAssignment) (sortIds newSections) in
      mkResult newSectionsMap (r_unassignedStudents prevResult)
               (<[studentCode := updatedAssignment]> (r_studentAssignments prevResult))
               (r_studentCodeToName prevResult) (r_stats prevResult)
  end.

(** The two pieces of state the override works on: [result] and [history]. *)
Record AppState := mkAppState {
  app_result : option ScheduleResult;
  app_history : list ScheduleResult
}.

(** [handleApplyChange] as a step of the application: the previous result
    goes on the history, also when the student has no record. *)
Definition applyChange (studentCode : string) (newSections : list string)
    (state : AppState) : AppState :=
  match app_result state with
  | None => state
  | Some prevResult =>
      mkAppState (Some (handleApplyChange studentCode newSections prevResult))
                 (app_history state ++ [prevResult])
  end.

(** [handleUndo]: back to [history[history.length - 1]], and
    [history.slice(0, -1)]. *)
Definition handleUndo (state : AppState) : AppState :=
  match last (app_history state) with
  | None => state
  | Some lastState => mkAppState (Some lastState) (removelast (app_history state))
  end.

(** ** Pre-flight check of the preassignments: [findPreassignmentConflict] (App.tsx) *)

(** The character of a one-character string literal. *)
Definition charOf (s : string) : Ascii.ascii :=
  match s with
  | String c _ => c
  | EmptyString => Ascii.zero
  end.

(** [sectionId.split('.')[0]]: the part before the first dot. *)
Fixpoint beforeDot (s : string) : string :=
  match s with
  | EmptyString => EmptyString
  | String c s' => if Ascii.eqb c (charOf ".") then EmptyString else String c (beforeDot s')
  end.

(** The white space [parseInt] skips: TAB, LF, VT, FF, CR and SP. Strings
    are sequences of bytes here, so the white space outside ASCII is not
    recognised. *)
Definition isWhiteSpace (c : Ascii.ascii) : bool :=
  let n := Ascii.nat_of_ascii c in
  (n =? 9)%nat || (n =? 10)%nat || (n =? 11)%nat || (n =? 12)%nat || (n =? 13)%nat
  || (n =? 32)%nat.

Fixpoint trimStart (s : string) : string :=
  match s with
  | EmptyString => EmptyString
  | String c s' => if isWhiteSpace c then trimStart s' else s
  end.

(** The value of a decimal digit. *)
Definition digitOf (c : Ascii.ascii) : option Z :=
  let n := Ascii.nat_of_ascii c in
  if (48 <=? n)%nat && (n <=? 57)%nat then Some (Z.of_nat n - 48) else None.

(** The value of the longest prefix of digits, continuing [acc]. *)
Fixpoint parseDigits (acc : Z) (s : string) : Z :=
  match s with
  | EmptyString => acc
  | String c s' =>
      match digitOf c with
      | Some d => parseDigits (10 * acc + d) s'
      | None => acc
      end
  end.

(** [parseInt(s, 10)]: leading white space, an optional sign, then the
    longest prefix of digits; [None] is [NaN], the result when there is no
    digit. *)
Definition parseInt (s : string) : option Z :=
  let trimmed := trimStart s in
  let '(sign, rest) :=
    match trimmed with
    | String c rest =>
        if Ascii.eqb c (charOf "-") then (-1, rest)
        else if Ascii.eqb c (charOf "+") then (1, rest)
        else (1, trimmed)
    | EmptyString => (1, trimmed)
    end in
  match rest with
  | EmptyString => None
  | String c _ =>
      match digitOf c with
      | Some _ => Some (sign * parseDigits 0 rest)
      | None => None
      end
  end.

(** [ProcessedFileData], the output of [parseData]. *)
Record ProcessedFileData := mkProcessedFileData {
  pd_enrollments : list (string * list string);
  pd_studentCourses : gmap string string;
  pd_studentCodeToName : gmap string string;
  pd_studentPreferences : gmap string Preference;
  pd_preassignedSections : list (string * list string)
}.

Record PreassignmentConflictInfo := mkPreassignmentConflictInfo {
  pc_studentCode : string;
  pc_studentName : string;
  pc_conflictingBlock : Z;
  pc_conflictingSections : list string;
  pc_allPreassignedSections : list string;
  pc_enrollments : list string
}.

(** The block a preassigned section id stands for: the subject id is read
    with [parseInt] from the part before the dot, the slot is 1 when the id
    ends with [.1] and 2 otherwise; [None] when the subject has no
    configuration ([continue]). *)
Definition blockOfSectionId (scheduleConfig : gmap Z Config) (sid : string) : option Z :=
  match parseInt (beforeDot sid) with
  | None => None
  | Some subjectId =>
      match scheduleConfig !! subjectId with
      | None => None
      | Some config =>
          let sectionNumber := if endsWith sid ".1" then 1 else 2 in
          Some (if decide (sectionNumber = 1) then s1_block config else s2_block config)
      end
  end.

(** [if (!usedBlocks.has(block)) usedBlocks.set(block, []);
     usedBlocks.get(block)!.push(sectionId)] on the [Map] in insertion order. *)
Fixpoint blocks_push (block : Z) (sid : string) (usedBlocks : list (Z * list string))
  : list (Z * list string) :=
  match usedBlocks with
  | [] => [(block, [sid])]
  | (b, l) :: rest =>
      if decide (b = block) then (b, l ++ [sid]) :: rest
      else (b, l) :: blocks_push block sid rest
  end.

(** The first inner loop: the section ids of one student, by block. *)
Definition groupByBlock (scheduleConfig : gmap Z Config) (sectionIds : list string)
  : list (Z * list string) :=
  foldl (λ usedBlocks sid,
           match blockOfSectionId scheduleConfig sid with
           | None => usedBlocks
           | Some block => blocks_push block sid usedBlocks
           end)
        [] sectionIds.

(** [findPreassignmentConflict]: the first student, in the order of the
    preassignment map, with a block that holds more than one section; [None]
    is [null]. *)
Definition findPreassignmentConflict (processedData : ProcessedFileData)
    (scheduleConfig : gmap Z Config) : option PreassignmentConflictInfo :=
  firstSome
    (λ entry : string * list string,
       let '(studentCode, sectionIds) := entry in
       match List.find (λ e : Z * list string, bool_decide (1 < length e.2)%nat)
                       (groupByBlock scheduleConfig sectionIds) with
       | Some (block, conflictingSections) =>
           Some (mkPreassignmentConflictInfo
                   studentCode
                   (match pd_studentCodeToName processedData !! studentCode with
                    | Some name => if decide (name = "") then "Desconocido" else name
                    | None => "Desconocido"
                    end)
                   block conflictingSections sectionIds
                   (default [] (entries_get studentCode (pd_enrollments processedData))))
       | None => None
       end)
    (pd_preassignedSections processedData).

(** The blocks of the section ids of one preassigned student, in list order. *)
Definition preassignedBlocks (scheduleConfig : gmap Z Config) (sectionIds : list string)
  : list Z :=
  omap (blockOfSectionId scheduleConfig) sectionIds.

(** ** The configuration panel ([AdminPanel], initialConfig.ts) *)

(** The configuration entry written for a subject:
    [{ s1_block, s2_block, capacity }]. *)
Definition configEntry (subject : Subject) : Config :=
  mkConfig (subj_s1_block subject) (subj_s2_block subject) (subj_capacity subject).

(** [initialScheduleConfig], filled by [initialSubjects.forEach]. *)
Definition initialScheduleConfig (initialSubjects : list Subject) : gmap Z Config :=
  foldl (λ config s, <[subj_id s := configEntry s]> config) ∅ initialSubjects.

(** The two pieces of state the panel edits. *)
Record AdminState := mkAdminState {
  ad_subjects : list Subject;
  ad_scheduleConfig : gmap Z Config
}.

(** [handleSaveSubject]: a subject with a new id is appended, otherwise it
    replaces the subject of that id; its configuration entry is written. *)
Definition handleSaveSubject (state : AdminState) (subjectToSave : Subject) : AdminState :=
  let subjects := ad_subjects state in
  let isNew :=
    negb (existsb (λ s, bool_decide (subj_id s = subj_id subjectToSave)) subjects) in
  mkAdminState
    (if isNew then subjects ++ [subjectToSave]
     else (λ s, if decide (subj_id s = subj_id subjectToSave) then subjectToSave else s)
            <$> subjects)
    (<[subj_id subjectToSave := configEntry subjectToSave]> (ad_scheduleConfig state)).

(** [Math.max(...ids)] on a list that is not empty. *)
Definition maxOf (id : Z) (ids : list Z) : Z := foldl Z.max id ids.

(** [handleAddNew]: the subject handed to the form, under the id
    [subjects.length > 0 ? Math.max(...subjects.map(s => s.id)) + 1 : 1]. *)
Definition handleAddNew (state : AdminState) : Subject :=
  let newId :=
    match subj_id <$> ad_subjects state with
    | [] => 1
    | id :: ids => maxOf id ids + 1
    end in
  mkSubject newId "" 30 1 2.

(** [handleDelete], once the user has confirmed. *)
Definition handleDelete (state : AdminState) (subjectId : Z) : AdminState :=
  mkAdminState (filter (λ s, subj_id s ≠ subjectId) (ad_subjects state))
               (delete subjectId (ad_scheduleConfig state)).

(** The subject list and the schedule configuration are in step: the ids
    of the listed subjects are different, and the configuration has an entry
    exactly for the listed subjects, with the subject's blocks and capacity. *)
Definition configInStep (state : AdminState) : Prop :=
  NoDup (subj_id <$> ad_subjects state) ∧
  ∀ id config,
    ad_scheduleConfig state !! id = Some config ↔
    ∃ s, s ∈ ad_subjects state ∧ subj_id s = id ∧ config = configEntry s.

(** ** What a run never touches *)

(** The labels of a section: everything but its occupants. *)
Definition labels (section : Section) : string * Z * string * Z * Z :=
  (sec_id section, sec_subjectId section, sec_subjectName section, sec_block section,
   sec_capacity section).

(** [S] has exactly the sections of [S0], each with the labels it has in
    [S0]; only the occupants may differ. *)
Definition sameLabels (S0 S : gmap string Section) : Prop :=
  ∀ sid, labels <$> S !! sid = labels <$> S0 !! sid.

(** ** What the dashboard reads from a result
    (components/DiagnosticPanel.tsx, components/ResultsDashboard.tsx) *)

(** [String.prototype.startsWith]. *)
Fixpoint startsWith (s searchString : string) : bool :=
  match searchString with
  | EmptyString => true
  | String c searchString' =>
      match s with
      | EmptyString => false
      | String d s' => Ascii.eqb d c && startsWith s' searchString'
      end
  end.

(** The guard of the analysis loop of the diagnostic panel: the
    diagnostics entries it counts. *)
Definition countedByPanel (ua : UnassignedStudentInfo) : bool :=
  startsWith (d_reason (u_diagnosis ua)) "Conflicto de Horario".

(** The status [getValidationStatus] returns: [{ isValid, missingSubjects }]. *)
Record ValidationStatus := mkValidationStatus {
  vs_isValid : bool;
  vs_missingSubjects : list string
}.

(** [getValidationStatus]: the enrolled subject names of a student against
    the names of the subjects of the sections of the student's record. The
    enrolled names are a [Set], here the list of its elements in insertion
    order, which holds no name twice; its [size] is the length. [!!name]
    drops the sections the map does not have and the empty name. *)
Definition getValidationStatus (enrollments : list (string * list string))
    (sections : gmap string Section) (assignment : StudentAssignment) : ValidationStatus :=
  let enrolledSubjects := default [] (entries_get (sa_code assignment) enrollments) in
  let assignedSubjectNames :=
    foldl (λ names name, set_add name names) []
      (filter (λ name, name ≠ "")
         (omap (λ secId, sec_subjectName <$> sections !! secId) (sa_sections assignment))) in
  let missingSubjects := filter (λ s, s ∉ assignedSubjectNames) enrolledSubjects in
  if decide (length enrolledSubjects ≠ length assignedSubjectNames)
  then mkValidationStatus false missingSubjects
  else
    match List.find (λ subject, bool_decide (subject ∉ assignedSubjectNames))
                    enrolledSubjects with
    | Some _ => mkValidationStatus false missingSubjects
    | None => mkValidationStatus true []
    end.

(** ** Worked configurations, continued *)

Module Cases.
(** The second configuration with course labels for Q and X. *)
Definition courses : gmap string string := <["X" := "3A"]> (<["Q" := "3B"]> ∅).

Definition courseRun : Outcome ScheduleResult * Store :=
  scheduleStudents Examples.wideEnrollments courses ∅ Examples.widePreferences []
    Examples.widePairs Examples.wideSubjects Examples.wideConfig equitable.

(** P is preassigned to a section that no configured subject has. *)
Definition unknownSection : list (string * list string) := [("P", ["9.1"])].

(** P and Q, who conflict, are both preassigned to section 1.1. *)
Definition sharedSection : list (string * list string) :=
  [("P", ["1.1"]); ("Q", ["1.1"])].

(** P is preassigned to sections 1.1 and 2.2, on blocks 1 and 2. *)
Definition compatibleData : ProcessedFileData :=
  mkProcessedFileData [("P", ["A"; "B"])] ∅ ∅ ∅ [("P", ["1.1"; "2.2"])].

Definition compatibleRun : Outcome ScheduleResult * Store :=
  scheduleStudents (pd_enrollments compatibleData) (pd_studentCourses compatibleData)
    (pd_studentCodeToName compatibleData) (pd_studentPreferences compatibleData)
    (pd_preassignedSections compatibleData) [] Examples.subjects Examples.config speed.

(** P holds both sections of subject A by preassignment; X, who conflicts
    with P, is enrolled in A only. *)
Definition blockedRun : Outcome ScheduleResult * Store :=
  scheduleStudents [("X", ["A"])] ∅ ∅ ∅ [("P", ["1.1"; "1.2"])] [("P", "X")]
    Examples.wideSubjects Examples.wideConfig speed.

(** The panel on the first configuration. *)
Definition panel : AdminState :=
  mkAdminState Examples.subjects (initialScheduleConfig Examples.subjects).
End Cases.

(* ================================================================= *)
(** * Properties *)

(** ** Strings *)

Lemma string_app_nil_l (s : string) : "" +:+ s = s.
Proof. reflexivity. Qed.

Lemma string_app_cons (c : Ascii.ascii) (s t : string) : String c s +:+ t = String c (s +:+ t).
Proof. reflexivity. Qed.

Lemma string_length_app (s t : string) :
  String.length (s +:+ t) = (String.length s + String.length t)%nat.
Proof. induction s as [|c s IH]; [done|]. rewrite string_app_cons. simpl. by rewrite IH. Qed.

Lemma string_app_inj_same_length (a b t1 t2 : string) :
  String.length t1 = String.length t2 →
  a +:+ t1 = b +:+ t2 → a = b ∧ t1 = t2.
Proof.
  intros Hlen. revert b. induction a as [|c a IH]; intros [|d b] Heq.
  - done.
  - exfalso. rewrite string_app_nil_l in Heq. subst t1.
    rewrite string_app_cons in Hlen. simpl in Hlen. rewrite string_length_app in Hlen. lia.
  - exfalso. rewrite string_app_nil_l in Heq. subst t2.
    rewrite string_app_cons in Hlen. simpl in Hlen. rewrite string_length_app in Hlen. lia.
  - rewrite !string_app_cons in Heq. injection Heq as -> Heq.
    destruct (IH _ Heq) as [-> ->]. done.
Qed.

Lemma sectionId_inj (s1 s2 : Z) (k1 k2 : string) :
  String.length k1 = String.length k2 →
  sectionId s1 k1 = sectionId s2 k2 → s1 = s2 ∧ k1 = k2.
Proof.
  unfold sectionId. intros Hlen Heq.
  apply string_app_inj_same_length in Heq as [Hp Hk].
  - apply (inj pretty) in Hp. split; [done|]. by injection Hk.
  - rewrite !string_app_cons. simpl. rewrite !string_app_nil_l. simpl. by rewrite Hlen.
Qed.

Lemma sectionId_slots_ne (s1 s2 : Z) : sectionId s1 "1" ≠ sectionId s2 "2".
Proof. intros Heq. by apply sectionId_inj in Heq as [_ ?]. Qed.

Lemma endsWith_app (p suffix : string) : endsWith (p +:+ suffix) suffix = true.
Proof.
  induction p as [|c p IH].
  - rewrite string_app_nil_l. destruct suffix; [done|].
    cbn [endsWith]. by rewrite String.eqb_refl.
  - rewrite string_app_cons. cbn [endsWith]. rewrite IH. by rewrite orb_true_r.
Qed.

Lemma endsWith_inv (s suffix : string) :
  endsWith s suffix = true → ∃ p, s = p +:+ suffix.
Proof.
  induction s as [|c s IH]; cbn [endsWith].
  - rewrite orb_false_r. intros ->%String.eqb_eq. by exists "".
  - intros [->%String.eqb_eq | H]%orb_true_iff; [by exists ""|].
    destruct (IH H) as [p ->]. by exists (String c p).
Qed.

Lemma endsWith_sectionId_1 (s : Z) : endsWith (sectionId s "1") ".1" = true.
Proof. unfold sectionId. apply endsWith_app. Qed.

Lemma endsWith_sectionId_2 (s : Z) : endsWith (sectionId s "2") ".1" = false.
Proof.
  apply not_true_is_false. intros [p Hp]%endsWith_inv. unfold sectionId in Hp.
  by apply string_app_inj_same_length in Hp as [_ ?].
Qed.

(** ** The [Assignment] map *)

Lemma map_set_fresh (k : Z) (v : string) (m : Assignment) :
  k ∉ m.*1 → map_set k v m = m ++ [(k, v)].
Proof.
  induction m as [|[k' v'] m IH]; intros Hk; [done|].
  cbn in Hk. apply not_elem_of_cons in Hk as [Hne Hk].
  cbn. rewrite decide_False by congruence. by rewrite IH.
Qed.

Lemma map_delete_fresh (k : Z) (m : Assignment) :
  k ∉ m.*1 → map_delete k m = m.
Proof.
  unfold map_delete. induction m as [|[k' v'] m IH]; intros Hk; [done|].
  cbn in Hk. apply not_elem_of_cons in Hk as [Hne Hk].
  rewrite filter_cons_True by (cbn; congruence). by rewrite IH.
Qed.

Lemma map_delete_set_fresh (k : Z) (v : string) (m : Assignment) :
  k ∉ m.*1 → map_delete k (map_set k v m) = m.
Proof.
  intros Hk. rewrite map_set_fresh by done. unfold map_delete.
  rewrite filter_app. fold (map_delete k m). rewrite map_delete_fresh by done.
  rewrite filter_cons_False by (cbn; tauto). by rewrite filter_nil, app_nil_r.
Qed.

(** ** The search *)

Ltac bt_simpl := cbn [currentAssignment usedBlocks validAssignments] in *.

Section search_facts.
Context (studentConflicts : gset string).
Context (sections : gmap string Section).
Context (scheduleConfig : gmap Z Config).

Local Abbreviation hasConflict_ := (hasConflict studentConflicts).
Local Abbreviation slotOpen_ := (slotOpen studentConflicts sections).
Local Abbreviation enumerate_ := (enumerate studentConflicts sections scheduleConfig).
Local Abbreviation backtrack_ := (backtrack studentConflicts sections scheduleConfig).
Local Abbreviation processSection_ := (processSection studentConflicts sections).

Lemma hasConflict_false (section : Section) :
  hasConflict_ section = false ↔
  ∀ c, c ∈ sec_students section → c ∉ studentConflicts.
Proof.
  unfold hasConflict. case_bool_decide as Hsz.
  - rewrite <- not_true_iff_false, existsb_exists. split.
    + intros Hno c Hc Hin. apply Hno. exists c. split.
      * by apply list_elem_of_In.
      * by apply bool_decide_eq_true.
    + intros Hall (c & Hc%list_elem_of_In & Hin%bool_decide_eq_true).
      by apply (Hall c).
  - split; [|done]. intros _ c _ Hin.
    assert (size studentConflicts = 0%nat) as Hz by lia.
    apply size_empty_inv in Hz. set_solver.
Qed.

Lemma slotOpen_true (used : gset Z) (subjectId block : Z) (suffix : string) :
  slotOpen_ used subjectId block suffix = true ↔
  (block ∉ used) ∧
  (∃ section,
    sections !! sectionId subjectId suffix = Some section ∧
    Z.of_nat (length (sec_students section)) < sec_capacity section ∧
    ∀ c, c ∈ sec_students section → c ∉ studentConflicts).
Proof.
  unfold slotOpen. rewrite andb_true_iff, bool_decide_eq_true.
  apply and_iff_compat_l.
  destruct (sections !! sectionId subjectId suffix) as [section|]; [|naive_solver].
  rewrite andb_true_iff, !negb_true_iff, bool_decide_eq_false, hasConflict_false.
  split.
  - intros [Hcap Hconf]. exists section. split_and!; [done|lia|done].
  - intros (? & [= <-] & Hcap & Hconf). split; [lia|done].
Qed.

(** One call of [processSection_] on a fresh subject appends the
    completions through that slot and restores the two mutable objects. *)
Lemma processSection_enumerate (next : BtState → BtState) (rest' : list Z)
    (subjectId block : Z) (suffix : string) (st : BtState) :
  (∀ st1, (∀ s, s ∈ rest' → s ∉ (currentAssignment st1).*1) →
     next st1 = mkBt (currentAssignment st1) (usedBlocks st1)
                  (validAssignments st1 ++
                     (app (currentAssignment st1) <$> enumerate_ rest' (usedBlocks st1)))) →
  subjectId ∉ (currentAssignment st).*1 →
  subjectId ∉ rest' →
  (∀ s, s ∈ rest' → s ∉ (currentAssignment st).*1) →
  processSection_ next subjectId block suffix st =
    mkBt (currentAssignment st) (usedBlocks st)
      (validAssignments st ++
         (app (currentAssignment st) <$>
            (if slotOpen_ (usedBlocks st) subjectId block suffix
             then cons (subjectId, sectionId subjectId suffix)
                    <$> enumerate_ rest' (usedBlocks st ∪ {[block]})
             else []))).
Proof.
  intros Hnext Hfresh Hnotin Hrest. destruct st as [cur used valid]. bt_simpl.
  unfold processSection, slotOpen. bt_simpl.
  destruct (decide (block ∈ used)) as [Hin|Hout].
  { rewrite bool_decide_eq_false_2 by tauto. cbn. by rewrite app_nil_r. }
  rewrite bool_decide_eq_true_2 by done. rewrite andb_true_l.
  destruct (sections !! sectionId subjectId suffix) as [section|];
    [|cbn; by rewrite app_nil_r].
  case_bool_decide; [cbn; by rewrite app_nil_r|].
  destruct (hasConflict_ section); [cbn; by rewrite app_nil_r|].
  cbn [negb andb]. rewrite Hnext; bt_simpl.
  - rewrite map_delete_set_fresh by done. f_equal.
    + set_solver.
    + f_equal. rewrite map_set_fresh by done.
      rewrite <- list_fmap_compose. apply list_fmap_ext.
      intros i a _. cbn. by rewrite <- app_assoc.
  - intros s Hs. rewrite map_set_fresh by done.
    rewrite fmap_app. cbn. intros [?| ->%list_elem_of_singleton]%elem_of_app.
    + by apply (Hrest s).
    + done.
Qed.

(** The mutable traversal computes the pure enumeration, on a subject list
    without repetition. *)
Lemma backtrack_enumerate (rest : list Z) (st : BtState) :
  NoDup rest →
  (∀ s, s ∈ rest → s ∉ (currentAssignment st).*1) →
  backtrack_ rest st =
    mkBt (currentAssignment st) (usedBlocks st)
      (validAssignments st ++
         (app (currentAssignment st) <$> enumerate_ rest (usedBlocks st))).
Proof.
  intros Hnd. revert st. induction Hnd as [|s rest' Hs Hnd IH]; intros st Hfresh.
  - cbn. by rewrite app_nil_r.
  - cbn [backtrack enumerate].
    destruct (scheduleConfig !! s) as [config|];
      [|destruct st; cbn; by rewrite app_nil_r].
    assert (∀ st1, (∀ s', s' ∈ rest' → s' ∉ (currentAssignment st1).*1) →
              backtrack_ rest' st1 =
              mkBt (currentAssignment st1) (usedBlocks st1)
                (validAssignments st1 ++
                   (app (currentAssignment st1) <$> enumerate_ rest' (usedBlocks st1))))
      as Hnext by (intros st1 H1; by apply IH).
    assert (s ∉ (currentAssignment st).*1) as Hs0 by (apply Hfresh; by left).
    assert (∀ s', s' ∈ rest' → s' ∉ (currentAssignment st).*1) as Hr0
      by (intros s' Hs'; apply Hfresh; by right).
    rewrite (processSection_enumerate _ rest' s (s1_block config) "1" st Hnext Hs0 Hs Hr0).
    rewrite (processSection_enumerate _ rest' s (s2_block config) "2" (mkBt _ _ _) Hnext);
      [|by bt_simpl..].
    bt_simpl. by rewrite <- app_assoc, <- fmap_app.
Qed.
End search_facts.

Lemma findValidAssignments_enumerate (studentSubjects : list Z) (studentCode : string)
    (conflictMap : gmap string (gset string)) (sections : gmap string Section)
    (scheduleConfig : gmap Z Config) :
  NoDup studentSubjects →
  findValidAssignments studentSubjects studentCode conflictMap sections scheduleConfig =
  enumerate (conflictsOf conflictMap studentCode) sections scheduleConfig studentSubjects ∅.
Proof.
  intros Hnd. unfold findValidAssignments.
  rewrite backtrack_enumerate; [|done|cbn; set_solver]. cbn.
  apply list_fmap_id.
Qed.

(** ** Well-formed section universes *)

Lemma sections_wf_lookup (sections : gmap string Section) (scheduleConfig : gmap Z Config)
    (s : Z) (suffix : string) (config : Config) (section : Section) :
  sections_wf sections scheduleConfig →
  suffix = "1" ∨ suffix = "2" →
  scheduleConfig !! s = Some config →
  sections !! sectionId s suffix = Some section →
  sec_subjectId section = s ∧
  sec_capacity section = capacity config ∧
  sec_block section = (if decide (suffix = "1") then s1_block config else s2_block config).
Proof.
  intros Hwf Hsuf Hcfg Hsec.
  destruct (Hwf _ _ Hsec) as (config' & Hcfg' & Hcap & Hslot).
  assert (sec_subjectId section = s ∧
          ((suffix = "1" ∧ sec_block section = s1_block config') ∨
           (suffix = "2" ∧ sec_block section = s2_block config'))) as [Hs Hb].
  { destruct Hslot as [[Hid Hb]|[Hid Hb]], Hsuf as [->| ->];
      apply sectionId_inj in Hid as [? ?]; try done; naive_solver. }
  rewrite Hs in Hcfg'. assert (config' = config) as -> by congruence.
  split_and!; [done..|].
  destruct Hb as [[-> ?]|[-> ?]]; by case_decide.
Qed.

Lemma sections_wf_entry (sections : gmap string Section) (scheduleConfig : gmap Z Config)
    (sid : string) (section : Section) :
  sections_wf sections scheduleConfig →
  sections !! sid = Some section →
  ∃ config suffix,
    scheduleConfig !! sec_subjectId section = Some config ∧
    (suffix = "1" ∨ suffix = "2") ∧
    sid = sectionId (sec_subjectId section) suffix ∧
    sec_block section = (if decide (suffix = "1") then s1_block config else s2_block config).
Proof.
  intros Hwf Hsec. destruct (Hwf _ _ Hsec) as (config & Hcfg & _ & [[-> Hb]|[-> Hb]]).
  - exists config, "1". rewrite decide_True by done. naive_solver.
  - exists config, "2". rewrite decide_False by done. naive_solver.
Qed.

(** ** The enumeration lists exactly the feasible assignments *)

Section enumerate_facts.
Context (studentConflicts : gset string).
Context (sections : gmap string Section).
Context (scheduleConfig : gmap Z Config).
Hypothesis Hwf : sections_wf sections scheduleConfig.

Local Abbreviation slotOpen_ := (slotOpen studentConflicts sections).
Local Abbreviation enumerate_ := (enumerate studentConflicts sections scheduleConfig).
Local Abbreviation feasibleEntry_ := (feasibleEntry studentConflicts sections).
Local Abbreviation chosenBlocks_ := (chosenBlocks sections).
Local Abbreviation feasibleAssignment_ := (feasibleAssignment studentConflicts sections).

Lemma chosenBlocks_cons (e : Z * string) (a : Assignment) (section : Section) :
  sections !! e.2 = Some section →
  chosenBlocks_ (e :: a) = sec_block section :: chosenBlocks_ a.
Proof. intros H. unfold chosenBlocks, values. cbn. by rewrite H. Qed.

Lemma elem_of_slot_branch (rest' : list Z) (used : gset Z) (s blk : Z) (suffix : string)
    (a : Assignment) :
  a ∈ (if slotOpen_ used s blk suffix
       then cons (s, sectionId s suffix) <$> enumerate_ rest' (used ∪ {[blk]})
       else []) ↔
  ∃ a', a = (s, sectionId s suffix) :: a' ∧
        slotOpen_ used s blk suffix = true ∧
        a' ∈ enumerate_ rest' (used ∪ {[blk]}).
Proof.
  destruct (slotOpen_ used s blk suffix).
  - rewrite list_elem_of_fmap. naive_solver.
  - rewrite elem_of_nil. naive_solver.
Qed.

Lemma slot_branch_feasible (rest' : list Z) (used : gset Z) (s blk : Z)
    (suffix : string) (config : Config) (a' : Assignment) :
  suffix = "1" ∨ suffix = "2" →
  scheduleConfig !! s = Some config →
  blk = (if decide (suffix = "1") then s1_block config else s2_block config) →
  (slotOpen_ used s blk suffix = true ∧
   feasibleAssignment_ rest' a' ∧ (∀ b, b ∈ chosenBlocks_ a' → b ∉ used ∪ {[blk]})) ↔
  (feasibleAssignment_ (s :: rest') ((s, sectionId s suffix) :: a') ∧
   (∀ b, b ∈ chosenBlocks_ ((s, sectionId s suffix) :: a') → b ∉ used)).
Proof.
  intros Hsuf Hcfg Hblk. rewrite slotOpen_true. unfold feasibleAssignment.
  split.
  - intros ((Hfree & section & Hsec & Hroom & Hconf) & (Hkeys & Hnd & Hall) & Hblocks).
    destruct (sections_wf_lookup _ _ _ _ _ _ Hwf Hsuf Hcfg Hsec) as (Hs & _ & Hb).
    rewrite <- Hblk in Hb.
    rewrite (chosenBlocks_cons _ _ section) by done. rewrite Hb.
    split_and!.
    + cbn. by rewrite Hkeys.
    + constructor; [|done]. intros Hin. apply Hblocks in Hin. set_solver.
    + constructor; [|done]. exists section. by split_and!.
    + intros b [->|Hin]%elem_of_cons; [done|]. apply Hblocks in Hin. set_solver.
  - intros ((Hkeys & Hnd & Hall) & Hblocks).
    apply Forall_cons in Hall as [(section & Hsec & Hs & Hroom & Hconf) Hall].
    cbn in Hsec, Hs.
    destruct (sections_wf_lookup _ _ _ _ _ _ Hwf Hsuf Hcfg Hsec) as (_ & _ & Hb).
    rewrite <- Hblk in Hb.
    rewrite (chosenBlocks_cons _ _ section) in Hnd, Hblocks by done.
    rewrite Hb in Hnd, Hblocks. apply NoDup_cons in Hnd as [Hnotin Hnd].
    split_and!.
    + apply Hblocks. by left.
    + by exists section.
    + cbn in Hkeys. congruence.
    + done.
    + done.
    + intros b Hin. assert (b ∉ used) by (apply Hblocks; by right).
      assert (b ≠ blk) by congruence. set_solver.
Qed.

Lemma elem_of_enumerate (rest : list Z) (used : gset Z) (a : Assignment) :
  a ∈ enumerate_ rest used ↔
  feasibleAssignment_ rest a ∧ ∀ b, b ∈ chosenBlocks_ a → b ∉ used.
Proof.
  revert used a. induction rest as [|s rest' IH]; intros used a.
  - cbn. rewrite list_elem_of_singleton. unfold feasibleAssignment. split.
    + intros ->. split_and!; [done|constructor|constructor|].
      intros b Hb. by apply elem_of_nil in Hb.
    + intros [[Hkeys _] _]. by apply fmap_nil_inv in Hkeys.
  - cbn [enumerate].
    destruct (scheduleConfig !! s) as [config|] eqn:Hcfg.
    + rewrite elem_of_app, !elem_of_slot_branch. split.
      * intros [(a' & -> & Hopen & Hin)|(a' & -> & Hopen & Hin)];
          apply IH in Hin as [Hf Hb].
        -- apply (slot_branch_feasible rest' used s (s1_block config) "1" config a');
             [by left|done|done|by split_and!].
        -- apply (slot_branch_feasible rest' used s (s2_block config) "2" config a');
             [by right|done|done|by split_and!].
      * intros [Hf Hb].
        destruct a as [|[s' sid] a'];
          [by destruct Hf as [? _]|].
        assert (s' = s) as -> by (destruct Hf as [Hk _]; cbn in Hk; congruence).
        pose proof Hf as (_ & _ & Hall).
        apply Forall_cons in Hall as [(section & Hsec & Hs & _) _]. cbn in Hsec, Hs.
        destruct (sections_wf_entry _ _ _ _ Hwf Hsec)
          as (config' & suffix & Hcfg' & Hsuf & Hid & _).
        rewrite Hs in Hid. subst sid.
        destruct Hsuf as [-> | ->]; [left|right]; exists a'; (split; [done|]).
        -- rewrite IH.
           apply (slot_branch_feasible rest' used s (s1_block config) "1" config a');
             [by left|done|done|by split].
        -- rewrite IH.
           apply (slot_branch_feasible rest' used s (s2_block config) "2" config a');
             [by right|done|done|by split].
    + rewrite elem_of_nil. split; [done|]. intros [(Hkeys & _ & Hall) _].
      destruct a as [|[s' sid] a']; [done|].
      apply Forall_cons in Hall as [(section & Hsec & Hs & _) _]. cbn in Hsec, Hs.
      destruct (Hwf _ _ Hsec) as (config & Hcfg' & _).
      cbn in Hkeys. congruence.
Qed.

Lemma NoDup_enumerate (rest : list Z) (used : gset Z) : NoDup (enumerate_ rest used).
Proof.
  revert used. induction rest as [|s rest' IH]; intros used.
  - cbn. apply NoDup_singleton.
  - cbn [enumerate]. destruct (scheduleConfig !! s) as [config|];
      [|constructor].
    apply NoDup_app. split_and!.
    + destruct (slotOpen_ used s (s1_block config) "1"); [|constructor].
      apply NoDup_fmap_2; [|done]. by intros ?? [=].
    + intros a [a1 [-> _]]%elem_of_slot_branch [a2 [Heq _]]%elem_of_slot_branch.
      injection Heq as Heq _. by apply sectionId_slots_ne in Heq.
    + destruct (slotOpen_ used s (s2_block config) "2"); [|constructor].
      apply NoDup_fmap_2; [|done]. by intros ?? [=].
Qed.
End enumerate_facts.

(** C1. On a list of distinct enrolled subjects and a section universe,
    [findValidAssignments] returns, each once, exactly the complete
    assignments (one section of each enrolled subject) in which (a) no two
    chosen sections share a block, (b) every chosen section has strictly
    fewer occupants than its capacity and (c) no occupant of a chosen
    section is in the student's conflict set: every returned assignment is
    feasible (sound) and every feasible assignment is returned (exhaustive). *)
Theorem findValidAssignments_sound_exhaustive (studentSubjects : list Z)
    (studentCode : string) (conflictMap : gmap string (gset string))
    (sections : gmap string Section) (scheduleConfig : gmap Z Config) :
  NoDup studentSubjects →
  sections_wf sections scheduleConfig →
  NoDup (findValidAssignments studentSubjects studentCode conflictMap sections scheduleConfig) ∧
  ∀ a : Assignment,
    a ∈ findValidAssignments studentSubjects studentCode conflictMap sections scheduleConfig ↔
    feasibleAssignment (conflictsOf conflictMap studentCode) sections studentSubjects a.
Proof.
  intros Hnd Hwf. rewrite findValidAssignments_enumerate by done. split.
  - by apply NoDup_enumerate.
  - intros a. rewrite elem_of_enumerate by done. split; [tauto|].
    intros Hf. split; [done|]. intros b _. apply not_elem_of_empty.
Qed.

(** ** Every recorded entry is a configured subject with one of its sections *)

Lemma Forall_map_set (P : Z * string → Prop) (k : Z) (v : string) (m : Assignment) :
  Forall P m → P (k, v) → Forall P (map_set k v m).
Proof.
  intros Hm Hkv. induction Hm as [|[k' v'] m Hx Hm IH]; cbn.
  - by constructor.
  - case_decide; constructor; auto.
Qed.

Lemma Forall_map_delete (P : Z * string → Prop) (k : Z) (m : Assignment) :
  Forall P m → Forall P (map_delete k m).
Proof.
  rewrite !Forall_forall. intros Hm e He. apply Hm.
  unfold map_delete in He. by apply list_elem_of_filter in He as [_ ?].
Qed.

Section search_entries.
Context (studentConflicts : gset string).
Context (sections : gmap string Section).
Context (scheduleConfig : gmap Z Config).

Local Abbreviation backtrack_ := (backtrack studentConflicts sections scheduleConfig).
Local Abbreviation processSection_ := (processSection studentConflicts sections).
Local Abbreviation searchEntry_ := (searchEntry sections scheduleConfig).

Local Abbreviation entriesOk_ := (entriesOk sections scheduleConfig).

Lemma processSection_entriesOk (next : BtState → BtState) (s blk : Z)
    (suffix : string) (config : Config) (st : BtState) :
  (∀ st1, entriesOk_ st1 → entriesOk_ (next st1)) →
  scheduleConfig !! s = Some config →
  suffix = "1" ∨ suffix = "2" →
  entriesOk_ st → entriesOk_ (processSection_ next s blk suffix st).
Proof.
  intros Hnext Hcfg Hsuf [Hcur Hvalid]. unfold processSection.
  case_decide; [done|].
  destruct (sections !! sectionId s suffix) as [section|] eqn:Hsec; [|done].
  case_bool_decide; [done|].
  destruct (hasConflict studentConflicts section); [done|].
  match goal with |- entriesOk_ (mkBt _ _ (validAssignments (next ?st1))) =>
    destruct (Hnext st1) as [Hcur' Hvalid'] end.
  { split; [|done]. bt_simpl. apply Forall_map_set; [done|].
    exists config, suffix, section. by split_and!. }
  split; bt_simpl; [|done]. by apply Forall_map_delete.
Qed.

Lemma backtrack_entriesOk (rest : list Z) (st : BtState) :
  entriesOk_ st → entriesOk_ (backtrack_ rest st).
Proof.
  revert st. induction rest as [|s rest' IH]; intros st [Hcur Hvalid].
  - split; cbn; [done|]. apply Forall_app. split; [done|]. by constructor.
  - cbn. destruct (scheduleConfig !! s) as [config|] eqn:Hcfg; [|done].
    eapply processSection_entriesOk; [done|done|by right|].
    eapply processSection_entriesOk; [done|done|by left|done].
Qed.
End search_entries.

Lemma findValidAssignments_searchEntry (studentSubjects : list Z) (studentCode : string)
    (conflictMap : gmap string (gset string)) (sections : gmap string Section)
    (scheduleConfig : gmap Z Config) (a : Assignment) :
  a ∈ findValidAssignments studentSubjects studentCode conflictMap sections scheduleConfig →
  Forall (searchEntry sections scheduleConfig) a.
Proof.
  unfold findValidAssignments. intros Ha.
  destruct (backtrack_entriesOk (conflictsOf conflictMap studentCode) sections
              scheduleConfig studentSubjects (mkBt [] ∅ [])) as [_ Hvalid].
  { split; constructor. }
  rewrite Forall_forall in Hvalid. by apply Hvalid.
Qed.

(** ** Cost evaluator *)

Lemma preferencePenalty_is_Some (preference : Preference) (scheduleConfig : gmap Z Config)
    (entries : Assignment) (acc : Z) :
  Forall (λ e, is_Some (scheduleConfig !! e.1)) entries →
  is_Some (preferencePenalty preference scheduleConfig entries acc).
Proof.
  intros H. revert acc. induction H as [|[s sid] entries [config Hcfg] _ IH]; intros acc.
  - by eexists.
  - cbn in *. rewrite Hcfg. apply IH.
Qed.

Lemma calculateAssignmentCost_is_Some (sections : gmap string Section)
    (scheduleConfig : gmap Z Config) (a : Assignment) (sectionSizes : gmap string Z)
    (preference : option Preference) (balancingStrategy : BalancingStrategy) :
  Forall (searchEntry sections scheduleConfig) a →
  is_Some (calculateAssignmentCost a sectionSizes preference scheduleConfig
             balancingStrategy).
Proof.
  intros Ha. unfold calculateAssignmentCost. destruct preference as [p|]; [|by eexists].
  destruct (preferencePenalty_is_Some p scheduleConfig a 0) as [x ->]; [|by eexists].
  eapply Forall_impl; [exact Ha|]. intros e (config & _ & _ & Hc & _). by eexists.
Qed.

(** C10. Every subject id in an assignment returned by the search has an
    entry in the schedule configuration, so the cost function applied to a
    search result never reads a block of a missing configuration entry: it
    returns a cost. *)
Theorem cost_defined_on_search_results (studentSubjects : list Z) (studentCode : string)
    (conflictMap : gmap string (gset string)) (sections : gmap string Section)
    (scheduleConfig : gmap Z Config) (a : Assignment) :
  a ∈ findValidAssignments studentSubjects studentCode conflictMap sections scheduleConfig →
  (∀ subjectId sid, (subjectId, sid) ∈ a → is_Some (scheduleConfig !! subjectId)) ∧
  (∀ sectionSizes preference balancingStrategy,
     is_Some (calculateAssignmentCost a sectionSizes preference scheduleConfig
                balancingStrategy)).
Proof.
  intros Ha%findValidAssignments_searchEntry. split.
  - intros subjectId sid Hin. rewrite Forall_forall in Ha.
    destruct (Ha _ Hin) as (config & _ & _ & Hc & _). by eexists.
  - intros sectionSizes preference balancingStrategy.
    by eapply calculateAssignmentCost_is_Some.
Qed.

Lemma sumZ_cons (x : Z) (l : list Z) : sumZ (x :: l) = x + sumZ l.
Proof. reflexivity. Qed.

Lemma foldl_add_sumZ {A : Type} (f : A → Z) (l : list A) (acc : Z) :
  foldl (λ cost x, cost + f x) acc l = acc + sumZ (f <$> l).
Proof.
  revert acc. induction l as [|x l IH]; intros acc.
  - unfold sumZ. cbn. lia.
  - cbn [foldl]. rewrite IH, fmap_cons. unfold sumZ. cbn [foldr]. lia.
Qed.

Section cost_facts.
Context (sections : gmap string Section).
Context (scheduleConfig : gmap Z Config).
Hypothesis Hwf : sections_wf sections scheduleConfig.

Lemma chosenSections_cons (e : Z * string) (a : Assignment) (section : Section) :
  sections !! e.2 = Some section →
  chosenSections sections (e :: a) = section :: chosenSections sections a.
Proof. intros H. unfold chosenSections, values. cbn. by rewrite H. Qed.

Lemma baseCost_documented (balancingStrategy : BalancingStrategy) (a : Assignment) :
  Forall (searchEntry sections scheduleConfig) a →
  baseCost balancingStrategy (sectionSizesOf sections) a =
  sumZ ((λ section,
           occupancyWeight balancingStrategy (Z.of_nat (length (sec_students section))))
        <$> chosenSections sections a).
Proof.
  intros Ha.
  assert (baseCost balancingStrategy (sectionSizesOf sections) a =
          sumZ ((λ sid, occupancyWeight balancingStrategy
                          (default 0 (sectionSizesOf sections !! sid))) <$> values a))
    as ->.
  { unfold baseCost. destruct balancingStrategy; rewrite foldl_add_sumZ, Z.add_0_l;
      [done|].
    f_equal. apply list_fmap_ext. intros _ sid _. cbn [occupancyWeight]. lia. }
  induction Ha as [|[s sid] a (config & suffix & section & _ & _ & _ & Hsec) _ IH];
    [done|].
  cbn in Hsec. rewrite (chosenSections_cons _ _ section) by done.
  unfold values in *. rewrite !fmap_cons, !sumZ_cons, IH. f_equal.
  unfold sectionSizesOf. cbn [snd]. by rewrite lookup_fmap, Hsec.
Qed.

Lemma preferencePenalty_documented (p : Preference) (a : Assignment) (acc : Z) :
  Forall (searchEntry sections scheduleConfig) a →
  preferencePenalty p scheduleConfig a acc =
  Some (acc + sumZ ((λ section, mismatchWeight (Some p) (sec_block section))
                    <$> chosenSections sections a)).
Proof.
  intros Ha. revert acc.
  induction Ha as [|[s sid] a (config & suffix & section & Hcfg & Hsuf & Hid & Hsec) _ IH];
    intros acc.
  { cbn. f_equal. lia. }
  cbn in Hcfg, Hid, Hsec. rewrite (chosenSections_cons _ _ section) by done.
  cbn [preferencePenalty]. rewrite Hcfg. subst sid.
  destruct (sections_wf_lookup _ _ _ _ _ _ Hwf Hsuf Hcfg Hsec) as (_ & _ & Hb).
  rewrite IH. f_equal. rewrite fmap_cons, sumZ_cons.
  assert ((if endsWith (sectionId s suffix) ".1" then s1_block config else s2_block config)
          = sec_block section) as ->.
  { rewrite Hb. destruct Hsuf as [-> | ->].
    - by rewrite endsWith_sectionId_1.
    - by rewrite endsWith_sectionId_2. }
  unfold mismatchWeight, afternoonBlock.
  set (rest := sumZ _).
  destruct p; case_bool_decide; destruct (decide (sec_block section = 3));
    try done; lia.
Qed.
End cost_facts.

(** C6. The cost of an assignment returned by the search, evaluated on the
    snapshot of the section sizes, is the sum over its chosen sections of the
    occupant count ("speed") or of its square ("equitable"), plus, when the
    student has a preference, 10 for each chosen section in the afternoon
    block against a morning preference and 5 for each chosen section outside
    the afternoon block against an afternoon preference; with no preference
    the penalty is zero. *)
Theorem calculateAssignmentCost_documented (studentSubjects : list Z) (studentCode : string)
    (conflictMap : gmap string (gset string)) (sections : gmap string Section)
    (scheduleConfig : gmap Z Config) (preference : option Preference)
    (balancingStrategy : BalancingStrategy) (a : Assignment) :
  sections_wf sections scheduleConfig →
  a ∈ findValidAssignments studentSubjects studentCode conflictMap sections scheduleConfig →
  calculateAssignmentCost a (sectionSizesOf sections) preference scheduleConfig
    balancingStrategy
  = Some (documentedCost sections preference balancingStrategy a).
Proof.
  intros Hwf Ha%findValidAssignments_searchEntry.
  unfold calculateAssignmentCost, documentedCost.
  rewrite (baseCost_documented _ scheduleConfig) by done.
  destruct preference as [p|].
  - rewrite (preferencePenalty_documented sections) by done. f_equal.
  - f_equal. cbn.
    assert (sumZ ((λ _ : Section, 0) <$> chosenSections sections a) = 0) as ->; [|lia].
    induction (chosenSections sections a) as [|x l IHl]; [done|].
    by rewrite fmap_cons, sumZ_cons, IHl.
Qed.

(** ** Failure diagnoser *)

(** C2, as the code has it. The diagnoser answers SCHEDULE exactly when the
    search re-run with an empty conflict relation, capacity still enforced,
    finds no combination and no enrolled subject has both of its sections
    full. *)
Theorem diagnoseFailure_SCHEDULE_iff (allSubjects : list Subject) (studentCode : string)
    (studentSubjects : list Z) (conflictMap : gmap string (gset string))
    (sections : gmap string Section) (studentCodeToName : gmap string string)
    (scheduleConfig : gmap Z Config) :
  d_type (diagnoseFailure allSubjects studentCode studentSubjects conflictMap sections
            studentCodeToName scheduleConfig) = SCHEDULE
  ↔
  findValidAssignments studentSubjects "" ∅ sections scheduleConfig = [] ∧
  ∀ s, s ∈ studentSubjects → bothSectionsFull sections scheduleConfig s = false.
Proof.
  unfold diagnoseFailure.
  destruct (findValidAssignments studentSubjects "" ∅ sections scheduleConfig)
    as [|first others].
  - destruct (List.find _ studentSubjects) as [s|] eqn:Hfind; cbn.
    + apply find_some in Hfind as [Hin%list_elem_of_In Hfull].
      split; [done|]. intros [_ Hnone]. specialize (Hnone s Hin). congruence.
    + split; [|done]. intros _. split; [done|]. intros s Hin%list_elem_of_In.
      by apply (find_none _ _ Hfind).
  - split; [|by intros [? _]]. intros H. exfalso.
    destruct (filter _ _) as [|b bs]; [done|].
    destruct (foldl _ b bs); done.
Qed.

(** C2, as the claim words it, fails: the student below is diagnosed
    SCHEDULE because one section of each subject is full, although the search
    with only the block-uniqueness rule finds two combinations. *)
Lemma diagnoseFailure_SCHEDULE_with_block_feasible_subjects :
  d_type (diagnoseFailure Examples.subjects "X" [1; 2] ∅ Examples.sections ∅
            Examples.config) = SCHEDULE ∧
  findBlockOnlyAssignments [1; 2] Examples.sections Examples.config =
    [[(1, "1.1"); (2, "2.2")]; [(1, "1.2"); (2, "2.1")]] ∧
  (λ u, (u_studentCode u, d_type (u_diagnosis u)))
    <$> r_unassignedStudents (Examples.resultOf Examples.run) = [("X", SCHEDULE)].
Proof. split_and!; vm_compute; reflexivity. Qed.

(** ** Manual-override validation *)

Lemma string_app_ne_empty (c : Ascii.ascii) (s t : string) : String c s +:+ t ≠ "".
Proof. rewrite string_app_cons. discriminate. Qed.

Lemma blockClash_spec (sections : gmap string Section) (ids : list string)
    (used : gset Z) :
  (∀ sid, sid ∈ ids → is_Some (sections !! sid)) →
  ∃ b, blockClash sections ids used = Done b ∧
       (b = false ↔
        NoDup (selectedBlocks sections ids) ∧
        ∀ x, x ∈ selectedBlocks sections ids → x ∉ used).
Proof.
  revert used. induction ids as [|sid ids IH]; intros used Hex.
  - exists false. split; [done|]. split; [|done]. intros _. split; [constructor|].
    intros x Hx. by apply elem_of_nil in Hx.
  - destruct (Hex sid) as [section Hsec]; [by left|].
    unfold selectedBlocks. cbn. rewrite Hsec. cbn.
    fold (selectedBlocks sections ids).
    destruct (decide (sec_block section ∈ used)) as [Hin|Hout].
    + exists true. split; [done|]. split; [done|]. intros [_ Hfree].
      exfalso. apply (Hfree (sec_block section)); [by left|done].
    + destruct (IH (used ∪ {[sec_block section]})) as (b & -> & Hb).
      { intros sid' Hin. apply Hex. by right. }
      exists b. split; [done|]. rewrite Hb, NoDup_cons. split.
      * intros [Hnd Hfree]. split_and!; [|done|].
        -- intros Hin. apply Hfree in Hin. set_solver.
        -- intros x [->|Hin]%elem_of_cons; [done|]. apply Hfree in Hin. set_solver.
      * intros [[Hnotin Hnd] Hfree]. split; [done|]. intros x Hin.
        assert (x ∉ used) by (apply Hfree; by right).
        assert (x ≠ sec_block section) by congruence. set_solver.
Qed.

Lemma occupancyClash_spec (studentCode : string) (studentConflicts : gset string)
    (sections : gmap string Section) (ids : list string) :
  (∀ sid, sid ∈ ids → is_Some (sections !! sid)) →
  ∃ o, occupancyClash studentCode studentConflicts sections ids = Done o ∧
       (o = None ↔
        ∀ sid section, sid ∈ ids → sections !! sid = Some section →
          Z.of_nat (length (filter (λ s, s ≠ studentCode) (sec_students section)))
            < sec_capacity section ∧
          ∀ c, c ∈ sec_students section → c ∉ studentConflicts) ∧
       (∀ msg, o = Some msg → msg ≠ "").
Proof.
  induction ids as [|sid ids IH]; intros Hex.
  - exists None. split_and!; [done| |done]. split; [|done]. intros _ sid section Hin.
    by apply elem_of_nil in Hin.
  - destruct (Hex sid) as [section Hsec]; [by left|]. cbn. rewrite Hsec.
    case_bool_decide as Hcap.
    { eexists. split_and!; [done| |].
      - split; [done|]. intros Hall. destruct (Hall sid section); [by left|done|lia].
      - intros msg [= <-]. apply string_app_ne_empty. }
    destruct (existsb _ (sec_students section)) eqn:Hconf.
    { eexists. split_and!; [done| |].
      - split; [done|]. intros Hall. destruct (Hall sid section) as [_ Hno]; [by left|done|].
        apply existsb_exists in Hconf as (c & Hc%list_elem_of_In & Hin%bool_decide_eq_true).
        by destruct (Hno c).
      - intros msg [= <-]. apply string_app_ne_empty. }
    destruct IH as (o & -> & Ho & Hmsg).
    { intros sid' Hin. apply Hex. by right. }
    exists o. split_and!; [done| |done]. rewrite Ho. split.
    + intros Hall sid' section' [->|Hin]%elem_of_cons Hsec'.
      * assert (section' = section) as -> by congruence. split; [lia|].
        intros c Hc Hin. apply not_true_iff_false in Hconf. apply Hconf.
        apply existsb_exists. exists c. split; [by apply list_elem_of_In|].
        by apply bool_decide_eq_true.
      * by apply (Hall sid').
    + intros Hall sid' section' Hin. apply Hall. by right.
Qed.

(** C8. For a replacement full assignment (one selected section per subject
    of the student, each an existing section), the validation reports valid
    exactly when (1) no two selected sections share a block, (2) every
    selected section, not counting the student, has fewer occupants than its
    capacity, and (3) no selected section has an occupant in the student's
    conflict set; a report of invalid carries a message. *)
Theorem validate_valid_iff (studentCode : string) (selectedSectionIds : list string)
    (studentSubjectsLength : nat) (sections : gmap string Section)
    (conflictPairs : list (string * string)) :
  length selectedSectionIds = studentSubjectsLength →
  (∀ sid, sid ∈ selectedSectionIds → is_Some (sections !! sid)) →
  ∃ v,
    validate studentCode selectedSectionIds studentSubjectsLength sections conflictPairs
      = Done (Some v) ∧
    (isValid v = true ↔
     NoDup (selectedBlocks sections selectedSectionIds) ∧
     ∀ sid section,
       sid ∈ selectedSectionIds → sections !! sid = Some section →
       Z.of_nat (length (filter (λ s, s ≠ studentCode) (sec_students section)))
         < sec_capacity section ∧
       ∀ c, c ∈ sec_students section →
            c ∉ conflictsOf (buildConflictMap conflictPairs) studentCode) ∧
    (isValid v = false → message v ≠ "").
Proof.
  intros Hlen Hex. unfold validate. rewrite decide_False by (by intros ?).
  destruct (blockClash_spec sections selectedSectionIds ∅ Hex) as (b & -> & Hb).
  destruct b.
  - eexists. split_and!; [done| |done]. cbn. split; [done|].
    intros [Hnd _]. assert (true = false); [|done]. apply Hb. split; [done|].
    intros x _. apply not_elem_of_empty.
  - destruct (occupancyClash_spec studentCode
                (conflictsOf (buildConflictMap conflictPairs) studentCode)
                sections selectedSectionIds Hex) as (o & -> & Ho & Hmsg).
    destruct Hb as [Hb _]. destruct (Hb eq_refl) as [Hnd _].
    destruct o as [msg|].
    + eexists. split_and!; [done| |]; cbn.
      * split; [done|]. intros [_ Hall]. by apply Ho in Hall.
      * intros _. by apply Hmsg.
    + eexists. split_and!; [done| |done]. cbn. split; [|done]. intros _.
      split; [done|]. by apply Ho.
Qed.

(** ** Conflict index *)

Lemma conflictsOf_addConflictPair (conflictMap : gmap string (gset string))
    (x y a b : string) :
  b ∈ conflictsOf (addConflictPair conflictMap (x, y)) a ↔
  b ∈ conflictsOf conflictMap a ∨ (a = x ∧ b = y) ∨ (a = y ∧ b = x).
Proof.
  unfold conflictsOf, addConflictPair.
  set (m1 := if decide (is_Some (conflictMap !! x)) then conflictMap
             else <[x:=∅]> conflictMap).
  set (m2 := if decide (is_Some (m1 !! y)) then m1 else <[y:=∅]> m1).
  assert (∀ c, c ∈ default ∅ (m1 !! a) ↔ c ∈ default ∅ (conflictMap !! a)) as H1.
  { intros c. unfold m1. case_decide as Hx; [done|].
    destruct (decide (x = a)) as [->|Hne].
    - rewrite lookup_insert_eq. apply eq_None_not_Some in Hx. by rewrite Hx.
    - by rewrite lookup_insert_ne. }
  assert (∀ c, c ∈ default ∅ (m2 !! a) ↔ c ∈ default ∅ (conflictMap !! a)) as H2.
  { intros c. rewrite <- H1. unfold m2. case_decide as Hy; [done|].
    destruct (decide (y = a)) as [->|Hne].
    - rewrite lookup_insert_eq. apply eq_None_not_Some in Hy. by rewrite Hy.
    - by rewrite lookup_insert_ne. }
  assert (is_Some (m2 !! x)) as [sx Hsx].
  { unfold m2. case_decide.
    - unfold m1. case_decide; [done|]. rewrite lookup_insert_eq. by eexists.
    - destruct (decide (y = x)) as [->|]; [rewrite lookup_insert_eq; by eexists|].
      rewrite lookup_insert_ne by done.
      unfold m1. case_decide; [done|]. rewrite lookup_insert_eq. by eexists. }
  assert (is_Some (m2 !! y)) as [sy Hsy].
  { unfold m2. case_decide; [done|]. rewrite lookup_insert_eq. by eexists. }
  specialize (H2 b). revert H2. generalize m2 Hsx Hsy. clear. intros m Hsx Hsy H2.
  rewrite <- H2. clear H2. rewrite !lookup_alter.
  destruct (decide (y = a)) as [->|Hya], (decide (x = a)) as [->|Hxa];
    repeat (rewrite ?Hsx, ?Hsy; cbn); set_solver.
Qed.

Lemma conflictsOf_foldl (pairs : list (string * string))
    (conflictMap : gmap string (gset string)) (a b : string) :
  b ∈ conflictsOf (foldl addConflictPair conflictMap pairs) a ↔
  b ∈ conflictsOf conflictMap a ∨ (a, b) ∈ pairs ∨ (b, a) ∈ pairs.
Proof.
  revert conflictMap. induction pairs as [|[x y] pairs IH]; intros conflictMap.
  - cbn. rewrite !elem_of_nil. tauto.
  - cbn [foldl]. rewrite IH, conflictsOf_addConflictPair, !elem_of_cons.
    split; [intros [[H|[[-> ->]|[-> ->]]]|[H|H]]; auto|].
    intros [H|[[[= -> ->]|H]|[[= -> ->]|H]]]; auto.
Qed.

Lemma conflictsOf_buildConflictMap (pairs : list (string * string)) (a b : string) :
  b ∈ conflictsOf (buildConflictMap pairs) a ↔ (a, b) ∈ pairs ∨ (b, a) ∈ pairs.
Proof.
  unfold buildConflictMap. rewrite conflictsOf_foldl. unfold conflictsOf at 1.
  rewrite lookup_empty. cbn. set_solver.
Qed.

Lemma conflictsOf_buildConflictMap_sym (pairs : list (string * string)) (a b : string) :
  b ∈ conflictsOf (buildConflictMap pairs) a →
  a ∈ conflictsOf (buildConflictMap pairs) b.
Proof. rewrite !conflictsOf_buildConflictMap. tauto. Qed.

(** ** The section universe and pushes keep the sections well formed *)

Lemma addSubjectSections_wf (scheduleConfig : gmap Z Config)
    (S : gmap string Section) (subject : Subject) :
  sections_wf S scheduleConfig →
  sections_wf (addSubjectSections scheduleConfig S subject) scheduleConfig.
Proof.
  intros Hwf. unfold addSubjectSections.
  destruct (scheduleConfig !! subj_id subject) as [config|] eqn:Hcfg; [|done].
  intros sid section. rewrite !lookup_insert. repeat case_decide.
  - intros [= <-]. exists config. cbn. naive_solver.
  - intros [= <-]. exists config. cbn. naive_solver.
  - apply Hwf.
Qed.

Lemma buildSections_wf (subjectsConfig : list Subject) (scheduleConfig : gmap Z Config) :
  sections_wf (buildSections subjectsConfig scheduleConfig) scheduleConfig.
Proof.
  unfold buildSections.
  assert (sections_wf (∅ : gmap string Section) scheduleConfig) as H0.
  { intros sid section. by rewrite lookup_empty. }
  revert H0. generalize (∅ : gmap string Section).
  induction subjectsConfig as [|subject l IH]; intros S HS; [done|].
  cbn. apply IH. by apply addSubjectSections_wf.
Qed.

Lemma buildSections_empty (subjectsConfig : list Subject) (scheduleConfig : gmap Z Config)
    (sid : string) (section : Section) :
  buildSections subjectsConfig scheduleConfig !! sid = Some section →
  sec_students section = [].
Proof.
  unfold buildSections.
  assert (∀ sid section, (∅ : gmap string Section) !! sid = Some section →
                         sec_students section = []) as H0.
  { intros ??. by rewrite lookup_empty. }
  revert H0 sid section. generalize (∅ : gmap string Section).
  induction subjectsConfig as [|subject l IH]; intros S HS; [done|].
  cbn. apply IH. intros sid section. unfold addSubjectSections.
  destruct (scheduleConfig !! subj_id subject) as [config|]; [|apply HS].
  rewrite !lookup_insert. repeat case_decide; [by intros [= <-]..|apply HS].
Qed.

(** ** Loops of the run *)

Lemma forEach_state_inv {A : Type} (I : Store → Prop) (l : list A)
    (body : A → Run unit) (st : Store) :
  (∀ x st, x ∈ l → I st → I (body x st).2) →
  I st → I (forEach l body st).2.
Proof.
  revert st. induction l as [|x l IH]; intros st Hbody Hst; [done|].
  cbn. unfold bind. destruct (body x st) as [[[]|e] st'] eqn:Hx.
  - apply IH.
    + intros y st0 Hy. apply Hbody. by right.
    + change st' with (Done (), st').2. rewrite <- Hx. apply Hbody; [by left|done].
  - cbn. change st' with (@Thrown unit e, st').2. rewrite <- Hx.
    apply Hbody; [by left|done].
Qed.

Lemma forEach_same_state {A : Type} (l : list A) (body : A → Run unit) (st : Store) :
  (∀ x st, x ∈ l → (body x st).2 = st) →
  (forEach l body st).2 = st.
Proof.
  intros Hbody. apply (forEach_state_inv (λ st', st' = st)); [|done].
  intros x st0 Hx ->. by apply Hbody.
Qed.

Lemma forEach_Done_all {A : Type} (l : list A) (body : A → Run unit) (st : Store) :
  (∀ x st, x ∈ l → (body x st).2 = st) →
  (forEach l body st).1 = Done tt →
  ∀ x, x ∈ l → (body x st).1 = Done tt.
Proof.
  induction l as [|x l IH]; intros Hbody Hdone y Hy; [by apply elem_of_nil in Hy|].
  cbn in Hdone. unfold bind in Hdone.
  pose proof (Hbody x st (list_elem_of_here _ _)) as Hst.
  destruct (body x st) as [[[]|e] st'] eqn:Hx; [|done]. cbn in Hst. subst st'.
  apply elem_of_cons in Hy as [->|Hy]; [by rewrite Hx|].
  apply IH; [|done|done]. intros z st0 Hz. apply Hbody. by right.
Qed.

Lemma foldRun_state_inv {A B : Type} (I : Store → Prop) (l : list A)
    (body : B → A → Run B) (b : B) (st : Store) :
  (∀ b x st, x ∈ l → I st → I (body b x st).2) →
  I st → I (foldRun body b l st).2.
Proof.
  revert b st. induction l as [|x l IH]; intros b st Hbody Hst; [done|].
  cbn. unfold bind. destruct (body b x st) as [[b'|e] st'] eqn:Hx.
  - apply IH.
    + intros b0 y st0 Hy. apply Hbody. by right.
    + change st' with (Done b', st').2. rewrite <- Hx. apply Hbody; [by left|done].
  - cbn. change st' with (@Thrown B e, st').2. rewrite <- Hx.
    apply Hbody; [by left|done].
Qed.

(** A loop invariant that depends on the elements still to visit; when the
    loop finishes normally none is left. *)
Lemma foldRun_pending_inv {A B : Type} (I : list A → Store → Prop) (l : list A)
    (body : B → A → Run B) (b : B) (st : Store) :
  NoDup l →
  (∀ b x rest st, x ∉ rest → I (x :: rest) st → I rest (body b x st).2) →
  I l st →
  ∀ b', (foldRun body b l st).1 = Done b' → I [] (foldRun body b l st).2.
Proof.
  intros Hnd Hbody. revert b st. induction Hnd as [|x l Hx Hnd IH]; intros b st Hst b' Hdone;
    [done|].
  cbn in *. unfold bind in *. destruct (body b x st) as [[b1|e] st'] eqn:Hbx; [|done].
  apply (IH b1 st') with (b' := b'); [|done].
  change st' with (Done b1, st').2. rewrite <- Hbx. by apply Hbody.
Qed.

Lemma commit_run (studentCode : string) (bestAssignment : Assignment) (st : Store) :
  commit studentCode bestAssignment st =
  (Done tt, commitStore studentCode st (values bestAssignment)).
Proof.
  unfold commit, commitStore. generalize (values bestAssignment). intros sids.
  revert st. induction sids as [|sid sids IH]; intros st; [done|].
  cbn. unfold bind, pushStudent. by rewrite IH.
Qed.

(** ** One push, and the pushes of a commit *)

Lemma pushStore_lookup (studentCode sid sid' : string) (st : Store) :
  store_sections (pushStore studentCode sid st) !! sid' =
  if decide (sid' = sid) then pushTo studentCode <$> store_sections st !! sid
  else store_sections st !! sid'.
Proof.
  unfold pushStore. destruct (store_sections st !! sid) as [section|] eqn:Hsec; cbn.
  - rewrite lookup_insert. repeat case_decide; congruence.
  - case_decide; congruence.
Qed.

Lemma pushStore_trace (studentCode sid : string) (st : Store) :
  store_trace (pushStore studentCode sid st) = store_trace st ∨
  store_trace (pushStore studentCode sid st) =
    store_sections (pushStore studentCode sid st) :: store_trace st.
Proof.
  unfold pushStore. destruct (store_sections st !! sid); cbn; auto.
Qed.

Lemma pushedOn_nil (studentCode : string) (S : gmap string Section) :
  pushedOn studentCode [] S S.
Proof. intros sid. rewrite decide_False; [done|]. apply not_elem_of_nil. Qed.

Lemma commitStore_spec (studentCode : string) (st : Store) (sids : list string) :
  NoDup sids →
  pushedOn studentCode sids (store_sections st)
    (store_sections (commitStore studentCode st sids)) ∧
  ∃ new,
    store_trace (commitStore studentCode st sids) = new ++ store_trace st ∧
    Forall (λ T, ∃ J, J ⊆ sids ∧ pushedOn studentCode J (store_sections st) T) new.
Proof.
  induction sids as [|x l IH] using rev_ind; intros Hnd.
  - split; [apply pushedOn_nil|]. exists []. split; [done|constructor].
  - apply NoDup_app in Hnd as (Hl & Hx & _).
    destruct (IH Hl) as (Hpushed & new & Htrace & Hnew).
    assert (x ∉ l) as Hxl by (intros Hin; apply (Hx x Hin); by left).
    unfold commitStore in *. rewrite foldl_app. cbn [foldl].
    set (stk := foldl (λ st0 sid, pushStore studentCode sid st0) st l) in *.
    assert (pushedOn studentCode (l ++ [x]) (store_sections st)
              (store_sections (pushStore studentCode x stk))) as Hfinal.
    { intros sid. rewrite pushStore_lookup, !Hpushed.
      destruct (decide (sid = x)) as [->|Hne].
      - rewrite decide_False by done. rewrite decide_True; [done|].
        apply elem_of_app. right. by left.
      - destruct (decide (sid ∈ l)) as [Hin|Hout].
        + rewrite decide_True; [done|]. apply elem_of_app. by left.
        + rewrite decide_False; [done|].
          intros [?|?%list_elem_of_singleton]%elem_of_app; done. }
    split; [done|].
    assert (Forall (λ T, ∃ J, J ⊆ l ++ [x] ∧ pushedOn studentCode J (store_sections st) T)
              new) as Hnew'.
    { eapply Forall_impl; [exact Hnew|]. intros T (J & HJ & HT). exists J. split; [|done].
      intros y Hy. apply elem_of_app. left. by apply HJ. }
    destruct (pushStore_trace studentCode x stk) as [-> | ->].
    + exists new. by split.
    + exists (store_sections (pushStore studentCode x stk) :: new). split.
      * by rewrite Htrace.
      * constructor; [|done]. by exists (l ++ [x]).
Qed.

Lemma pushedOn_wf (studentCode : string) (J : list string) (S T : gmap string Section)
    (scheduleConfig : gmap Z Config) :
  sections_wf S scheduleConfig → pushedOn studentCode J S T →
  sections_wf T scheduleConfig.
Proof.
  intros Hwf Hp sid section. rewrite Hp. case_decide; [|apply Hwf].
  destruct (S !! sid) as [section0|] eqn:Hsec; [|done]. intros [= <-].
  destruct (Hwf _ _ Hsec) as (config & ?). by exists config.
Qed.

Lemma pushedOn_occupies (studentCode : string) (J : list string)
    (S T : gmap string Section) (s sid : string) :
  pushedOn studentCode J S T →
  occupies T s sid ↔
  occupies S s sid ∨ (s = studentCode ∧ sid ∈ J ∧ is_Some (S !! sid)).
Proof.
  intros Hp. unfold occupies. rewrite Hp. case_decide as HJ.
  - destruct (S !! sid) as [section0|] eqn:Hsec; cbn.
    + split.
      * intros (section & [= <-] & Hin). cbn in Hin.
        apply elem_of_app in Hin as [Hin|Hin%list_elem_of_singleton].
        -- left. by exists section0.
        -- right. by split_and!.
      * intros [(section & [= <-] & Hin)|(-> & _ & _)];
          eexists; (split; [done|]); cbn; apply elem_of_app; [by left|].
        right. by apply list_elem_of_singleton.
    + split; [by intros (? & ? & _)|]. intros [(? & ? & _)|(_ & _ & [? ?])]; done.
  - split; [by left|]. intros [?|(_ & ? & _)]; done.
Qed.

Lemma pushedOn_block (studentCode : string) (J : list string)
    (S T : gmap string Section) (sid : string) (section : Section) :
  pushedOn studentCode J S T →
  T !! sid = Some section →
  ∃ section0, S !! sid = Some section0 ∧ sec_block section0 = sec_block section ∧
              sec_capacity section0 = sec_capacity section.
Proof.
  intros Hp. rewrite Hp. case_decide; [|by eexists].
  destruct (S !! sid) as [section0|]; [|done]. intros [= <-]. by exists section0.
Qed.

Lemma pushedOn_capacity (studentCode : string) (J : list string)
    (S T : gmap string Section) :
  capacityRespected S →
  (∀ sid section, sid ∈ J → S !! sid = Some section →
     Z.of_nat (length (sec_students section)) < sec_capacity section) →
  pushedOn studentCode J S T →
  capacityRespected T.
Proof.
  intros HS Hroom Hp sid section. rewrite Hp. case_decide as HJ; [|apply HS].
  destruct (S !! sid) as [section0|] eqn:Hsec; [|done]. intros [= <-]. right.
  specialize (Hroom sid section0 HJ Hsec). cbn. rewrite length_app. cbn. lia.
Qed.

Lemma pushedOn_conflictFree (conflictMap : gmap string (gset string))
    (studentCode : string) (J : list string) (S T : gmap string Section) :
  (∀ a b, b ∈ conflictsOf conflictMap a → a ∈ conflictsOf conflictMap b) →
  conflictFree conflictMap S →
  (∀ sid section, sid ∈ J → S !! sid = Some section →
     ∀ c, c ∈ sec_students section → c ∉ conflictsOf conflictMap studentCode) →
  pushedOn studentCode J S T →
  conflictFree conflictMap T.
Proof.
  intros Hsym HS Hno Hp sid section a b. rewrite Hp. case_decide as HJ; [|apply HS].
  destruct (S !! sid) as [section0|] eqn:Hsec; [|done]. intros [= <-]. cbn.
  specialize (Hno sid section0 HJ Hsec).
  intros [Ha|Ha%list_elem_of_singleton]%elem_of_app
         [Hb|Hb%list_elem_of_singleton]%elem_of_app Hab.
  - by apply (HS sid section0).
  - subst b. intros Hc. apply Hsym in Hc. by apply (Hno a).
  - subst a. by apply Hno.
  - congruence.
Qed.

(** ** The enrolled subjects of a student *)

Lemma NoDup_set_add {A : Type} `{EqDecision A} (x : A) (l : list A) :
  NoDup l → NoDup (set_add x l).
Proof.
  intros Hl. unfold set_add. case_decide; [done|].
  apply NoDup_app. split_and!; [done| |apply NoDup_singleton].
  intros y Hy ->%list_elem_of_singleton. done.
Qed.

Lemma NoDup_resolveSubjects (subjectsConfig : list Subject) (rawSubjects : list string) :
  NoDup (resolveSubjects subjectsConfig rawSubjects).
Proof.
  unfold resolveSubjects. generalize (omap (λ name,
    subj_id <$> List.find (λ s, bool_decide (subj_name s = name)) subjectsConfig)
    rawSubjects). intros ids.
  assert (NoDup ([] : list Z)) as H0 by constructor.
  revert H0. generalize ([] : list Z). induction ids as [|id ids IH]; intros acc Hacc;
    [done|].
  cbn. apply IH. by apply NoDup_set_add.
Qed.

(** ** Feasible assignments choose distinct sections on distinct blocks *)

Lemma elem_of_chosenBlocks (S : gmap string Section) (a : Assignment) (sid : string)
    (section : Section) :
  sid ∈ values a → S !! sid = Some section → sec_block section ∈ chosenBlocks S a.
Proof.
  intros Hin Hsec. unfold chosenBlocks. apply list_elem_of_omap. exists sid.
  split; [done|]. by rewrite Hsec.
Qed.

Lemma chosenBlocks_distinct (S : gmap string Section) (a : Assignment)
    (sid1 sid2 : string) (section1 section2 : Section) :
  NoDup (chosenBlocks S a) →
  sid1 ∈ values a → sid2 ∈ values a → sid1 ≠ sid2 →
  S !! sid1 = Some section1 → S !! sid2 = Some section2 →
  sec_block section1 ≠ sec_block section2.
Proof.
  unfold chosenBlocks, values.
  induction a as [|[s sid] a IH]; intros Hnd H1 H2 Hne Hs1 Hs2;
    [by apply elem_of_nil in H1|].
  rewrite fmap_cons in H1, H2, Hnd. cbn [snd] in *. cbn [omap list_omap] in Hnd.
  fold (@omap list _ _ _ (λ sid0 : string, sec_block <$> S !! sid0) a.*2) in Hnd.
  apply elem_of_cons in H1 as [->|H1], H2 as [->|H2].
  - done.
  - rewrite Hs1 in Hnd. cbn in Hnd. apply NoDup_cons in Hnd as [Hnotin _].
    intros Heq. apply Hnotin. rewrite Heq.
    by apply (elem_of_chosenBlocks S a sid2).
  - rewrite Hs2 in Hnd. cbn in Hnd. apply NoDup_cons in Hnd as [Hnotin _].
    intros Heq. apply Hnotin. rewrite <- Heq.
    by apply (elem_of_chosenBlocks S a sid1).
  - apply IH; try done. destruct (S !! sid) as [section|]; cbn in Hnd; [|done].
    by apply NoDup_cons in Hnd as [_ ?].
Qed.

Lemma feasible_values_NoDup (studentConflicts : gset string) (S : gmap string Section)
    (a : Assignment) :
  Forall (feasibleEntry studentConflicts S) a →
  NoDup (chosenBlocks S a) → NoDup (values a).
Proof.
  intros Hall. induction Hall as [|[s sid] a (section & Hsec & _) _ IH]; intros Hnd;
    [constructor|].
  cbn in Hsec. unfold chosenBlocks, values in *. rewrite fmap_cons in *. cbn [snd] in *.
  cbn [omap list_omap] in Hnd. rewrite Hsec in Hnd. cbn in Hnd.
  apply NoDup_cons in Hnd as [Hnotin Hnd]. constructor; [|by apply IH].
  intros Hin. apply Hnotin. by apply (elem_of_chosenBlocks S a sid).
Qed.

(** ** Selection of the cheapest combination *)

Lemma selectBest_is_Some (cost : Assignment → option Z) (best : Assignment) (minCost : Z)
    (candidates : list Assignment) :
  (∀ a, a ∈ candidates → is_Some (cost a)) →
  is_Some (selectBest cost best minCost candidates).
Proof.
  revert best minCost. induction candidates as [|a l IH]; intros best minCost Hall;
    [by eexists|].
  cbn. destruct (Hall a) as [c ->]; [by left|].
  case_bool_decide; apply IH; intros a' Ha'; apply Hall; by right.
Qed.

(** The loop keeps the first candidate of least cost: everything before it
    costs strictly more, everything after it at least as much. *)
Lemma selectBest_first_min (cost : Assignment → option Z) (candidates : list Assignment)
    (before after : list Assignment) (best : Assignment) (minCost : Z)
    (best' : Assignment) (minCost' : Z) :
  cost best = Some minCost →
  (∀ a, a ∈ before → ∃ c, cost a = Some c ∧ minCost < c) →
  (∀ a, a ∈ after → ∃ c, cost a = Some c ∧ minCost ≤ c) →
  selectBest cost best minCost candidates = Some (best', minCost') →
  ∃ before' after',
    before ++ best :: after ++ candidates = before' ++ best' :: after' ∧
    cost best' = Some minCost' ∧
    (∀ a, a ∈ before' → ∃ c, cost a = Some c ∧ minCost' < c) ∧
    (∀ a, a ∈ after' → ∃ c, cost a = Some c ∧ minCost' ≤ c).
Proof.
  revert before after best minCost.
  induction candidates as [|a l IH]; intros before after best minCost Hbest Hbefore Hafter.
  - cbn. intros [= <- <-]. exists before, after. by rewrite app_nil_r.
  - cbn. destruct (cost a) as [c|] eqn:Hc; [|done]. case_bool_decide as Hlt; intros Hsel.
    + destruct (IH (before ++ best :: after) [] a c) as (b' & a' & Heq & Hrest); try done.
      * intros x [Hx|[->|Hx]%elem_of_cons]%elem_of_app.
        -- destruct (Hbefore x Hx) as (cx & ? & ?). exists cx. split; [done|lia].
        -- exists minCost. split; [done|lia].
        -- destruct (Hafter x Hx) as (cx & ? & ?). exists cx. split; [done|lia].
      * intros x Hx. by apply elem_of_nil in Hx.
      * exists b', a'. split; [|done]. rewrite <- Heq. cbn.
        by rewrite <- !app_assoc.
    + destruct (IH before (after ++ [a]) best minCost) as (b' & a' & Heq & Hrest);
        try done.
      * intros x [Hx| ->%list_elem_of_singleton]%elem_of_app; [by apply Hafter|].
        exists c. split; [done|lia].
      * exists b', a'. split; [|done]. rewrite <- Heq. by rewrite <- !app_assoc.
Qed.

(** ** One student of the main loop *)

Section student_step.
Context (enrollments : list (string * list string)).
Context (studentCodeToName : gmap string string).
Context (studentPreferences : gmap string Preference).
Context (conflictMap : gmap string (gset string)).
Context (subjectsConfig : list Subject).
Context (scheduleConfig : gmap Z Config).
Context (balancingStrategy : BalancingStrategy).

Local Abbreviation step :=
  (scheduleStudent enrollments studentCodeToName studentPreferences conflictMap
     subjectsConfig scheduleConfig balancingStrategy).
Local Abbreviation subjectsOf := (λ studentCode,
  resolveSubjects subjectsConfig (default [] (entries_get studentCode enrollments))).

(** Either the store is untouched, or a search result was committed. *)
Lemma scheduleStudent_cases (vars : LoopVars) (studentCode : string) (st : Store) :
  (step vars studentCode st).2 = st ∨
  ∃ best vars',
    best ∈ findValidAssignments (subjectsOf studentCode) studentCode conflictMap
             (store_sections st) scheduleConfig ∧
    step vars studentCode st =
      (Done vars', commitStore studentCode st (values best)).
Proof.
  unfold scheduleStudent.
  destruct (resolveSubjects subjectsConfig _) as [|s0 subs] eqn:Hsubs; [by left|].
  unfold bind, getSections.
  destruct (findValidAssignments (s0 :: subs) studentCode conflictMap
              (store_sections st) scheduleConfig) as [|first others] eqn:Hva;
    [by left|].
  destruct (calculateAssignmentCost first _ _ _ _) as [minCost|] eqn:Hfirst; [|by left].
  destruct (selectBest _ first minCost others) as [[best c]|] eqn:Hsel; [|by left].
  right. exists best. eexists. rewrite commit_run. split; [|done].
  eapply (selectBest_first_min _ others [] [] first minCost) in Hsel
    as (b' & a' & Heq & _); try done.
  - cbn in Heq. rewrite Heq. apply elem_of_app. right. by left.
  - intros x Hx. by apply elem_of_nil in Hx.
  - intros x Hx. by apply elem_of_nil in Hx.
Qed.

(** On a well-formed section map the committed assignment is feasible for
    the student and pushes the student on distinct sections. *)
Lemma scheduleStudent_step (vars : LoopVars) (studentCode : string) (st : Store) :
  sections_wf (store_sections st) scheduleConfig →
  (step vars studentCode st).2 = st ∨
  ∃ best,
    feasibleAssignment (conflictsOf conflictMap studentCode) (store_sections st)
      (subjectsOf studentCode) best ∧
    NoDup (values best) ∧
    (step vars studentCode st).2 = commitStore studentCode st (values best).
Proof.
  intros Hwf. destruct (scheduleStudent_cases vars studentCode st)
    as [?|(best & vars' & Hbest & Hrun)]; [by left|].
  right. exists best.
  rewrite findValidAssignments_enumerate in Hbest by apply NoDup_resolveSubjects.
  apply elem_of_enumerate in Hbest as [Hbest _]; [|done].
  split_and!; [done| |by rewrite Hrun].
  destruct Hbest as (_ & Hnd & Hall). by eapply feasible_values_NoDup.
Qed.
End student_step.

(** ** The capacity bound along a run *)

Lemma bind_state_inv {A B : Type} (I : Store → Prop) (m : Run A) (k : A → Run B)
    (st : Store) :
  I (m st).2 → (∀ a st', I st' → I (k a st').2) → I (bind m k st).2.
Proof.
  intros Hm Hk. unfold bind. destruct (m st) as [[a|e] st']; cbn in *; [|done].
  by apply Hk.
Qed.

Lemma commitStore_storeOk (scheduleConfig : gmap Z Config) (studentCode : string)
    (st : Store) (sids : list string) :
  storeOk scheduleConfig st →
  NoDup sids →
  (∀ sid section, sid ∈ sids → store_sections st !! sid = Some section →
     Z.of_nat (length (sec_students section)) < sec_capacity section) →
  storeOk scheduleConfig (commitStore studentCode st sids).
Proof.
  intros (Hwf & Hcap & Htrace) Hnd Hroom.
  destruct (commitStore_spec studentCode st sids Hnd) as (Hp & new & Heq & Hnew).
  unfold storeOk. rewrite Heq. split_and!.
  - by eapply pushedOn_wf.
  - by eapply pushedOn_capacity.
  - apply Forall_app. split; [|done]. eapply Forall_impl; [exact Hnew|].
    intros T (J & HJ & HT). eapply pushedOn_capacity; [done| |done].
    intros sid section Hin. apply Hroom. by apply HJ.
Qed.

Lemma placeInSection_step (studentCodeToName : gmap string string)
    (studentCode sid : string) (st : Store) :
  (placeInSection studentCodeToName studentCode sid st).2 = st ∨
  ∃ section,
    store_sections st !! sid = Some section ∧
    Z.of_nat (length (sec_students section)) < sec_capacity section ∧
    (placeInSection studentCodeToName studentCode sid st).2 =
      commitStore studentCode st [sid].
Proof.
  unfold placeInSection, bind, getSections.
  destruct (store_sections st !! sid) as [section|] eqn:Hsec; [|by left].
  case_bool_decide; [by left|]. right. exists section. split_and!; [done|lia|done].
Qed.

Lemma placePreassigned_inv (I : Store → Prop) (studentCodeToName : gmap string string)
    (entry : string * list string) (st : Store) :
  (∀ st sid section,
     sid ∈ entry.2 → I st →
     store_sections st !! sid = Some section →
     Z.of_nat (length (sec_students section)) < sec_capacity section →
     I (commitStore entry.1 st [sid])) →
  I st → I (placePreassigned studentCodeToName entry st).2.
Proof.
  destruct entry as [studentCode sectionIds]. cbn [fst snd]. intros Hpush Hst.
  unfold placePreassigned. apply forEach_state_inv; [|done].
  intros sid st0 Hsid Hst0.
  destruct (placeInSection_step studentCodeToName studentCode sid st0)
    as [Heq|(section & Hsec & Hroom & Heq)]; rewrite Heq; [done|].
  by eapply Hpush.
Qed.

Lemma placePreassigned_storeOk (scheduleConfig : gmap Z Config)
    (studentCodeToName : gmap string string) (entry : string * list string) (st : Store) :
  storeOk scheduleConfig st →
  storeOk scheduleConfig (placePreassigned studentCodeToName entry st).2.
Proof.
  apply placePreassigned_inv. intros st0 sid section _ Hok Hsec Hroom.
  apply commitStore_storeOk; [done|apply NoDup_singleton|].
  intros sid' section' ->%list_elem_of_singleton Hsec'. congruence.
Qed.

Lemma checkOccupant_state (conflictMap : gmap string (gset string))
    (studentCodeToName : gmap string string) (studentCode sid other : string) (st : Store) :
  (checkOccupant conflictMap studentCodeToName studentCode sid other st).2 = st.
Proof. unfold checkOccupant. by destruct (_ && _). Qed.

Lemma checkSection_state (conflictMap : gmap string (gset string))
    (studentCodeToName : gmap string string) (studentCode sid : string) (st : Store) :
  (checkSection conflictMap studentCodeToName studentCode sid st).2 = st.
Proof.
  unfold checkSection, bind, getSections.
  destruct (store_sections st !! sid) as [section|]; [|done].
  apply forEach_same_state. intros other st1 _. apply checkOccupant_state.
Qed.

Lemma checkPreassigned_state (conflictMap : gmap string (gset string))
    (studentCodeToName : gmap string string) (entry : string * list string) (st : Store) :
  (checkPreassigned conflictMap studentCodeToName entry st).2 = st.
Proof.
  destruct entry as [studentCode sectionIds]. unfold checkPreassigned.
  case_bool_decide; [done|]. apply forEach_same_state. intros sid st0 _.
  apply checkSection_state.
Qed.

Lemma scheduleStudent_storeOk (enrollments : list (string * list string))
    (studentCodeToName : gmap string string) (studentPreferences : gmap string Preference)
    (conflictMap : gmap string (gset string)) (subjectsConfig : list Subject)
    (scheduleConfig : gmap Z Config) (balancingStrategy : BalancingStrategy)
    (vars : LoopVars) (studentCode : string) (st : Store) :
  storeOk scheduleConfig st →
  storeOk scheduleConfig
    (scheduleStudent enrollments studentCodeToName studentPreferences conflictMap
       subjectsConfig scheduleConfig balancingStrategy vars studentCode st).2.
Proof.
  intros Hok. pose proof Hok as (Hwf & _).
  destruct (scheduleStudent_step enrollments studentCodeToName studentPreferences
              conflictMap subjectsConfig scheduleConfig balancingStrategy vars
              studentCode st Hwf) as [-> | (best & (_ & _ & Hall) & Hnd & ->)]; [done|].
  apply commitStore_storeOk; [done..|].
  intros sid section Hin Hsec. rewrite Forall_forall in Hall.
  apply list_elem_of_fmap in Hin as ([s sid'] & -> & Hin).
  destruct (Hall _ Hin) as (section' & Hsec' & _ & Hroom & _). cbn in *. congruence.
Qed.

Lemma buildSections_storeOk (subjectsConfig : list Subject) (scheduleConfig : gmap Z Config) :
  storeOk scheduleConfig (mkStore (buildSections subjectsConfig scheduleConfig) []).
Proof.
  split_and!; cbn.
  - apply buildSections_wf.
  - intros sid section Hsec. left. by eapply buildSections_empty.
  - constructor.
Qed.

Lemma scheduleStudents_storeOk
    (enrollments : list (string * list string))
    (studentCourses studentCodeToName : gmap string string)
    (studentPreferences : gmap string Preference)
    (preassignedSections : list (string * list string))
    (conflictPairs : list (string * string))
    (subjectsConfig : list Subject) (scheduleConfig : gmap Z Config)
    (balancingStrategy : BalancingStrategy) :
  storeOk scheduleConfig
    (scheduleStudents enrollments studentCourses studentCodeToName studentPreferences
       preassignedSections conflictPairs subjectsConfig scheduleConfig balancingStrategy).2.
Proof.
  unfold scheduleStudents, scheduleStudentsRun.
  apply bind_state_inv.
  { apply forEach_state_inv; [|apply buildSections_storeOk].
    intros entry st _. apply placePreassigned_storeOk. }
  intros _ st1 H1. apply bind_state_inv.
  { rewrite forEach_same_state; [done|]. intros entry st _. apply checkPreassigned_state. }
  intros _ st2 H2. apply bind_state_inv.
  { apply foldRun_state_inv; [|done]. intros vars code st _.
    apply scheduleStudent_storeOk. }
  intros vars st3 H3. by apply bind_state_inv.
Qed.

(** C4. After every push of a run of [scheduleStudents] (a preassignment
    placement or a step of a student's commit), whether the run completes or
    throws, every section that has occupants has at most [capacity] of them,
    so a section of non-negative capacity is never over capacity; the same
    holds of the section map a completed run returns. *)
Theorem capacity_never_exceeded
    (enrollments : list (string * list string))
    (studentCourses studentCodeToName : gmap string string)
    (studentPreferences : gmap string Preference)
    (preassignedSections : list (string * list string))
    (conflictPairs : list (string * string))
    (subjectsConfig : list Subject) (scheduleConfig : gmap Z Config)
    (balancingStrategy : BalancingStrategy) :
  let run :=
    scheduleStudents enrollments studentCourses studentCodeToName studentPreferences
      preassignedSections conflictPairs subjectsConfig scheduleConfig balancingStrategy in
  (∀ S sid section,
     S ∈ store_sections run.2 :: store_trace run.2 →
     S !! sid = Some section →
     (sec_students section = [] ∨
      Z.of_nat (length (sec_students section)) ≤ sec_capacity section) ∧
     (0 ≤ sec_capacity section →
      Z.of_nat (length (sec_students section)) ≤ sec_capacity section)) ∧
  (∀ r sid section,
     run.1 = Done r →
     r_sections r !! sid = Some section →
     (sec_students section = [] ∨
      Z.of_nat (length (sec_students section)) ≤ sec_capacity section) ∧
     (0 ≤ sec_capacity section →
      Z.of_nat (length (sec_students section)) ≤ sec_capacity section)).
Proof.
  intros run.
  assert (∀ section : Section,
            sec_students section = [] ∨
            Z.of_nat (length (sec_students section)) ≤ sec_capacity section →
            (sec_students section = [] ∨
             Z.of_nat (length (sec_students section)) ≤ sec_capacity section) ∧
            (0 ≤ sec_capacity section →
             Z.of_nat (length (sec_students section)) ≤ sec_capacity section)) as Hboth.
  { intros section H. split; [done|]. intros Hcap. destruct H as [-> | H]; [cbn; lia|done]. }
  pose proof (scheduleStudents_storeOk enrollments studentCourses studentCodeToName
                studentPreferences preassignedSections conflictPairs subjectsConfig
                scheduleConfig balancingStrategy) as (_ & Hcap & Htrace).
  fold run in Hcap, Htrace. split.
  - intros S sid section [->|HS]%elem_of_cons Hsec; apply Hboth.
    + by apply (Hcap sid).
    + rewrite Forall_forall in Htrace. by apply (Htrace S HS sid).
  - intros r sid section Hdone Hsec. apply Hboth. apply (Hcap sid).
    revert Hdone Hsec. unfold run, scheduleStudents, scheduleStudentsRun, bind.
    destruct (forEach preassignedSections _ _) as [[[]|?] st1]; [|done].
    destruct (forEach preassignedSections _ st1) as [[[]|?] st2]; [|done].
    destruct (foldRun _ _ _ st2) as [[vars|?] st3]; [|done].
    cbn. by intros [= <-].
Qed.

(** ** Conflicts along a run *)

Lemma commitStore_occupies (studentCode : string) (st : Store) (sids : list string)
    (s sid : string) :
  NoDup sids →
  occupies (store_sections (commitStore studentCode st sids)) s sid ↔
  occupies (store_sections st) s sid ∨
  (s = studentCode ∧ sid ∈ sids ∧ is_Some (store_sections st !! sid)).
Proof.
  intros Hnd. destruct (commitStore_spec studentCode st sids Hnd) as [Hp _].
  by apply pushedOn_occupies.
Qed.

Lemma placePreassigned_occupantsFrom (entries : list (string * list string))
    (studentCodeToName : gmap string string) (entry : string * list string) (st : Store) :
  entry ∈ entries →
  occupantsFrom entries (store_sections st) →
  occupantsFrom entries (store_sections (placePreassigned studentCodeToName entry st).2).
Proof.
  intros Hentry.
  apply (placePreassigned_inv (λ st, occupantsFrom entries (store_sections st))).
  intros st0 sid section Hsid Hocc Hsec _ s sid'.
  rewrite commitStore_occupies by apply NoDup_singleton.
  intros [H|(-> & ->%list_elem_of_singleton & _)]; [by apply Hocc|].
  exists entry.2. split; [by destruct entry|done].
Qed.

Lemma checkPreassigned_Done (conflictMap : gmap string (gset string))
    (studentCodeToName : gmap string string) (studentCode : string)
    (sectionIds : list string) (st : Store) :
  (checkPreassigned conflictMap studentCodeToName (studentCode, sectionIds) st).1
    = Done tt →
  ∀ sid section other,
    sid ∈ sectionIds → store_sections st !! sid = Some section →
    other ∈ sec_students section → studentCode ≠ other →
    other ∉ conflictsOf conflictMap studentCode.
Proof.
  unfold checkPreassigned. case_bool_decide as Hsz.
  { intros _ sid section other _ _ _ _. apply size_empty_inv in Hsz. set_solver. }
  intros Hdone sid section other Hsid Hsec Hother Hne Hin.
  pose proof (forEach_Done_all _ _ st
                (λ x st0 _, checkSection_state conflictMap studentCodeToName
                              studentCode x st0) Hdone sid Hsid) as Hs.
  unfold checkSection, bind, getSections in Hs. rewrite Hsec in Hs.
  pose proof (forEach_Done_all _ _ st
                (λ x st0 _, checkOccupant_state conflictMap studentCodeToName
                              studentCode sid x st0) Hs other Hother) as Ho.
  unfold checkOccupant in Ho.
  rewrite bool_decide_eq_true_2, bool_decide_eq_true_2 in Ho by done. done.
Qed.

(** After the two preassignment phases have completed. *)
Lemma preassigned_conflictFree (conflictMap : gmap string (gset string))
    (studentCodeToName : gmap string string)
    (preassignedSections : list (string * list string)) (st : Store) :
  occupantsFrom preassignedSections (store_sections st) →
  (forEach preassignedSections (checkPreassigned conflictMap studentCodeToName) st).1
    = Done tt →
  conflictFree conflictMap (store_sections st).
Proof.
  intros Hocc Hdone sid section a b Hsec Ha Hb Hab.
  destruct (Hocc a sid) as (ids & Hentry & Hsid); [by exists section|].
  pose proof (forEach_Done_all _ _ st
                (λ x st0 _, checkPreassigned_state conflictMap studentCodeToName x st0)
                Hdone _ Hentry) as Hcheck.
  by eapply checkPreassigned_Done.
Qed.

Lemma scheduleStudent_conflictFree (enrollments : list (string * list string))
    (studentCodeToName : gmap string string) (studentPreferences : gmap string Preference)
    (conflictMap : gmap string (gset string)) (subjectsConfig : list Subject)
    (scheduleConfig : gmap Z Config) (balancingStrategy : BalancingStrategy)
    (vars : LoopVars) (studentCode : string) (st : Store) :
  (∀ a b, b ∈ conflictsOf conflictMap a → a ∈ conflictsOf conflictMap b) →
  storeOk scheduleConfig st ∧ conflictFree conflictMap (store_sections st) →
  let st' := (scheduleStudent enrollments studentCodeToName studentPreferences conflictMap
                subjectsConfig scheduleConfig balancingStrategy vars studentCode st).2 in
  storeOk scheduleConfig st' ∧ conflictFree conflictMap (store_sections st').
Proof.
  intros Hsym [Hok Hfree]. cbn. split; [by apply scheduleStudent_storeOk|].
  pose proof Hok as (Hwf & _).
  destruct (scheduleStudent_step enrollments studentCodeToName studentPreferences
              conflictMap subjectsConfig scheduleConfig balancingStrategy vars
              studentCode st Hwf) as [-> | (best & (_ & _ & Hall) & Hnd & ->)]; [done|].
  destruct (commitStore_spec studentCode st (values best) Hnd) as [Hp _].
  eapply pushedOn_conflictFree; [done|done| |done].
  intros sid section Hin Hsec. rewrite Forall_forall in Hall.
  apply list_elem_of_fmap in Hin as ([s sid'] & -> & Hin).
  destruct (Hall _ Hin) as (section' & Hsec' & _ & _ & Hno). cbn in *.
  by assert (section' = section) as <- by congruence.
Qed.

(** What a completed run went through. *)
Lemma scheduleStudents_Done
    (enrollments : list (string * list string))
    (studentCourses studentCodeToName : gmap string string)
    (studentPreferences : gmap string Preference)
    (preassignedSections : list (string * list string))
    (conflictPairs : list (string * string))
    (subjectsConfig : list Subject) (scheduleConfig : gmap Z Config)
    (balancingStrategy : BalancingStrategy) (r : ScheduleResult) (st : Store) :
  scheduleStudents enrollments studentCourses studentCodeToName studentPreferences
    preassignedSections conflictPairs subjectsConfig scheduleConfig balancingStrategy
    = (Done r, st) →
  let st0 := mkStore (buildSections subjectsConfig scheduleConfig) [] in
  let conflictMap := buildConflictMap conflictPairs in
  ∃ st1 vars,
    forEach preassignedSections (placePreassigned studentCodeToName) st0
      = (Done tt, st1) ∧
    forEach preassignedSections (checkPreassigned conflictMap studentCodeToName) st1
      = (Done tt, st1) ∧
    foldRun (scheduleStudent enrollments studentCodeToName studentPreferences
               conflictMap subjectsConfig scheduleConfig balancingStrategy)
            (mkLoopVars [] 0) (studentsToSchedule enrollments preassignedSections) st1
      = (Done vars, st) ∧
    r = assemble enrollments studentCourses studentCodeToName (store_sections st) vars.
Proof.
  unfold scheduleStudents, scheduleStudentsRun, bind, getSections, ret. cbn zeta.
  destruct (forEach preassignedSections (placePreassigned _) _) as [[[]|?] st1] eqn:H1;
    [|done].
  destruct (forEach preassignedSections (checkPreassigned _ _) st1) as [[[]|?] st2] eqn:H2;
    [|done].
  assert (st2 = st1) as ->.
  { change st2 with (Done (), st2).2. rewrite <- H2. apply forEach_same_state.
    intros entry st' _. apply checkPreassigned_state. }
  destruct (foldRun _ _ _ st1) as [[vars|?] st3] eqn:H3; [|done].
  intros [= <- <-]. by exists st1, vars.
Qed.

(** C5. At the end of a completed run, no section holds both students of a
    conflict pair of two different students. *)
Theorem conflicting_pairs_separated
    (enrollments : list (string * list string))
    (studentCourses studentCodeToName : gmap string string)
    (studentPreferences : gmap string Preference)
    (preassignedSections : list (string * list string))
    (conflictPairs : list (string * string))
    (subjectsConfig : list Subject) (scheduleConfig : gmap Z Config)
    (balancingStrategy : BalancingStrategy) (r : ScheduleResult) (st : Store)
    (a b sid : string) (section : Section) :
  scheduleStudents enrollments studentCourses studentCodeToName studentPreferences
    preassignedSections conflictPairs subjectsConfig scheduleConfig balancingStrategy
    = (Done r, st) →
  (a, b) ∈ conflictPairs →
  a ≠ b →
  r_sections r !! sid = Some section →
  ¬ (a ∈ sec_students section ∧ b ∈ sec_students section).
Proof.
  intros (st1 & vars & H1 & H2 & H3 & ->)%scheduleStudents_Done Hpair Hab Hsec [Ha Hb].
  cbn in Hsec.
  set (conflictMap := buildConflictMap conflictPairs) in *.
  assert (storeOk scheduleConfig st1 ∧ occupantsFrom preassignedSections (store_sections st1))
    as [Hok1 Hocc1].
  { change st1 with (Done (), st1).2. rewrite <- H1.
    apply (forEach_state_inv
             (λ st, storeOk scheduleConfig st ∧
                    occupantsFrom preassignedSections (store_sections st))).
    - intros entry st' Hentry [??]. split.
      + by apply placePreassigned_storeOk.
      + by apply placePreassigned_occupantsFrom.
    - split; [apply buildSections_storeOk|].
      intros s sid' (section' & Hsec' & Hin). cbn in Hsec'.
      apply buildSections_empty in Hsec'. rewrite Hsec' in Hin.
      by apply elem_of_nil in Hin. }
  assert (conflictFree conflictMap (store_sections st1)) as Hfree1.
  { eapply preassigned_conflictFree; [done|]. by rewrite H2. }
  assert (storeOk scheduleConfig st ∧ conflictFree conflictMap (store_sections st))
    as [_ Hfree].
  { change st with (Done vars, st).2. rewrite <- H3.
    apply (foldRun_state_inv
             (λ st, storeOk scheduleConfig st ∧
                    conflictFree conflictMap (store_sections st))); [|done].
    intros vars' code st' _. apply scheduleStudent_conflictFree.
    intros x y. apply conflictsOf_buildConflictMap_sym. }
  apply (Hfree sid section a b); try done.
  apply conflictsOf_buildConflictMap. by left.
Qed.

(** ** Blocks of a student's sections along a run *)

Lemma sameBlocks_pushedOn (studentCode : string) (J : list string)
    (S0 S T : gmap string Section) :
  sameBlocks S0 S → pushedOn studentCode J S T → sameBlocks S0 T.
Proof.
  intros HS Hp sid section Hsec.
  destruct (pushedOn_block _ _ _ _ _ _ Hp Hsec) as (section1 & Hsec1 & Hb & _).
  destruct (HS _ _ Hsec1) as (section0 & Hsec0 & Hb0). exists section0.
  split; [done|congruence].
Qed.

Lemma placePreassigned_sameBlocks (S0 : gmap string Section)
    (studentCodeToName : gmap string string) (entry : string * list string) (st : Store) :
  sameBlocks S0 (store_sections st) →
  sameBlocks S0 (store_sections (placePreassigned studentCodeToName entry st).2).
Proof.
  apply (placePreassigned_inv (λ st, sameBlocks S0 (store_sections st))).
  intros st0 sid section _ Hsame _ _.
  destruct (commitStore_spec entry.1 st0 [sid] (NoDup_singleton _)) as [Hp _].
  by eapply sameBlocks_pushedOn.
Qed.

Lemma scheduleStudent_pendingInv (enrollments : list (string * list string))
    (studentCodeToName : gmap string string) (studentPreferences : gmap string Preference)
    (conflictMap : gmap string (gset string)) (subjectsConfig : list Subject)
    (scheduleConfig : gmap Z Config) (balancingStrategy : BalancingStrategy)
    (preassignedSections : list (string * list string)) (S0 : gmap string Section)
    (vars : LoopVars) (x : string) (rest : list string) (st : Store) :
  x ∉ rest →
  pendingInv scheduleConfig preassignedSections S0 (x :: rest) st →
  pendingInv scheduleConfig preassignedSections S0 rest
    (scheduleStudent enrollments studentCodeToName studentPreferences conflictMap
       subjectsConfig scheduleConfig balancingStrategy vars x st).2.
Proof.
  intros Hx (Hwf & Hsame & Hnotpre & Hfree & Hdist & Hpre).
  destruct (scheduleStudent_step enrollments studentCodeToName studentPreferences
              conflictMap subjectsConfig scheduleConfig balancingStrategy vars
              x st Hwf) as [-> | (best & (_ & Hblocks & _) & Hnd & ->)].
  { split_and!; try done.
    - intros s Hs. apply Hnotpre. by right.
    - intros s sid Hs. apply Hfree. by right. }
  destruct (commitStore_spec x st (values best) Hnd) as [Hp _].
  unfold pendingInv.
  set (S := store_sections st) in *.
  set (T := store_sections (commitStore x st (values best))) in *.
  assert (x ∉ preassignedSections.*1) as Hxpre by (apply Hnotpre; by left).
  assert (∀ sid, ¬ occupies S x sid) as Hxfree by (intros sid; apply Hfree; by left).
  split_and!.
  - by eapply pushedOn_wf.
  - by eapply sameBlocks_pushedOn.
  - intros s Hs. apply Hnotpre. by right.
  - intros s sid Hs. rewrite (pushedOn_occupies _ _ _ _ _ _ Hp).
    intros [Hocc|(-> & _)]; [|done]. revert Hocc. apply Hfree. by right.
  - intros s Hs sid1 sid2 section1 section2 Hne Hsec1 Hsec2 Hin1 Hin2.
    destruct (pushedOn_block _ _ _ _ _ _ Hp Hsec1) as (sec1 & HS1 & <- & _).
    destruct (pushedOn_block _ _ _ _ _ _ Hp Hsec2) as (sec2 & HS2 & <- & _).
    assert (occupies T s sid1) as Ho1 by (by exists section1).
    assert (occupies T s sid2) as Ho2 by (by exists section2).
    apply (pushedOn_occupies _ _ _ _ _ _ Hp) in Ho1, Ho2.
    destruct Ho1 as [(sec1' & HS1' & Hs1)|(-> & Hv1 & _)].
    + destruct Ho2 as [(sec2' & HS2' & Hs2)|(-> & _)];
        [|by destruct (Hxfree sid1); exists sec1'].
      assert (sec1' = sec1) as -> by congruence.
      assert (sec2' = sec2) as -> by congruence.
      by apply (Hdist s Hs sid1 sid2).
    + destruct Ho2 as [(sec2' & HS2' & Hs2)|(_ & Hv2 & _)];
        [by destruct (Hxfree sid2); exists sec2'|].
      by apply (chosenBlocks_distinct S best sid1 sid2).
  - intros s sid Hs. rewrite (pushedOn_occupies _ _ _ _ _ _ Hp).
    intros [Hocc|(-> & _)]; [|done]. by apply Hpre.
Qed.

(** C3, as the code has it. At the end of a completed run, the sections that
    hold a student placed by the search and commit phase lie on pairwise
    different blocks; [scheduleStudents] does not check the fixed sections of
    a preassigned student against each other, and the sections that hold such
    a student lie on different blocks whenever the student's fixed sections
    do. *)
Theorem committed_sections_on_distinct_blocks
    (enrollments : list (string * list string))
    (studentCourses studentCodeToName : gmap string string)
    (studentPreferences : gmap string Preference)
    (preassignedSections : list (string * list string))
    (conflictPairs : list (string * string))
    (subjectsConfig : list Subject) (scheduleConfig : gmap Z Config)
    (balancingStrategy : BalancingStrategy) (r : ScheduleResult) (st : Store)
    (s : string) :
  NoDup enrollments.*1 →
  scheduleStudents enrollments studentCourses studentCodeToName studentPreferences
    preassignedSections conflictPairs subjectsConfig scheduleConfig balancingStrategy
    = (Done r, st) →
  s ∉ preassignedSections.*1 ∨
  fixedBlocksDistinct (buildSections subjectsConfig scheduleConfig) preassignedSections s →
  blocksDistinct (r_sections r) s.
Proof.
  intros Hkeys (st1 & vars & H1 & H2 & H3 & ->)%scheduleStudents_Done Hs. cbn.
  set (S0 := buildSections subjectsConfig scheduleConfig) in *.
  assert (storeOk scheduleConfig st1 ∧
          occupantsFrom preassignedSections (store_sections st1) ∧
          sameBlocks S0 (store_sections st1)) as (Hok1 & Hocc1 & Hsame1).
  { change st1 with (Done (), st1).2. rewrite <- H1.
    apply (forEach_state_inv
             (λ st, storeOk scheduleConfig st ∧
                    occupantsFrom preassignedSections (store_sections st) ∧
                    sameBlocks S0 (store_sections st))).
    - intros entry st' Hentry (? & ? & ?). split_and!.
      + by apply placePreassigned_storeOk.
      + by apply placePreassigned_occupantsFrom.
      + by apply placePreassigned_sameBlocks.
    - split_and!; [apply buildSections_storeOk| |].
      + intros c sid' (section' & Hsec' & Hin). cbn in Hsec'.
        apply buildSections_empty in Hsec'. rewrite Hsec' in Hin.
        by apply elem_of_nil in Hin.
      + intros sid section Hsec. by exists section. }
  assert (∀ c sid, occupies (store_sections st1) c sid → c ∈ preassignedSections.*1)
    as Hocckeys.
  { intros c sid (ids & Hentry & _)%Hocc1. apply list_elem_of_fmap. by exists (c, ids). }
  assert (pendingInv scheduleConfig preassignedSections S0 [] st)
    as (_ & Hsame & _ & _ & Hdist & Hpre).
  { change st with (Done vars, st).2. rewrite <- H3.
    eapply (foldRun_pending_inv
              (pendingInv scheduleConfig preassignedSections S0)); [| | |by rewrite H3].
    - unfold studentsToSchedule. by apply NoDup_filter.
    - intros vars' x rest st'. apply scheduleStudent_pendingInv.
    - destruct Hok1 as (Hwf1 & _). split_and!; try done.
      + intros c [Hc _]%list_elem_of_filter. by rewrite elem_of_list_to_set in Hc.
      + intros c sid [Hc _]%list_elem_of_filter Hocc.
        rewrite elem_of_list_to_set in Hc. by apply Hc, (Hocckeys c sid).
      + intros c Hc sid1 sid2 section1 section2 _ Hsec1 _ Hin1 _.
        destruct Hc. apply (Hocckeys c sid1). by exists section1.
      + intros c sid _. apply Hocc1. }
  destruct (decide (s ∈ preassignedSections.*1)) as [Hin|Hout]; [|by apply Hdist].
  destruct Hs as [?|Hfixed]; [done|].
  intros sid1 sid2 section1 section2 Hne Hsec1 Hsec2 Hin1 Hin2.
  destruct (Hpre s sid1 Hin) as (ids1 & He1 & Hi1); [by exists section1|].
  destruct (Hpre s sid2 Hin) as (ids2 & He2 & Hi2); [by exists section2|].
  destruct (Hsame _ _ Hsec1) as (sec1 & HS1 & <-).
  destruct (Hsame _ _ Hsec2) as (sec2 & HS2 & <-).
  by apply (Hfixed ids1 ids2 sid1 sid2).
Qed.

(** C3, as the claim words it, fails for preassigned students: the run below
    completes and leaves P in sections 1.1 and 2.1, both on block 1. *)
Lemma preassigned_student_on_one_block_twice :
  ∃ r section1 section2,
    Examples.clashingRun.1 = Done r ∧
    r_sections r !! "1.1" = Some section1 ∧
    r_sections r !! "2.1" = Some section2 ∧
    "P" ∈ sec_students section1 ∧ "P" ∈ sec_students section2 ∧
    sec_block section1 = 1 ∧ sec_block section2 = 1 ∧
    ¬ blocksDistinct (r_sections r) "P".
Proof.
  assert (∃ r, Examples.clashingRun.1 = Done r ∧
               r_sections r !! "1.1" = Some (mkSection "1.1" 1 "A" 1 ["P"] 1) ∧
               r_sections r !! "2.1" = Some (mkSection "2.1" 2 "B" 1 ["P"] 1))
    as (r & Hr & H1 & H2).
  { vm_compute. eexists. split_and!; reflexivity. }
  exists r, (mkSection "1.1" 1 "A" 1 ["P"] 1), (mkSection "2.1" 2 "B" 1 ["P"] 1).
  split_and!; try done; cbn; try (by left).
  intros Hd. by apply (Hd "1.1" "2.1" _ _ ltac:(done) H1 H2); cbn; try (by left).
Qed.

(** ** Enumeration order *)

Section enumeration_order.
Context (studentConflicts : gset string).
Context (sections : gmap string Section).
Context (scheduleConfig : gmap Z Config).

Local Abbreviation enumerate_ := (enumerate studentConflicts sections scheduleConfig).

Lemma enumerate_keys (rest : list Z) (used : gset Z) (a : Assignment) :
  a ∈ enumerate_ rest used → a.*1 = rest.
Proof.
  revert used a. induction rest as [|s rest' IH]; intros used a.
  - cbn. by intros ->%list_elem_of_singleton.
  - cbn [enumerate]. destruct (scheduleConfig !! s) as [config|];
      [|by intros ?%elem_of_nil].
    rewrite elem_of_app, !elem_of_slot_branch.
    intros [(a' & -> & _ & Hin)|(a' & -> & _ & Hin)]; cbn; f_equal; by eapply IH.
Qed.

(** Slot 1 before slot 2, subjects in list order. *)
Lemma enumerate_sorted (rest : list Z) (used : gset Z) :
  StronglySorted lexBefore (enumerate_ rest used).
Proof.
  revert used. induction rest as [|s rest' IH]; intros used.
  - cbn. repeat constructor.
  - cbn [enumerate]. destruct (scheduleConfig !! s) as [config|];
      [|constructor].
    apply StronglySorted_app_2.
    + intros a1 a2 (a1' & -> & _)%elem_of_slot_branch (a2' & -> & _)%elem_of_slot_branch.
      constructor.
    + destruct (slotOpen _ _ _ _ _ _); [|constructor].
      eapply StronglySorted_fmap; [|apply IH]. intros x y Hxy. by constructor.
    + destruct (slotOpen _ _ _ _ _ _); [|constructor].
      eapply StronglySorted_fmap; [|apply IH]. intros x y Hxy. by constructor.
Qed.
End enumeration_order.

Lemma searchEntry_values_NoDup (sections : gmap string Section)
    (scheduleConfig : gmap Z Config) (a : Assignment) :
  Forall (searchEntry sections scheduleConfig) a →
  NoDup a.*1 → NoDup (values a).
Proof.
  unfold values.
  induction 1 as [|[s sid] a (config & suffix & section & _ & Hsuf & Hid & _) Hall IH];
    intros Hnd; [constructor|].
  rewrite !fmap_cons in *. cbn [fst snd] in *.
  apply NoDup_cons in Hnd as [Hs Hnd]. constructor; [|by apply IH].
  intros ([s' sid'] & Heq & Hin)%list_elem_of_fmap. cbn in Heq. subst sid'.
  rewrite Forall_forall in Hall.
  destruct (Hall _ Hin) as (config' & suffix' & section' & _ & Hsuf' & Hid' & _).
  cbn in Hid'. rewrite Hid in Hid'. apply sectionId_inj in Hid' as [Heq _].
  - apply Hs. apply list_elem_of_fmap. exists (s', sid). by rewrite Heq.
  - destruct Hsuf as [-> | ->], Hsuf' as [-> | ->]; done.
Qed.

(** C7. For a student with at least one feasible combination, the loop body
    finishes normally and pushes the student on exactly the sections of one
    combination of the search result: the first one of least cost, every
    cost being taken against the section sizes before the commit. The search
    result itself is in enumeration order, slot 1 before slot 2 with the
    subjects in list order. *)
Theorem commits_first_cheapest_combination
    (enrollments : list (string * list string))
    (studentCodeToName : gmap string string) (studentPreferences : gmap string Preference)
    (conflictMap : gmap string (gset string)) (subjectsConfig : list Subject)
    (scheduleConfig : gmap Z Config) (balancingStrategy : BalancingStrategy)
    (vars : LoopVars) (studentCode : string) (st : Store) :
  let S := store_sections st in
  let studentSubjects :=
    resolveSubjects subjectsConfig (default [] (entries_get studentCode enrollments)) in
  let validAssignments :=
    findValidAssignments studentSubjects studentCode conflictMap S scheduleConfig in
  let cost := λ a, calculateAssignmentCost a (sectionSizesOf S)
                     (studentPreferences !! studentCode) scheduleConfig
                     balancingStrategy in
  let outcome :=
    scheduleStudent enrollments studentCodeToName studentPreferences conflictMap
      subjectsConfig scheduleConfig balancingStrategy vars studentCode st in
  validAssignments ≠ [] →
  ∃ bestAssignment minCost before after,
    validAssignments = before ++ bestAssignment :: after ∧
    cost bestAssignment = Some minCost ∧
    (∀ a, a ∈ before → ∃ c, cost a = Some c ∧ minCost < c) ∧
    (∀ a, a ∈ after → ∃ c, cost a = Some c ∧ minCost ≤ c) ∧
    StronglySorted lexBefore validAssignments ∧
    (∃ vars', outcome.1 = Done vars') ∧
    pushedOn studentCode (values bestAssignment) S (store_sections outcome.2).
Proof.
  intros S studentSubjects validAssignments cost outcome Hne.
  assert (NoDup studentSubjects) as Hnd by apply NoDup_resolveSubjects.
  assert (∀ a, a ∈ validAssignments → is_Some (cost a)) as Hcost.
  { intros a Ha%findValidAssignments_searchEntry.
    by eapply calculateAssignmentCost_is_Some. }
  assert (StronglySorted lexBefore validAssignments) as Hsorted.
  { unfold validAssignments. rewrite findValidAssignments_enumerate by done.
    apply enumerate_sorted. }
  assert (∀ a, a ∈ validAssignments → NoDup (values a)) as Hvalues.
  { intros a Ha. eapply searchEntry_values_NoDup.
    - by eapply findValidAssignments_searchEntry.
    - unfold validAssignments in Ha. rewrite findValidAssignments_enumerate in Ha by done.
      apply enumerate_keys in Ha. by rewrite Ha. }
  assert (outcome =
          scheduleStudent enrollments studentCodeToName studentPreferences conflictMap
            subjectsConfig scheduleConfig balancingStrategy vars studentCode st)
    as Houtcome by done.
  assert (validAssignments =
          findValidAssignments studentSubjects studentCode conflictMap S scheduleConfig)
    as Hva by done.
  assert (studentSubjects =
          resolveSubjects subjectsConfig (default [] (entries_get studentCode enrollments)))
    as Hsubs by done.
  clearbody outcome validAssignments studentSubjects.
  subst outcome. unfold scheduleStudent. rewrite <- Hsubs.
  destruct studentSubjects as [|s0 subs].
  { assert (validAssignments = [[]]) as -> by (by rewrite Hva).
    exists [], 0, [], []. split_and!.
    - done.
    - unfold cost, calculateAssignmentCost.
      by destruct (studentPreferences !! studentCode), balancingStrategy.
    - intros a Ha. by apply elem_of_nil in Ha.
    - intros a Ha. by apply elem_of_nil in Ha.
    - done.
    - by eexists.
    - apply pushedOn_nil. }
  unfold bind, getSections. fold S. rewrite <- Hva.
  destruct validAssignments as [|first others]; [done|].
  change (calculateAssignmentCost first _ _ _ _) with (cost first).
  destruct (Hcost first) as [c0 Hc0]; [by left|]. rewrite Hc0.
  change (selectBest _ first c0 others) with (selectBest cost first c0 others).
  destruct (selectBest_is_Some cost first c0 others) as [[best minCost] Hsel].
  { intros a Ha. apply Hcost. by right. }
  rewrite Hsel, commit_run.
  destruct (selectBest_first_min cost others [] [] first c0 best minCost)
    as (before & after & Heq & Hbest & Hbefore & Hafter); try done.
  { intros a Ha. by apply elem_of_nil in Ha. }
  { intros a Ha. by apply elem_of_nil in Ha. }
  cbn in Heq. exists best, minCost, before, after. split_and!; try done.
  - by eexists.
  - cbn. apply commitStore_spec. apply Hvalues. rewrite Heq.
    apply elem_of_app. right. by left.
Qed.

(** ** Result assembly *)

Lemma elem_of_foldl_add (l : list string) (X : gset string) (s : string) :
  s ∈ foldl (λ set c, set ∪ {[c]}) X l ↔ s ∈ X ∨ s ∈ l.
Proof.
  revert X. induction l as [|c l IH]; intros X; cbn.
  - rewrite elem_of_nil. tauto.
  - rewrite IH, elem_of_cons. set_solver.
Qed.

Lemma elem_of_foldl_students (l : list (string * Section)) (X : gset string) (s : string) :
  s ∈ foldl (λ set entry, foldl (λ set c, set ∪ {[c]}) set (sec_students entry.2)) X l ↔
  s ∈ X ∨ ∃ entry, entry ∈ l ∧ s ∈ sec_students entry.2.
Proof.
  revert X. induction l as [|e l IH]; intros X; cbn [foldl].
  - split; [by left|]. intros [?|(? & ?%elem_of_nil & _)]; done.
  - rewrite IH, elem_of_foldl_add. split.
    + intros [[?|?]|(e' & ? & ?)]; [by left|right; exists e|right; exists e'];
        (split; [|done]); by constructor.
    + intros [?|(e' & [->|?]%elem_of_cons & ?)]; [by left; left|by left; right|].
      right. by exists e'.
Qed.

Lemma elem_of_assignedStudentsSet (S : gmap string Section) (s : string) :
  s ∈ assignedStudentsSet S ↔
  ∃ sid section, S !! sid = Some section ∧ s ∈ sec_students section.
Proof.
  unfold assignedStudentsSet. rewrite elem_of_foldl_students. split.
  - intros [?%not_elem_of_empty|([sid section] & Hin%elem_of_map_to_list & Hs)]; [done|].
    by exists sid, section.
  - intros (sid & section & Hsec & Hs). right. exists (sid, section).
    split; [by apply elem_of_map_to_list|done].
Qed.

(** C9. In the result of a completed run, a student who occupies a section
    and whose course is not in [studentCourses] is one of the students
    counted by [stats.assignedStudents], the number of distinct occupants,
    and has no entry in [studentAssignments]. *)
Theorem unknown_course_counted_not_recorded
    (enrollments : list (string * list string))
    (studentCourses studentCodeToName : gmap string string)
    (studentPreferences : gmap string Preference)
    (preassignedSections : list (string * list string))
    (conflictPairs : list (string * string))
    (subjectsConfig : list Subject) (scheduleConfig : gmap Z Config)
    (balancingStrategy : BalancingStrategy) (r : ScheduleResult) (st : Store)
    (s sid : string) (section : Section) :
  scheduleStudents enrollments studentCourses studentCodeToName studentPreferences
    preassignedSections conflictPairs subjectsConfig scheduleConfig balancingStrategy
    = (Done r, st) →
  r_sections r !! sid = Some section →
  s ∈ sec_students section →
  studentCourses !! s = None →
  (∃ occupants : gset string,
     (∀ c, c ∈ occupants ↔
           ∃ sid' section', r_sections r !! sid' = Some section' ∧
                            c ∈ sec_students section') ∧
     s ∈ occupants ∧
     assignedStudents (r_stats r) = size occupants ∧
     assignedStudents (r_stats r) = S (size (occupants ∖ {[s]}))) ∧
  r_studentAssignments r !! s = None.
Proof.
  intros (st1 & vars & _ & _ & _ & ->)%scheduleStudents_Done Hsec Hs Hcourse.
  cbn in *. split.
  - exists (assignedStudentsSet (store_sections st)).
    assert (s ∈ assignedStudentsSet (store_sections st)) as Hin.
    { apply elem_of_assignedStudentsSet. by exists sid, section. }
    split_and!; [apply elem_of_assignedStudentsSet|done|done|].
    rewrite size_difference by set_solver. rewrite size_singleton.
    assert (size (assignedStudentsSet (store_sections st)) ≠ 0)%nat; [|lia].
    apply size_non_empty_iff. set_solver.
  - unfold buildStudentAssignments. rewrite map_lookup_imap.
    destruct (studentToSectionsMap (store_sections st) !! s); cbn; [|done].
    by rewrite Hcourse.
Qed.

(** * The theorems at work on the worked configurations *)

(** The subject list of the worked student has no repetition. *)
Lemma NoDup_1_2 : NoDup [1; 2].
Proof. apply (bool_decide_unpack (NoDup [1; 2])). vm_compute. exact I. Qed.

(** C1 on the empty section universe of the second configuration. *)
Lemma findValidAssignments_sound_exhaustive_witness :
  NoDup [1; 2] ∧
  sections_wf (buildSections Examples.wideSubjects Examples.wideConfig) Examples.wideConfig ∧
  (NoDup (findValidAssignments [1; 2] "X" ∅
            (buildSections Examples.wideSubjects Examples.wideConfig)
            Examples.wideConfig) ∧
   ∀ a : Assignment,
     a ∈ findValidAssignments [1; 2] "X" ∅
           (buildSections Examples.wideSubjects Examples.wideConfig)
           Examples.wideConfig ↔
     feasibleAssignment (conflictsOf ∅ "X")
       (buildSections Examples.wideSubjects Examples.wideConfig) [1; 2] a).
Proof.
  split; [exact NoDup_1_2|]. split; [apply buildSections_wf|].
  apply findValidAssignments_sound_exhaustive.
  - exact NoDup_1_2.
  - apply buildSections_wf.
Defined.

(** The store the main loop hands to X is well formed. *)
Lemma storeBeforeX_wf :
  sections_wf (store_sections Examples.storeBeforeX) Examples.wideConfig.
Proof.
  unfold Examples.storeBeforeX.
  apply (foldRun_state_inv (storeOk Examples.wideConfig)).
  - intros vars code st _. apply scheduleStudent_storeOk.
  - apply buildSections_storeOk.
Qed.

(** The one combination left to X: section 1.1 holds P, who conflicts with X. *)
Lemma storeBeforeX_search :
  [(1, "1.2"); (2, "2.1")] ∈
    findValidAssignments [1; 2] "X" (buildConflictMap Examples.widePairs)
      (store_sections Examples.storeBeforeX) Examples.wideConfig.
Proof. vm_compute. constructor. Qed.

(** C6 on that combination, for a morning preference under "equitable". *)
Lemma calculateAssignmentCost_documented_witness :
  sections_wf (store_sections Examples.storeBeforeX) Examples.wideConfig ∧
  [(1, "1.2"); (2, "2.1")] ∈
    findValidAssignments [1; 2] "X" (buildConflictMap Examples.widePairs)
      (store_sections Examples.storeBeforeX) Examples.wideConfig ∧
  calculateAssignmentCost [(1, "1.2"); (2, "2.1")]
    (sectionSizesOf (store_sections Examples.storeBeforeX)) (Some manana)
    Examples.wideConfig equitable
  = Some (documentedCost (store_sections Examples.storeBeforeX) (Some manana) equitable
            [(1, "1.2"); (2, "2.1")]).
Proof.
  split; [exact storeBeforeX_wf|]. split; [exact storeBeforeX_search|].
  exact (calculateAssignmentCost_documented [1; 2] "X"
           (buildConflictMap Examples.widePairs) _ _ (Some manana) equitable _
           storeBeforeX_wf storeBeforeX_search).
Defined.

(** C10 on that combination. *)
Lemma cost_defined_on_search_results_witness :
  [(1, "1.2"); (2, "2.1")] ∈
    findValidAssignments [1; 2] "X" (buildConflictMap Examples.widePairs)
      (store_sections Examples.storeBeforeX) Examples.wideConfig ∧
  ((∀ subjectId sid,
      (subjectId, sid) ∈ [(1, "1.2"); (2, "2.1")] →
      is_Some (Examples.wideConfig !! subjectId)) ∧
   (∀ sectionSizes preference balancingStrategy,
      is_Some (calculateAssignmentCost [(1, "1.2"); (2, "2.1")] sectionSizes preference
                 Examples.wideConfig balancingStrategy))).
Proof.
  split; [exact storeBeforeX_search|].
  exact (cost_defined_on_search_results [1; 2] "X"
           (buildConflictMap Examples.widePairs) _ _ _ storeBeforeX_search).
Defined.

(** C7 on the step of the main loop that places X. *)
Lemma commits_first_cheapest_combination_witness :
  findValidAssignments
    (resolveSubjects Examples.wideSubjects
       (default [] (entries_get "X" Examples.wideEnrollments)))
    "X" (buildConflictMap Examples.widePairs)
    (store_sections Examples.storeBeforeX) Examples.wideConfig ≠ [] ∧
  ∃ bestAssignment minCost before after,
    findValidAssignments
      (resolveSubjects Examples.wideSubjects
         (default [] (entries_get "X" Examples.wideEnrollments)))
      "X" (buildConflictMap Examples.widePairs)
      (store_sections Examples.storeBeforeX) Examples.wideConfig
    = before ++ bestAssignment :: after ∧
    calculateAssignmentCost bestAssignment
      (sectionSizesOf (store_sections Examples.storeBeforeX))
      (Examples.widePreferences !! "X") Examples.wideConfig equitable = Some minCost ∧
    (∀ a, a ∈ before →
       ∃ c, calculateAssignmentCost a
              (sectionSizesOf (store_sections Examples.storeBeforeX))
              (Examples.widePreferences !! "X") Examples.wideConfig equitable = Some c ∧
            minCost < c) ∧
    (∀ a, a ∈ after →
       ∃ c, calculateAssignmentCost a
              (sectionSizesOf (store_sections Examples.storeBeforeX))
              (Examples.widePreferences !! "X") Examples.wideConfig equitable = Some c ∧
            minCost ≤ c) ∧
    StronglySorted lexBefore
      (findValidAssignments
         (resolveSubjects Examples.wideSubjects
            (default [] (entries_get "X" Examples.wideEnrollments)))
         "X" (buildConflictMap Examples.widePairs)
         (store_sections Examples.storeBeforeX) Examples.wideConfig) ∧
    (∃ vars',
       (scheduleStudent Examples.wideEnrollments ∅ Examples.widePreferences
          (buildConflictMap Examples.widePairs) Examples.wideSubjects Examples.wideConfig
          equitable (mkLoopVars [] 3) "X" Examples.storeBeforeX).1 = Done vars') ∧
    pushedOn "X" (values bestAssignment) (store_sections Examples.storeBeforeX)
      (store_sections
         (scheduleStudent Examples.wideEnrollments ∅ Examples.widePreferences
            (buildConflictMap Examples.widePairs) Examples.wideSubjects Examples.wideConfig
            equitable (mkLoopVars [] 3) "X" Examples.storeBeforeX).2).
Proof.
  assert (findValidAssignments
            (resolveSubjects Examples.wideSubjects
               (default [] (entries_get "X" Examples.wideEnrollments)))
            "X" (buildConflictMap Examples.widePairs)
            (store_sections Examples.storeBeforeX) Examples.wideConfig ≠ []) as Hne.
  { vm_compute. discriminate. }
  split; [exact Hne|].
  exact (commits_first_cheapest_combination Examples.wideEnrollments ∅
           Examples.widePreferences (buildConflictMap Examples.widePairs)
           Examples.wideSubjects Examples.wideConfig equitable (mkLoopVars [] 3) "X"
           Examples.storeBeforeX Hne).
Defined.

(** C8 on the sections X holds at the end of the run. *)
Lemma validate_valid_iff_witness :
  length ["1.2"; "2.1"] = 2%nat ∧
  (∀ sid, sid ∈ ["1.2"; "2.1"] →
          is_Some (store_sections Examples.wideRun.2 !! sid)) ∧
  ∃ v,
    validate "X" ["1.2"; "2.1"] 2 (store_sections Examples.wideRun.2) Examples.widePairs
      = Done (Some v) ∧
    (isValid v = true ↔
     NoDup (selectedBlocks (store_sections Examples.wideRun.2) ["1.2"; "2.1"]) ∧
     ∀ sid section,
       sid ∈ ["1.2"; "2.1"] → store_sections Examples.wideRun.2 !! sid = Some section →
       Z.of_nat (length (filter (λ s, s ≠ "X") (sec_students section)))
         < sec_capacity section ∧
       ∀ c, c ∈ sec_students section →
            c ∉ conflictsOf (buildConflictMap Examples.widePairs) "X") ∧
    (isValid v = false → message v ≠ "").
Proof.
  assert (∀ sid, sid ∈ ["1.2"; "2.1"] →
                 is_Some (store_sections Examples.wideRun.2 !! sid)) as Hex.
  { intros sid [->|[->|[]%elem_of_nil]%elem_of_cons]%elem_of_cons;
      vm_compute; by eexists. }
  split; [reflexivity|]. split; [exact Hex|].
  exact (validate_valid_iff "X" ["1.2"; "2.1"] 2 (store_sections Examples.wideRun.2)
           Examples.widePairs eq_refl Hex).
Defined.

(** The run of the second configuration completes. *)
Lemma wideRun_Done :
  Examples.wideRun = (Done (Examples.resultOf Examples.wideRun), Examples.wideRun.2).
Proof. vm_compute. reflexivity. Qed.

(** Section 1.2 at the end of that run. *)
Lemma wideRun_section_1_2 :
  r_sections (Examples.resultOf Examples.wideRun) !! "1.2"
  = Some (mkSection "1.2" 1 "A" 3 ["Q"; "X"] 3).
Proof. vm_compute. reflexivity. Qed.

(** C3 (amended) on X, whom the search placed. *)
Lemma committed_sections_on_distinct_blocks_witness :
  NoDup Examples.wideEnrollments.*1 ∧
  Examples.wideRun = (Done (Examples.resultOf Examples.wideRun), Examples.wideRun.2) ∧
  ("X" ∉ ([] : list (string * list string)).*1 ∨
   fixedBlocksDistinct (buildSections Examples.wideSubjects Examples.wideConfig) [] "X") ∧
  blocksDistinct (r_sections (Examples.resultOf Examples.wideRun)) "X".
Proof.
  assert (NoDup Examples.wideEnrollments.*1) as Hnd.
  { apply (bool_decide_unpack (NoDup Examples.wideEnrollments.*1)). vm_compute. exact I. }
  assert ("X" ∉ ([] : list (string * list string)).*1 ∨
          fixedBlocksDistinct (buildSections Examples.wideSubjects Examples.wideConfig)
            [] "X") as Hs.
  { left. apply not_elem_of_nil. }
  split; [exact Hnd|]. split; [exact wideRun_Done|]. split; [exact Hs|].
  exact (committed_sections_on_distinct_blocks Examples.wideEnrollments ∅ ∅
           Examples.widePreferences [] Examples.widePairs Examples.wideSubjects
           Examples.wideConfig equitable _ _ "X" Hnd wideRun_Done Hs).
Defined.

(** C5 on the conflict pair (P, X) and section 1.2. *)
Lemma conflicting_pairs_separated_witness :
  Examples.wideRun = (Done (Examples.resultOf Examples.wideRun), Examples.wideRun.2) ∧
  ("P", "X") ∈ Examples.widePairs ∧
  "P" ≠ "X" ∧
  r_sections (Examples.resultOf Examples.wideRun) !! "1.2"
    = Some (mkSection "1.2" 1 "A" 3 ["Q"; "X"] 3) ∧
  ¬ ("P" ∈ sec_students (mkSection "1.2" 1 "A" 3 ["Q"; "X"] 3) ∧
     "X" ∈ sec_students (mkSection "1.2" 1 "A" 3 ["Q"; "X"] 3)).
Proof.
  assert (("P", "X") ∈ Examples.widePairs) as Hpair by (vm_compute; constructor).
  assert ("P" ≠ "X") as Hne by discriminate.
  split; [exact wideRun_Done|]. split; [exact Hpair|]. split; [exact Hne|].
  split; [exact wideRun_section_1_2|].
  exact (conflicting_pairs_separated Examples.wideEnrollments ∅ ∅
           Examples.widePreferences [] Examples.widePairs Examples.wideSubjects
           Examples.wideConfig equitable _ _ "P" "X" "1.2" _
           wideRun_Done Hpair Hne wideRun_section_1_2).
Defined.

(** C9 on X, whose course is unknown. *)
Lemma unknown_course_counted_not_recorded_witness :
  Examples.wideRun = (Done (Examples.resultOf Examples.wideRun), Examples.wideRun.2) ∧
  r_sections (Examples.resultOf Examples.wideRun) !! "1.2"
    = Some (mkSection "1.2" 1 "A" 3 ["Q"; "X"] 3) ∧
  "X" ∈ sec_students (mkSection "1.2" 1 "A" 3 ["Q"; "X"] 3) ∧
  (∅ : gmap string string) !! "X" = None ∧
  ((∃ occupants : gset string,
      (∀ c, c ∈ occupants ↔
            ∃ sid' section',
              r_sections (Examples.resultOf Examples.wideRun) !! sid' = Some section' ∧
              c ∈ sec_students section') ∧
      "X" ∈ occupants ∧
      assignedStudents (r_stats (Examples.resultOf Examples.wideRun)) = size occupants ∧
      assignedStudents (r_stats (Examples.resultOf Examples.wideRun))
        = S (size (occupants ∖ {["X"]}))) ∧
   r_studentAssignments (Examples.resultOf Examples.wideRun) !! "X" = None).
Proof.
  assert ("X" ∈ sec_students (mkSection "1.2" 1 "A" 3 ["Q"; "X"] 3)) as Hin.
  { cbn. right. left. }
  split; [exact wideRun_Done|]. split; [exact wideRun_section_1_2|].
  split; [exact Hin|]. split; [reflexivity|].
  exact (unknown_course_counted_not_recorded Examples.wideEnrollments ∅ ∅
           Examples.widePreferences [] Examples.widePairs Examples.wideSubjects
           Examples.wideConfig equitable _ _ "X" "1.2" _
           wideRun_Done wideRun_section_1_2 Hin eq_refl).
Defined.

(* ================================================================= *)
(** * Further properties of the engine *)

(** ** The conflict index, as a relation *)

(** X1. The conflict index built from the pair list relates [a] to [b]
    exactly when the list holds the two codes as a pair, in either order;
    so the index is symmetric whatever the order the pairs were typed in. *)
Theorem conflict_index_exact_and_symmetric (conflictPairs : list (string * string))
    (a b : string) :
  (b ∈ conflictsOf (buildConflictMap conflictPairs) a ↔
   (a, b) ∈ conflictPairs ∨ (b, a) ∈ conflictPairs) ∧
  (b ∈ conflictsOf (buildConflictMap conflictPairs) a ↔
   a ∈ conflictsOf (buildConflictMap conflictPairs) b).
Proof. rewrite !conflictsOf_buildConflictMap. tauto. Qed.

(** ** The section universe, entry by entry *)

Lemma addSubjectSections_lookup (scheduleConfig : gmap Z Config)
    (S : gmap string Section) (subject : Subject) (sid : string) :
  addSubjectSections scheduleConfig S subject !! sid =
  match scheduleConfig !! subj_id subject with
  | None => S !! sid
  | Some config =>
      if decide (sid = sectionId (subj_id subject) "2")
      then Some (mkSection sid (subj_id subject) (subj_name subject)
                           (s2_block config) [] (capacity config))
      else if decide (sid = sectionId (subj_id subject) "1")
      then Some (mkSection sid (subj_id subject) (subj_name subject)
                           (s1_block config) [] (capacity config))
      else S !! sid
  end.
Proof.
  unfold addSubjectSections. destruct (scheduleConfig !! subj_id subject); [|done].
  destruct (decide (sid = _)) as [->|Hne2]; [by rewrite lookup_insert_eq|].
  rewrite lookup_insert_ne by done.
  destruct (decide (sid = _)) as [->|Hne1]; [by rewrite lookup_insert_eq|].
  by rewrite lookup_insert_ne.
Qed.

Lemma buildSections_snoc (subjectsConfig : list Subject) (subject : Subject)
    (scheduleConfig : gmap Z Config) :
  buildSections (subjectsConfig ++ [subject]) scheduleConfig =
  addSubjectSections scheduleConfig (buildSections subjectsConfig scheduleConfig) subject.
Proof. unfold buildSections. by rewrite foldl_app. Qed.

(** The sections of the universe, for subjects with different ids. *)
Lemma buildSections_lookup_iff (subjectsConfig : list Subject)
    (scheduleConfig : gmap Z Config) (sid : string) (section : Section) :
  NoDup (subj_id <$> subjectsConfig) →
  buildSections subjectsConfig scheduleConfig !! sid = Some section ↔
  ∃ subject config,
    subject ∈ subjectsConfig ∧
    scheduleConfig !! subj_id subject = Some config ∧
    ((sid = sectionId (subj_id subject) "1" ∧
      section = mkSection sid (subj_id subject) (subj_name subject)
                          (s1_block config) [] (capacity config)) ∨
     (sid = sectionId (subj_id subject) "2" ∧
      section = mkSection sid (subj_id subject) (subj_name subject)
                          (s2_block config) [] (capacity config))).
Proof.
  induction subjectsConfig as [|x l IH] using rev_ind; intros Hnd.
  - unfold buildSections. cbn. rewrite lookup_empty. split; [done|].
    intros (? & ? & ?%elem_of_nil & _). done.
  - rewrite fmap_app in Hnd. apply NoDup_app in Hnd as (Hl & Hx & _).
    specialize (IH Hl). rewrite buildSections_snoc, addSubjectSections_lookup.
    assert (∀ subject k k', subject ∈ l →
              String.length k = String.length k' →
              sectionId (subj_id subject) k ≠ sectionId (subj_id x) k') as Hother.
    { intros subject k k' Hin Hlen [Heq _]%sectionId_inj; [|done].
      apply (Hx (subj_id x)); [|by left].
      apply list_elem_of_fmap. by exists subject. }
    split.
    + destruct (scheduleConfig !! subj_id x) as [config|] eqn:Hcfg.
      * destruct (decide (sid = _)) as [->|Hne2].
        { intros [= <-]. exists x, config. split_and!; [set_solver|done|by right]. }
        destruct (decide (sid = _)) as [->|Hne1].
        { intros [= <-]. exists x, config. split_and!; [set_solver|done|by left]. }
        intros (subject & config' & Hin & ? & ?)%IH. exists subject, config'.
        split_and!; [set_solver|done..].
      * intros (subject & config' & Hin & ? & ?)%IH. exists subject, config'.
        split_and!; [set_solver|done..].
    + intros (subject & config & [Hin| ->%list_elem_of_singleton]%elem_of_app & Hcfg & Hsid).
      * assert (sid ≠ sectionId (subj_id x) "1" ∧ sid ≠ sectionId (subj_id x) "2")
          as [Hne1 Hne2].
        { destruct Hsid as [[-> _]|[-> _]]; split; by apply Hother. }
        assert (buildSections l scheduleConfig !! sid = Some section) as Hl'.
        { apply IH. by exists subject, config. }
        destruct (scheduleConfig !! subj_id x); [|done].
        by rewrite !decide_False by done.
      * rewrite Hcfg. destruct Hsid as [[-> ->]|[-> ->]].
        -- rewrite decide_False by apply sectionId_slots_ne.
           by rewrite decide_True.
        -- by rewrite decide_True.
Qed.

(** X2. When the configured subjects have different ids, the section
    universe holds exactly two sections for every subject that has an entry
    in the schedule configuration, under the ids [id.1] and [id.2], empty,
    with the subject's name, the block of the slot and the configured
    capacity; a subject without configuration entry gets no section. *)
Theorem buildSections_lookup (subjectsConfig : list Subject)
    (scheduleConfig : gmap Z Config) (sid : string) (section : Section) :
  NoDup (subj_id <$> subjectsConfig) →
  buildSections subjectsConfig scheduleConfig !! sid = Some section ↔
  ∃ subject config,
    subject ∈ subjectsConfig ∧
    scheduleConfig !! subj_id subject = Some config ∧
    ((sid = sectionId (subj_id subject) "1" ∧
      section = mkSection sid (subj_id subject) (subj_name subject)
                          (s1_block config) [] (capacity config)) ∨
     (sid = sectionId (subj_id subject) "2" ∧
      section = mkSection sid (subj_id subject) (subj_name subject)
                          (s2_block config) [] (capacity config))).
Proof. apply buildSections_lookup_iff. Qed.

(** ** An enrolled subject without configuration *)

Section search_unconfigured.
Context (studentConflicts : gset string).
Context (sections : gmap string Section).
Context (scheduleConfig : gmap Z Config).

Lemma processSection_keeps_results (next : BtState → BtState) (subjectId block : Z)
    (sectionIdSuffix : string) (st : BtState) :
  (∀ st', validAssignments (next st') = validAssignments st') →
  validAssignments (processSection studentConflicts sections next subjectId block
                      sectionIdSuffix st) = validAssignments st.
Proof.
  intros Hnext. unfold processSection.
  destruct (decide _); [done|]. destruct (sections !! _); [|done].
  case_bool_decide; [done|]. destruct (hasConflict _ _); [done|].
  cbn. by rewrite Hnext.
Qed.

Lemma backtrack_unconfigured (rest : list Z) (s : Z) (st : BtState) :
  s ∈ rest → scheduleConfig !! s = None →
  validAssignments (backtrack studentConflicts sections scheduleConfig rest st)
  = validAssignments st.
Proof.
  intros Hin Hcfg. revert st. induction rest as [|x rest IH]; intros st.
  - by apply elem_of_nil in Hin.
  - cbn [backtrack]. destruct (scheduleConfig !! x) as [config|] eqn:Hx; [|done].
    apply elem_of_cons in Hin as [->|Hin]; [congruence|].
    rewrite !processSection_keeps_results; [done|by apply IH..].
Qed.
End search_unconfigured.

(** X3. A student enrolled in a subject that has no entry in the schedule
    configuration has no feasible combination at all, whatever the other
    subjects, the sections and the conflicts are. *)
Theorem findValidAssignments_unconfigured_subject (studentSubjects : list Z)
    (studentCode : string) (conflictMap : gmap string (gset string))
    (sections : gmap string Section) (scheduleConfig : gmap Z Config) (s : Z) :
  s ∈ studentSubjects → scheduleConfig !! s = None →
  findValidAssignments studentSubjects studentCode conflictMap sections scheduleConfig = [].
Proof.
  intros Hin Hcfg. unfold findValidAssignments.
  by rewrite (backtrack_unconfigured _ _ _ _ s).
Qed.

(** ** The size of a search *)

Section search_size.
Context (studentConflicts : gset string).
Context (sections : gmap string Section).
Context (scheduleConfig : gmap Z Config).

Lemma processSection_count (next : BtState → BtState) (k : nat) (subjectId block : Z)
    (sectionIdSuffix : string) (st : BtState) :
  (∀ st', validAssignments st' `prefix_of` validAssignments (next st') ∧
          (length (validAssignments (next st')) ≤ length (validAssignments st') + k)%nat) →
  validAssignments st `prefix_of`
    validAssignments (processSection studentConflicts sections next subjectId block
                        sectionIdSuffix st) ∧
  (length (validAssignments (processSection studentConflicts sections next subjectId
                               block sectionIdSuffix st))
   ≤ length (validAssignments st) + k)%nat.
Proof.
  intros Hnext. unfold processSection.
  destruct (decide _); [split; [done|lia]|].
  destruct (sections !! _); [|split; [done|lia]].
  case_bool_decide; [split; [done|lia]|].
  destruct (hasConflict _ _); [split; [done|lia]|].
  cbn. apply (Hnext (mkBt _ _ (validAssignments st))).
Qed.

Lemma backtrack_count (rest : list Z) (st : BtState) :
  validAssignments st `prefix_of`
    validAssignments (backtrack studentConflicts sections scheduleConfig rest st) ∧
  (length (validAssignments (backtrack studentConflicts sections scheduleConfig rest st))
   ≤ length (validAssignments st) + 2 ^ length rest)%nat.
Proof.
  revert st. induction rest as [|s rest IH]; intros st.
  - cbn. rewrite length_app. cbn. split; [by apply prefix_app_r|lia].
  - cbn [backtrack]. destruct (scheduleConfig !! s) as [config|].
    2: { split; [done|lia]. }
    destruct (processSection_count
                (backtrack studentConflicts sections scheduleConfig rest)
                (2 ^ length rest) s (s1_block config) "1" st IH) as [Hp1 Hl1].
    destruct (processSection_count
                (backtrack studentConflicts sections scheduleConfig rest)
                (2 ^ length rest) s (s2_block config) "2"
                (processSection studentConflicts sections
                   (backtrack studentConflicts sections scheduleConfig rest)
                   s (s1_block config) "1" st) IH) as [Hp2 Hl2].
    split; [by etrans|]. cbn [length]. rewrite Nat.pow_succ_r'. lia.
Qed.
End search_size.

(** X4. For a student with [n] subjects the search returns at most [2^n]
    combinations, whatever the sections and the conflicts are. *)
Theorem findValidAssignments_at_most_two_per_subject (studentSubjects : list Z)
    (studentCode : string) (conflictMap : gmap string (gset string))
    (sections : gmap string Section) (scheduleConfig : gmap Z Config) :
  (length (findValidAssignments studentSubjects studentCode conflictMap sections
             scheduleConfig) ≤ 2 ^ length studentSubjects)%nat.
Proof.
  unfold findValidAssignments.
  destruct (backtrack_count (conflictsOf conflictMap studentCode) sections scheduleConfig
              studentSubjects (mkBt [] ∅ [])) as [_ Hlen].
  cbn in Hlen. lia.
Qed.

(** ** The enrolled subjects of a student, exactly *)

Lemma elem_of_foldl_set_add {A : Type} `{EqDecision A} (l acc : list A) (x : A) :
  x ∈ foldl (λ ids id, set_add id ids) acc l ↔ x ∈ acc ∨ x ∈ l.
Proof.
  revert acc. induction l as [|y l IH]; intros acc; cbn [foldl].
  - rewrite elem_of_nil. tauto.
  - rewrite IH. unfold set_add. case_decide; set_solver.
Qed.

(** The ids of [resolveSubjects]. *)
Lemma resolveSubjects_spec (subjectsConfig : list Subject) (rawSubjects : list string)
    (id : Z) :
  NoDup (resolveSubjects subjectsConfig rawSubjects) ∧
  (id ∈ resolveSubjects subjectsConfig rawSubjects ↔
   ∃ name subject,
     name ∈ rawSubjects ∧
     List.find (λ s, bool_decide (subj_name s = name)) subjectsConfig = Some subject ∧
     subj_id subject = id).
Proof.
  split; [apply NoDup_resolveSubjects|].
  unfold resolveSubjects. rewrite elem_of_foldl_set_add, list_elem_of_omap.
  split.
  - intros [?%elem_of_nil|(name & Hname & Hfind)]; [done|].
    destruct (List.find _ subjectsConfig) as [subject|] eqn:Hf; [|done].
    injection Hfind as <-. by exists name, subject.
  - intros (name & subject & Hname & Hfind & <-). right. exists name.
    by rewrite Hfind.
Qed.

(** X5. The subject list the main loop searches for a student holds each id
    once, and holds an id exactly when one of the student's enrolled names
    is the name of a configured subject, the first subject of that name
    giving the id; an enrolled name that no configured subject bears is
    dropped. *)
Theorem resolveSubjects_exact (subjectsConfig : list Subject) (rawSubjects : list string)
    (id : Z) :
  NoDup (resolveSubjects subjectsConfig rawSubjects) ∧
  (id ∈ resolveSubjects subjectsConfig rawSubjects ↔
   ∃ name subject,
     name ∈ rawSubjects ∧
     List.find (λ s, bool_decide (subj_name s = name)) subjectsConfig = Some subject ∧
     subj_id subject = id).
Proof. apply resolveSubjects_spec. Qed.

(** ** The failure diagnoser, class by class *)

Section search_full.
Context (studentConflicts : gset string).
Context (sections : gmap string Section).
Context (scheduleConfig : gmap Z Config).

(** A subject whose two sections are full closes the search below it. *)
Lemma backtrack_bothSectionsFull (rest : list Z) (s : Z) (st : BtState) :
  s ∈ rest → bothSectionsFull sections scheduleConfig s = true →
  validAssignments (backtrack studentConflicts sections scheduleConfig rest st)
  = validAssignments st.
Proof.
  intros Hin Hfull. revert st. induction rest as [|x rest IH]; intros st.
  - by apply elem_of_nil in Hin.
  - cbn [backtrack]. destruct (scheduleConfig !! x) as [config|] eqn:Hx; [|done].
    apply elem_of_cons in Hin as [->|Hin].
    + unfold bothSectionsFull in Hfull. rewrite Hx in Hfull.
      destruct (sections !! sectionId x "1") as [section1|] eqn:H1; [|done].
      destruct (sections !! sectionId x "2") as [section2|] eqn:H2; [|done].
      apply andb_true_iff in Hfull as [Hf1 Hf2].
      unfold processSection. rewrite H1, H2, Hf1.
      destruct (decide (s1_block config ∈ usedBlocks st)).
      * rewrite Hf2. by destruct (decide _).
      * rewrite Hf2. by destruct (decide _).
    + rewrite !processSection_keeps_results; [done|by apply IH..].
Qed.
End search_full.

(** X6. The diagnoser answers CAPACITY exactly when one of the student's
    subjects is configured and has both of its sections full; the diagnosis
    then names, as the conflicting subject, the first such subject in
    enrolment order. *)
Theorem diagnoseFailure_CAPACITY_iff (allSubjects : list Subject) (studentCode : string)
    (studentSubjects : list Z) (conflictMap : gmap string (gset string))
    (sections : gmap string Section) (studentCodeToName : gmap string string)
    (scheduleConfig : gmap Z Config) :
  let diagnosis :=
    diagnoseFailure allSubjects studentCode studentSubjects conflictMap sections
      studentCodeToName scheduleConfig in
  (d_type diagnosis = CAPACITY ↔
   ∃ s, s ∈ studentSubjects ∧ bothSectionsFull sections scheduleConfig s = true) ∧
  match List.find (bothSectionsFull sections scheduleConfig) studentSubjects with
  | Some s =>
      d_type diagnosis = CAPACITY ∧
      d_conflictingSubjects diagnosis = [getSubjectNameById allSubjects s]
  | None => d_type diagnosis ≠ CAPACITY
  end.
Proof.
  cbv zeta.
  assert (∀ s, s ∈ studentSubjects → bothSectionsFull sections scheduleConfig s = true →
               findValidAssignments studentSubjects "" ∅ sections scheduleConfig = [])
    as Hempty.
  { intros s Hin Hfull. unfold findValidAssignments.
    by rewrite (backtrack_bothSectionsFull _ _ _ _ s). }
  assert (match List.find (bothSectionsFull sections scheduleConfig) studentSubjects with
          | Some s =>
              d_type (diagnoseFailure allSubjects studentCode studentSubjects conflictMap
                        sections studentCodeToName scheduleConfig) = CAPACITY ∧
              d_conflictingSubjects
                (diagnoseFailure allSubjects studentCode studentSubjects conflictMap
                   sections studentCodeToName scheduleConfig)
              = [getSubjectNameById allSubjects s]
          | None =>
              d_type (diagnoseFailure allSubjects studentCode studentSubjects conflictMap
                        sections studentCodeToName scheduleConfig) ≠ CAPACITY
          end) as Hfind.
  { unfold diagnoseFailure.
    destruct (List.find _ studentSubjects) as [s|] eqn:Hfind.
    - apply find_some in Hfind as [Hin%list_elem_of_In Hfull].
      by rewrite (Hempty s Hin Hfull).
    - destruct (findValidAssignments studentSubjects "" ∅ sections scheduleConfig);
        [done|].
      destruct (filter _ _) as [|b bs]; [done|].
      destruct (foldl _ b bs); done. }
  split; [|done].
  destruct (List.find _ studentSubjects) as [s|] eqn:Hf.
  - apply find_some in Hf as [Hin%list_elem_of_In Hfull].
    split; [|by intros _; apply Hfind]. intros _. by exists s.
  - split; [by intros ?%Hfind|]. intros (s & Hin%list_elem_of_In & Hfull).
    by rewrite (find_none _ _ Hf s Hin) in Hfull.
Qed.

Lemma elem_of_blocking_fold (studentConflicts : gset string) (students acc : list string)
    (c : string) :
  c ∈ foldl (λ blocking c, if bool_decide (c ∈ studentConflicts) then set_add c blocking
                           else blocking) acc students ↔
  c ∈ acc ∨ (c ∈ studentConflicts ∧ c ∈ students).
Proof.
  revert acc. induction students as [|x students IH]; intros acc; cbn [foldl].
  - rewrite elem_of_nil. tauto.
  - rewrite IH. unfold set_add. case_bool_decide; [case_decide|]; set_solver.
Qed.

(** The students that block a schedule: the occupants of its sections that
    are in the student's conflict set. *)
Lemma elem_of_blockingStudents (studentConflicts : gset string)
    (sections : gmap string Section) (schedule : Assignment) (c : string) :
  c ∈ blockingStudents studentConflicts sections schedule ↔
  c ∈ studentConflicts ∧ ∃ sid, sid ∈ values schedule ∧ occupies sections c sid.
Proof.
  unfold blockingStudents.
  assert (∀ ids acc,
            c ∈ foldl (λ blocking sid,
                         match sections !! sid with
                         | Some section =>
                             foldl (λ blocking c,
                                      if bool_decide (c ∈ studentConflicts)
                                      then set_add c blocking else blocking)
                                   blocking (sec_students section)
                         | None => blocking
                         end) acc ids ↔
            c ∈ acc ∨ (c ∈ studentConflicts ∧ ∃ sid, sid ∈ ids ∧ occupies sections c sid))
    as Hgen.
  { induction ids as [|sid ids IH]; intros acc; cbn [foldl].
    - split; [by left|]. intros [?|(_ & ? & ?%elem_of_nil & _)]; done.
    - rewrite IH. destruct (sections !! sid) as [section|] eqn:Hsec.
      + rewrite elem_of_blocking_fold. split.
        * intros [[?|[? ?]]|(? & sid' & ? & ?)]; [by left| |].
          -- right. split; [done|]. exists sid. split; [by left|]. by exists section.
          -- right. split; [done|]. exists sid'. split; [by right|done].
        * intros [?|(? & sid' & [->|?]%elem_of_cons & Hocc)]; [by left; left| |].
          -- destruct Hocc as (section' & Hsec' & ?).
             rewrite Hsec in Hsec'. injection Hsec' as <-. left. by right.
          -- right. split; [done|]. by exists sid'.
      + split.
        * intros [?|(? & sid' & ? & ?)]; [by left|].
          right. split; [done|]. exists sid'. split; [by right|done].
        * intros [?|(? & sid' & [->|?]%elem_of_cons & Hocc)]; [by left| |].
          -- destruct Hocc as (section' & Hsec' & ?). congruence.
          -- right. split; [done|]. by exists sid'. }
  rewrite Hgen. rewrite elem_of_nil. tauto.
Qed.

Lemma elem_of_intersection_fold (others : list (list string)) (first : list string)
    (x : string) :
  x ∈ foldl (λ inter blocking, filter (λ x, x ∈ blocking) inter) first others ↔
  x ∈ first ∧ ∀ blocking, blocking ∈ others → x ∈ blocking.
Proof.
  revert first. induction others as [|b others IH]; intros first; cbn [foldl].
  - split; [|by intros [? _]]. intros ?. split; [done|]. by intros ? ?%elem_of_nil.
  - rewrite IH, list_elem_of_filter. split.
    + intros [[? ?] Hall]. split; [done|]. intros b' [->|?]%elem_of_cons; [done|].
      by apply Hall.
    + intros [? Hall]. split_and!; [apply Hall; by left|done|].
      intros b' ?. apply Hall. by right.
Qed.

(** X7. The diagnoser answers CONFLICT exactly when the search without
    conflicts finds combinations and one student of the conflict set
    occupies a section of every combination that has such an occupant at
    all (and at least one combination has); combinations that no conflicting
    student occupies are not looked at. *)
Theorem diagnoseFailure_CONFLICT_iff (allSubjects : list Subject) (studentCode : string)
    (studentSubjects : list Z) (conflictMap : gmap string (gset string))
    (sections : gmap string Section) (studentCodeToName : gmap string string)
    (scheduleConfig : gmap Z Config) :
  let potentialSchedules :=
    findValidAssignments studentSubjects "" ∅ sections scheduleConfig in
  let blocks := λ (c : string) (schedule : Assignment),
    c ∈ conflictsOf conflictMap studentCode ∧
    ∃ sid, sid ∈ values schedule ∧ occupies sections c sid in
  d_type (diagnoseFailure allSubjects studentCode studentSubjects conflictMap sections
            studentCodeToName scheduleConfig) = CONFLICT
  ↔
  ∃ c,
    (∃ schedule, schedule ∈ potentialSchedules ∧ blocks c schedule) ∧
    (∀ schedule, schedule ∈ potentialSchedules →
                 (∃ c', blocks c' schedule) → blocks c schedule).
Proof.
  cbv zeta. unfold diagnoseFailure.
  set (potential := findValidAssignments studentSubjects "" ∅ sections scheduleConfig).
  set (sc := conflictsOf conflictMap studentCode).
  set (L := filter (λ blocking, blocking ≠ [])
              (blockingStudents sc sections <$> potential)).
  assert (∀ b, b ∈ L ↔ b ≠ [] ∧ ∃ schedule, schedule ∈ potential ∧
                                  b = blockingStudents sc sections schedule) as HL.
  { intros b. unfold L. rewrite list_elem_of_filter, list_elem_of_fmap.
    split; intros [? (schedule & ? & ?)]; (split; [done|]); by exists schedule. }
  assert (∀ schedule c, schedule ∈ potential →
            c ∈ sc ∧ (∃ sid, sid ∈ values schedule ∧ occupies sections c sid) →
            blockingStudents sc sections schedule ∈ L) as HinL.
  { intros schedule c Hin Hc%elem_of_blockingStudents. apply HL. split.
    - intros Hnil. rewrite Hnil in Hc. by apply elem_of_nil in Hc.
    - by exists schedule. }
  destruct potential as [|first others] eqn:Hpot.
  { split.
    - by destruct (List.find _ studentSubjects).
    - intros (c & (schedule & ?%elem_of_nil & _) & _). done. }
  rewrite <- Hpot in *. clearbody potential L.
  destruct L as [|b bs] eqn:HLeq.
  { split; [done|]. intros (c & (schedule & Hin & Hc) & _).
    apply (HinL schedule c Hin) in Hc. by apply elem_of_nil in Hc. }
  set (inter := foldl (λ inter blocking, filter (λ x, x ∈ blocking) inter) b bs).
  assert (∀ x, x ∈ inter ↔ ∀ blocking, blocking ∈ b :: bs → x ∈ blocking) as Hinter.
  { intros x. unfold inter. rewrite elem_of_intersection_fold. split.
    - intros [? Hall] b' [->|?]%elem_of_cons; [done|by apply Hall].
    - intros Hall. split; [apply Hall; by left|]. intros b' ?. apply Hall. by right. }
  clearbody inter. destruct inter as [|c0 inter'] eqn:Hi.
  - split; [done|]. intros (c & (schedule & Hin & Hc) & Hall). exfalso.
    apply (elem_of_nil c), Hinter. intros b' Hb'.
    apply HL in Hb' as (Hne & schedule' & Hin' & ->).
    apply elem_of_blockingStudents, Hall; [done|].
    destruct (blockingStudents sc sections schedule') as [|c' ?] eqn:Hb; [done|].
    exists c'. apply elem_of_blockingStudents. rewrite Hb. by left.
  - split; [|done]. intros _. exists c0.
    assert (c0 ∈ c0 :: inter') as Hc0' by (by left).
    pose proof (proj1 (Hinter c0) Hc0') as Hc0. split.
    + assert (b ∈ b :: bs) as Hb by (by left).
      pose proof (Hc0 b Hb) as Hcb.
      apply HL in Hb as (_ & schedule & Hin & ->).
      exists schedule. split; [done|]. by apply elem_of_blockingStudents.
    + intros schedule Hin (c' & Hc').
      apply elem_of_blockingStudents, Hc0. by apply (HinL schedule c').
Qed.

(** ** How a run can end *)

Lemma forEach_thrown_Err {A : Type} (l : list A) (body : A → Run unit) (st : Store)
    (e : Error) :
  (∀ x st e, x ∈ l → (body x st).1 = Thrown e → ∃ message, e = Err message) →
  (forEach l body st).1 = Thrown e → ∃ message, e = Err message.
Proof.
  revert st. induction l as [|x l IH]; intros st Hbody; [done|].
  cbn [forEach]. unfold bind.
  destruct (body x st) as [[[]|e'] st'] eqn:Hx.
  - apply IH. intros y st'' e'' Hy. apply Hbody. by right.
  - cbn. intros [= ->]. apply (Hbody x st); [by left|]. by rewrite Hx.
Qed.

Lemma placeInSection_thrown (studentCodeToName : gmap string string)
    (studentCode sid : string) (st : Store) (e : Error) :
  (placeInSection studentCodeToName studentCode sid st).1 = Thrown e →
  ∃ message, e = Err message.
Proof.
  unfold placeInSection, bind, getSections, throw, pushStudent.
  destruct (store_sections st !! sid); [case_bool_decide|]; cbn; [|done|];
    intros [= <-]; by eexists.
Qed.

Lemma checkPreassigned_thrown (conflictMap : gmap string (gset string))
    (studentCodeToName : gmap string string) (entry : string * list string)
    (st : Store) (e : Error) :
  (checkPreassigned conflictMap studentCodeToName entry st).1 = Thrown e →
  ∃ message, e = Err message.
Proof.
  destruct entry as [studentCode sectionIds]. unfold checkPreassigned.
  case_bool_decide; [done|]. apply forEach_thrown_Err.
  intros sid st' e' _. unfold checkSection, bind, getSections.
  destruct (store_sections st' !! sid) as [section|]; [|done].
  apply forEach_thrown_Err. intros other st'' e'' _. unfold checkOccupant.
  destruct (_ && _); [|done]. cbn. intros [= <-]. by eexists.
Qed.

(** The body of the main loop always returns: the cost of a search result
    is defined, so the selection is. *)
Lemma scheduleStudent_returns (enrollments : list (string * list string))
    (studentCodeToName : gmap string string) (studentPreferences : gmap string Preference)
    (conflictMap : gmap string (gset string)) (subjectsConfig : list Subject)
    (scheduleConfig : gmap Z Config) (balancingStrategy : BalancingStrategy)
    (vars : LoopVars) (studentCode : string) (st : Store) :
  let subs := resolveSubjects subjectsConfig
                (default [] (entries_get studentCode enrollments)) in
  let found := findValidAssignments subs studentCode conflictMap (store_sections st)
                 scheduleConfig in
  let checked := (lv_combinationsChecked vars + length found)%nat in
  let outcome := scheduleStudent enrollments studentCodeToName studentPreferences
                   conflictMap subjectsConfig scheduleConfig balancingStrategy vars
                   studentCode st in
  (subs = [] ∧ outcome = (Done vars, st)) ∨
  (subs ≠ [] ∧ found = [] ∧
   outcome = (Done (mkLoopVars
                      (lv_unassignedStudents vars ++
                       [mkUnassigned studentCode
                          (diagnoseFailure subjectsConfig studentCode subs conflictMap
                             (store_sections st) studentCodeToName scheduleConfig)])
                      checked), st)) ∨
  (subs ≠ [] ∧ ∃ best,
     best ∈ found ∧
     outcome = (Done (mkLoopVars (lv_unassignedStudents vars) checked),
                commitStore studentCode st (values best))).
Proof.
  cbv zeta. unfold scheduleStudent.
  destruct (resolveSubjects subjectsConfig _) as [|s0 subs] eqn:Hsubs; [by left|].
  right. unfold bind, getSections.
  destruct (findValidAssignments (s0 :: subs) studentCode conflictMap
              (store_sections st) scheduleConfig) as [|first others] eqn:Hva.
  { left. by rewrite Nat.add_0_r. }
  right. split; [done|].
  assert (∀ a, a ∈ first :: others →
               is_Some (calculateAssignmentCost a (sectionSizesOf (store_sections st))
                          (studentPreferences !! studentCode) scheduleConfig
                          balancingStrategy)) as Hcost.
  { intros a Ha. apply (calculateAssignmentCost_is_Some (store_sections st)).
    apply (findValidAssignments_searchEntry (s0 :: subs) studentCode conflictMap).
    by rewrite Hva. }
  destruct (Hcost first) as [minCost Hfirst]; [by left|]. rewrite Hfirst.
  destruct (selectBest_is_Some
              (λ a, calculateAssignmentCost a (sectionSizesOf (store_sections st))
                      (studentPreferences !! studentCode) scheduleConfig
                      balancingStrategy) first minCost others) as [[best c] Hsel].
  { intros a Ha. apply Hcost. by right. }
  rewrite Hsel. exists best. rewrite commit_run. split; [|done].
  eapply (selectBest_first_min _ others [] [] first minCost) in Hsel
    as (b' & a' & Heq & _); try done.
  - cbn in Heq. rewrite Heq. apply elem_of_app. right. by left.
  - intros x Hx. by apply elem_of_nil in Hx.
  - intros x Hx. by apply elem_of_nil in Hx.
Qed.

Lemma foldRun_returns {A B : Type} (body : B → A → Run B) (b : B) (l : list A)
    (st : Store) :
  (∀ b x st, ∃ b', (body b x st).1 = Done b') →
  ∃ b', (foldRun body b l st).1 = Done b'.
Proof.
  intros Hbody. revert b st. induction l as [|x l IH]; intros b st; [by eexists|].
  cbn [foldRun]. unfold bind. destruct (Hbody b x st) as [b' Hb'].
  destruct (body b x st) as [[b''|?] st']; [|done]. apply IH.
Qed.

Lemma mainLoop_returns (enrollments : list (string * list string))
    (studentCodeToName : gmap string string) (studentPreferences : gmap string Preference)
    (conflictMap : gmap string (gset string)) (subjectsConfig : list Subject)
    (scheduleConfig : gmap Z Config) (balancingStrategy : BalancingStrategy)
    (vars : LoopVars) (students : list string) (st : Store) :
  ∃ vars',
    (foldRun (scheduleStudent enrollments studentCodeToName studentPreferences
                conflictMap subjectsConfig scheduleConfig balancingStrategy)
             vars students st).1 = Done vars'.
Proof.
  apply foldRun_returns. intros b x st'.
  destruct (scheduleStudent_returns enrollments studentCodeToName studentPreferences
              conflictMap subjectsConfig scheduleConfig balancingStrategy b x st')
    as [[_ ->]|[(_ & _ & ->)|(_ & best & _ & ->)]]; by eexists.
Qed.

(** A run returns a result or stops with an error message of one of the
    two preassignment passes. *)
Lemma scheduleStudents_Done_or_Err
    (enrollments : list (string * list string))
    (studentCourses studentCodeToName : gmap string string)
    (studentPreferences : gmap string Preference)
    (preassignedSections : list (string * list string))
    (conflictPairs : list (string * string))
    (subjectsConfig : list Subject) (scheduleConfig : gmap Z Config)
    (balancingStrategy : BalancingStrategy) :
  let run := scheduleStudents enrollments studentCourses studentCodeToName
               studentPreferences preassignedSections conflictPairs subjectsConfig
               scheduleConfig balancingStrategy in
  (∃ r, run.1 = Done r) ∨
  (∃ message, run.1 = Thrown (Err message) ∧
     ((forEach preassignedSections (placePreassigned studentCodeToName)
         (mkStore (buildSections subjectsConfig scheduleConfig) [])).1
        = Thrown (Err message) ∨
      ∃ st1, (forEach preassignedSections
                (checkPreassigned (buildConflictMap conflictPairs) studentCodeToName)
                st1).1 = Thrown (Err message))).
Proof.
  cbv zeta.
  unfold scheduleStudents, scheduleStudentsRun, bind, getSections, ret.
  destruct (forEach preassignedSections (placePreassigned _) _) as [[[]|e1] st1] eqn:H1.
  - destruct (forEach preassignedSections (checkPreassigned _ _) st1)
      as [[[]|e2] st2] eqn:H2.
    + destruct (mainLoop_returns enrollments studentCodeToName studentPreferences
                  (buildConflictMap conflictPairs) subjectsConfig scheduleConfig
                  balancingStrategy (mkLoopVars [] 0)
                  (studentsToSchedule enrollments preassignedSections) st2)
        as [vars Hvars].
      destruct (foldRun _ _ _ st2) as [[vars'|?] st3]; [|done].
      left. by eexists.
    + right. destruct (forEach_thrown_Err preassignedSections
                         (checkPreassigned (buildConflictMap conflictPairs)
                            studentCodeToName) st1 e2) as [message ->].
      * intros entry st' e' _. apply checkPreassigned_thrown.
      * by rewrite H2.
      * exists message. split; [done|]. right. exists st1. by rewrite H2.
  - right. destruct (forEach_thrown_Err preassignedSections
                       (placePreassigned studentCodeToName)
                       (mkStore (buildSections subjectsConfig scheduleConfig) []) e1)
      as [message ->].
    + intros [studentCode sectionIds] st' e' _. unfold placePreassigned.
      apply forEach_thrown_Err. intros sid st'' e'' _. apply placeInSection_thrown.
    + by rewrite H1.
    + exists message. split; [done|]. by left.
Qed.

(** X8. A run of the scheduler ends in one of two ways only: it returns a
    result, or it stops with one of the error messages about the preassigned
    sections. It never stops on a missing configuration entry or section
    (no TypeError), and without preassigned students it always returns. *)
Theorem scheduleStudents_completes_or_rejects_preassignment
    (enrollments : list (string * list string))
    (studentCourses studentCodeToName : gmap string string)
    (studentPreferences : gmap string Preference)
    (preassignedSections : list (string * list string))
    (conflictPairs : list (string * string))
    (subjectsConfig : list Subject) (scheduleConfig : gmap Z Config)
    (balancingStrategy : BalancingStrategy) :
  ((∃ r, (scheduleStudents enrollments studentCourses studentCodeToName
            studentPreferences preassignedSections conflictPairs subjectsConfig
            scheduleConfig balancingStrategy).1 = Done r) ∨
   (∃ message, (scheduleStudents enrollments studentCourses studentCodeToName
                  studentPreferences preassignedSections conflictPairs subjectsConfig
                  scheduleConfig balancingStrategy).1 = Thrown (Err message))) ∧
  (∃ r, (scheduleStudents enrollments studentCourses studentCodeToName
           studentPreferences [] conflictPairs subjectsConfig
           scheduleConfig balancingStrategy).1 = Done r).
Proof.
  split.
  - destruct (scheduleStudents_Done_or_Err enrollments studentCourses studentCodeToName
                studentPreferences preassignedSections conflictPairs subjectsConfig
                scheduleConfig balancingStrategy) as [?|(message & ? & _)];
      [by left|right; by exists message].
  - destruct (scheduleStudents_Done_or_Err enrollments studentCourses studentCodeToName
                studentPreferences [] conflictPairs subjectsConfig
                scheduleConfig balancingStrategy)
      as [?|(message & _ & [H1|[st1 H2]])]; done.
Qed.

(** ** Preassigned students along a run *)

Lemma pushStore_occupies (studentCode sid' : string) (st : Store) (s sid : string) :
  occupies (store_sections (pushStore studentCode sid' st)) s sid ↔
  occupies (store_sections st) s sid ∨
  (s = studentCode ∧ sid = sid' ∧ is_Some (store_sections st !! sid')).
Proof.
  unfold occupies. setoid_rewrite pushStore_lookup.
  destruct (decide (sid = sid')) as [->|Hne].
  - destruct (store_sections st !! sid') as [section|] eqn:Hsec; cbn.
    + split.
      * intros (section' & [= <-] & Hin). cbn in Hin.
        apply elem_of_app in Hin as [?| ->%list_elem_of_singleton].
        -- left. by exists section.
        -- right. split_and!; [done..|by eexists].
      * intros [(section' & [= <-] & Hin)|(-> & _ & _)];
          (eexists; split; [done|]); cbn; apply elem_of_app; [by left|right; by left].
    + split; [by intros (? & ? & _)|]. intros [(? & ? & _)|(_ & _ & [? ?])]; done.
  - split; [by left|]. intros [?|(_ & ? & _)]; done.
Qed.

Lemma pushStore_is_Some (studentCode sid' : string) (st : Store) (sid : string) :
  is_Some (store_sections (pushStore studentCode sid' st) !! sid) ↔
  is_Some (store_sections st !! sid).
Proof.
  rewrite pushStore_lookup. destruct (decide (sid = sid')) as [->|]; [|done].
  by rewrite fmap_is_Some.
Qed.

Lemma commitStore_is_Some (studentCode : string) (st : Store) (sids : list string)
    (sid : string) :
  is_Some (store_sections (commitStore studentCode st sids) !! sid) ↔
  is_Some (store_sections st !! sid).
Proof.
  revert st. induction sids as [|x sids IH]; intros st; [done|].
  unfold commitStore. cbn [foldl]. fold (commitStore studentCode (pushStore studentCode x st) sids).
  by rewrite IH, pushStore_is_Some.
Qed.

(** The occupancies after a commit, for any list of section ids. *)
Lemma commitStore_occupies_iff (studentCode : string) (st : Store) (sids : list string)
    (s sid : string) :
  occupies (store_sections (commitStore studentCode st sids)) s sid ↔
  occupies (store_sections st) s sid ∨
  (s = studentCode ∧ sid ∈ sids ∧ is_Some (store_sections st !! sid)).
Proof.
  revert st. induction sids as [|x sids IH]; intros st.
  - cbn. split; [by left|]. intros [?|(_ & ?%elem_of_nil & _)]; done.
  - unfold commitStore. cbn [foldl].
    fold (commitStore studentCode (pushStore studentCode x st) sids).
    rewrite IH, pushStore_occupies, pushStore_is_Some, elem_of_cons. naive_solver.
Qed.

(** What the run does to a student's occupancies, pass by pass. *)
Lemma placeInSection_occupies (studentCodeToName : gmap string string)
    (studentCode sid' : string) (st : Store) (s sid : string) :
  occupies (store_sections st) s sid →
  occupies (store_sections (placeInSection studentCodeToName studentCode sid' st).2) s sid.
Proof.
  intros Hocc. destruct (placeInSection_step studentCodeToName studentCode sid' st)
    as [->|(section & _ & _ & ->)]; [done|].
  apply commitStore_occupies_iff. by left.
Qed.

Lemma placePreassigned_occupies (studentCodeToName : gmap string string)
    (entry : string * list string) (st : Store) (s sid : string) :
  occupies (store_sections st) s sid →
  occupies (store_sections (placePreassigned studentCodeToName entry st).2) s sid.
Proof.
  apply (placePreassigned_inv (λ st, occupies (store_sections st) s sid)).
  intros st' sid' section _ Hocc _ _. apply commitStore_occupies_iff. by left.
Qed.

Lemma scheduleStudent_occupies (enrollments : list (string * list string))
    (studentCodeToName : gmap string string) (studentPreferences : gmap string Preference)
    (conflictMap : gmap string (gset string)) (subjectsConfig : list Subject)
    (scheduleConfig : gmap Z Config) (balancingStrategy : BalancingStrategy)
    (vars : LoopVars) (studentCode : string) (st : Store) (s sid : string) :
  occupies (store_sections st) s sid →
  occupies (store_sections
              (scheduleStudent enrollments studentCodeToName studentPreferences
                 conflictMap subjectsConfig scheduleConfig balancingStrategy vars
                 studentCode st).2) s sid.
Proof.
  intros Hocc.
  destruct (scheduleStudent_cases enrollments studentCodeToName studentPreferences
              conflictMap subjectsConfig scheduleConfig balancingStrategy vars
              studentCode st) as [->|(best & vars' & _ & ->)]; [done|].
  apply commitStore_occupies_iff. by left.
Qed.

Lemma forEach_Done_post {A : Type} (P : A → Store → Prop) (l : list A)
    (body : A → Run unit) (st st' : Store) :
  (∀ x s s', x ∈ l → body x s = (Done tt, s') → P x s') →
  (∀ x y s, P x s → P x (body y s).2) →
  forEach l body st = (Done tt, st') →
  ∀ x, x ∈ l → P x st'.
Proof.
  revert st. induction l as [|y l IH]; intros st Hpost Hstable Hrun x Hx;
    [by apply elem_of_nil in Hx|].
  cbn [forEach] in Hrun. unfold bind in Hrun.
  destruct (body y st) as [[[]|e] s1] eqn:Hy; [|done].
  apply elem_of_cons in Hx as [->|Hx].
  - assert (P y s1) as Hy1 by (apply (Hpost y st); [by left|done]).
    change st' with (Done (), st').2. rewrite <- Hrun.
    apply forEach_state_inv; [|done]. intros z s _. apply Hstable.
  - apply (IH s1); try done. intros z s s' Hz. apply Hpost. by right.
Qed.

(** After the placement pass, every preassigned student is in every section
    of the student's list. *)
Lemma placement_pass_occupies (studentCodeToName : gmap string string)
    (preassignedSections : list (string * list string)) (st st1 : Store) :
  forEach preassignedSections (placePreassigned studentCodeToName) st = (Done tt, st1) →
  ∀ s ids sid, (s, ids) ∈ preassignedSections → sid ∈ ids →
               occupies (store_sections st1) s sid.
Proof.
  intros Hrun s ids sid Hentry Hsid.
  apply (forEach_Done_post
           (λ entry st, ∀ sid, sid ∈ entry.2 → occupies (store_sections st) entry.1 sid)
           preassignedSections (placePreassigned studentCodeToName) st st1)
    with (x := (s, ids)); try done.
  - intros [c cids] s0 s1 _ Hc sid' Hsid'. cbn in *.
    apply (forEach_Done_post (λ sid st, occupies (store_sections st) c sid)
             cids (placeInSection studentCodeToName c) s0 s1); try done.
    + intros x s2 s3 _. unfold placeInSection, bind, getSections, throw, pushStudent.
      destruct (store_sections s2 !! x) as [section|] eqn:Hsec; [|done].
      case_bool_decide; [done|]. intros [= <-].
      apply pushStore_occupies. right. split_and!; [done..|by eexists].
    + intros x y s2. apply placeInSection_occupies.
  - intros [c cids] entry s0 Hc sid' Hsid'. apply placePreassigned_occupies. by apply Hc.
Qed.

Lemma forEach_reaches_throw {A : Type} (I : Store → Prop) (l : list A)
    (body : A → Run unit) (x : A) (st : Store) :
  x ∈ l →
  (∀ y st, I st → I (body y st).2) →
  (∀ st, I st → ∃ e, (body x st).1 = Thrown e) →
  I st → ∃ e, (forEach l body st).1 = Thrown e.
Proof.
  intros Hx Hinv Hthrow. revert st. induction l as [|y l IH]; intros st HI;
    [by apply elem_of_nil in Hx|].
  cbn [forEach]. unfold bind.
  destruct (body y st) as [[[]|e] s1] eqn:Hy; [|by exists e].
  apply elem_of_cons in Hx as [->|Hx].
  - destruct (Hthrow st HI) as [e He]. by rewrite Hy in He.
  - apply IH; [done|]. change s1 with (Done (), s1).2. rewrite <- Hy. by apply Hinv.
Qed.

Lemma scheduleStudents_thrown
    (enrollments : list (string * list string))
    (studentCourses studentCodeToName : gmap string string)
    (studentPreferences : gmap string Preference)
    (preassignedSections : list (string * list string))
    (conflictPairs : list (string * string))
    (subjectsConfig : list Subject) (scheduleConfig : gmap Z Config)
    (balancingStrategy : BalancingStrategy) :
  (∀ r st, scheduleStudents enrollments studentCourses studentCodeToName
             studentPreferences preassignedSections conflictPairs subjectsConfig
             scheduleConfig balancingStrategy ≠ (Done r, st)) →
  ∃ message,
    (scheduleStudents enrollments studentCourses studentCodeToName
       studentPreferences preassignedSections conflictPairs subjectsConfig
       scheduleConfig balancingStrategy).1 = Thrown (Err message).
Proof.
  intros Hno.
  destruct (scheduleStudents_Done_or_Err enrollments studentCourses studentCodeToName
              studentPreferences preassignedSections conflictPairs subjectsConfig
              scheduleConfig balancingStrategy) as [[r Hr]|(message & ? & _)];
    [|by exists message].
  exfalso. cbv zeta in Hr.
  destruct (scheduleStudents _ _ _ _ _ _ _ _ _) as [o st] eqn:Hrun.
  cbn in Hr. subst o. by apply (Hno r st).
Qed.

(** X9. A preassigned section id that is not a section of the universe is
    fatal: the run returns no result but stops with an error message, however
    the rest of the data looks. *)
Theorem preassigned_unknown_section_is_fatal
    (enrollments : list (string * list string))
    (studentCourses studentCodeToName : gmap string string)
    (studentPreferences : gmap string Preference)
    (preassignedSections : list (string * list string))
    (conflictPairs : list (string * string))
    (subjectsConfig : list Subject) (scheduleConfig : gmap Z Config)
    (balancingStrategy : BalancingStrategy)
    (studentCode : string) (sectionIds : list string) (sid : string) :
  (studentCode, sectionIds) ∈ preassignedSections →
  sid ∈ sectionIds →
  buildSections subjectsConfig scheduleConfig !! sid = None →
  ∃ message,
    (scheduleStudents enrollments studentCourses studentCodeToName
       studentPreferences preassignedSections conflictPairs subjectsConfig
       scheduleConfig balancingStrategy).1 = Thrown (Err message).
Proof.
  intros Hentry Hsid Hnone. apply scheduleStudents_thrown.
  intros r st (st1 & vars & H1 & _)%scheduleStudents_Done.
  set (I := λ st : Store, store_sections st !! sid = None).
  assert (∀ c sid' st, I st → I (placeInSection studentCodeToName c sid' st).2) as Hstep.
  { intros c sid' st' HI.
    destruct (placeInSection_step studentCodeToName c sid' st')
      as [->|(section & _ & _ & ->)]; [done|].
    unfold I. apply eq_None_not_Some. rewrite commitStore_is_Some.
    by apply eq_None_not_Some. }
  destruct (forEach_reaches_throw I preassignedSections
              (placePreassigned studentCodeToName) (studentCode, sectionIds)
              (mkStore (buildSections subjectsConfig scheduleConfig) []))
    as [e He]; try done.
  - intros [c cids] st' HI. unfold placePreassigned.
    apply (forEach_state_inv I); [|done]. intros sid' st'' _. apply Hstep.
  - intros st' HI. unfold placePreassigned.
    apply (forEach_reaches_throw I sectionIds _ sid); try done.
    + intros sid' st''. apply Hstep.
    + intros st'' HI'. unfold placeInSection, bind, getSections, throw.
      unfold I in HI'. rewrite HI'. by eexists.
  - by rewrite H1 in He.
Qed.

(** X10. Two different students of a conflict pair that are preassigned to a
    common section are fatal: the run returns no result but stops with an
    error message. *)
Theorem preassigned_conflicting_pair_is_fatal
    (enrollments : list (string * list string))
    (studentCourses studentCodeToName : gmap string string)
    (studentPreferences : gmap string Preference)
    (preassignedSections : list (string * list string))
    (conflictPairs : list (string * string))
    (subjectsConfig : list Subject) (scheduleConfig : gmap Z Config)
    (balancingStrategy : BalancingStrategy)
    (a b : string) (idsA idsB : list string) (sid : string) :
  (a, idsA) ∈ preassignedSections → (b, idsB) ∈ preassignedSections →
  sid ∈ idsA → sid ∈ idsB →
  a ≠ b →
  (a, b) ∈ conflictPairs ∨ (b, a) ∈ conflictPairs →
  ∃ message,
    (scheduleStudents enrollments studentCourses studentCodeToName
       studentPreferences preassignedSections conflictPairs subjectsConfig
       scheduleConfig balancingStrategy).1 = Thrown (Err message).
Proof.
  intros HA HB HsA HsB Hab Hpair. apply scheduleStudents_thrown.
  intros r st (st1 & vars & H1 & H2 & _)%scheduleStudents_Done.
  pose proof (placement_pass_occupies _ _ _ _ H1 b idsB sid HB HsB)
    as (section & Hsec & Hb).
  assert ((checkPreassigned (buildConflictMap conflictPairs) studentCodeToName
             (a, idsA) st1).1 = Done ()) as Hcheck.
  { apply (forEach_Done_all preassignedSections); [|by rewrite H2|done].
    intros entry st' _. apply checkPreassigned_state. }
  apply (checkPreassigned_Done _ _ _ _ _ Hcheck sid section b); try done.
  apply conflictsOf_buildConflictMap. tauto.
Qed.

(** The invariant of the main loop at the end of a completed run. *)
Lemma scheduleStudents_final_inv
    (enrollments : list (string * list string))
    (studentCourses studentCodeToName : gmap string string)
    (studentPreferences : gmap string Preference)
    (preassignedSections : list (string * list string))
    (conflictPairs : list (string * string))
    (subjectsConfig : list Subject) (scheduleConfig : gmap Z Config)
    (balancingStrategy : BalancingStrategy) (r : ScheduleResult) (st : Store) :
  NoDup enrollments.*1 →
  scheduleStudents enrollments studentCourses studentCodeToName studentPreferences
    preassignedSections conflictPairs subjectsConfig scheduleConfig balancingStrategy
    = (Done r, st) →
  pendingInv scheduleConfig preassignedSections
    (buildSections subjectsConfig scheduleConfig) [] st.
Proof.
  intros Hkeys (st1 & vars & H1 & H2 & H3 & ->)%scheduleStudents_Done.
  set (S0 := buildSections subjectsConfig scheduleConfig) in *.
  assert (storeOk scheduleConfig st1 ∧
          occupantsFrom preassignedSections (store_sections st1) ∧
          sameBlocks S0 (store_sections st1)) as (Hok1 & Hocc1 & Hsame1).
  { change st1 with (Done (), st1).2. rewrite <- H1.
    apply (forEach_state_inv
             (λ st, storeOk scheduleConfig st ∧
                    occupantsFrom preassignedSections (store_sections st) ∧
                    sameBlocks S0 (store_sections st))).
    - intros entry st' Hentry (? & ? & ?). split_and!.
      + by apply placePreassigned_storeOk.
      + by apply placePreassigned_occupantsFrom.
      + by apply placePreassigned_sameBlocks.
    - split_and!; [apply buildSections_storeOk| |].
      + intros c sid' (section' & Hsec' & Hin). cbn in Hsec'.
        apply buildSections_empty in Hsec'. rewrite Hsec' in Hin.
        by apply elem_of_nil in Hin.
      + intros sid section Hsec. by exists section. }
  assert (∀ c sid, occupies (store_sections st1) c sid → c ∈ preassignedSections.*1)
    as Hocckeys.
  { intros c sid (ids & Hentry & _)%Hocc1. apply list_elem_of_fmap. by exists (c, ids). }
  change st with (Done vars, st).2. rewrite <- H3.
  eapply (foldRun_pending_inv
            (pendingInv scheduleConfig preassignedSections S0)); [| | |by rewrite H3].
  - unfold studentsToSchedule. by apply NoDup_filter.
  - intros vars' x rest st'. apply scheduleStudent_pendingInv.
  - destruct Hok1 as (Hwf1 & _). split_and!; try done.
    + intros c [Hc _]%list_elem_of_filter. by rewrite elem_of_list_to_set in Hc.
    + intros c sid [Hc _]%list_elem_of_filter Hocc.
      rewrite elem_of_list_to_set in Hc. by apply Hc, (Hocckeys c sid).
    + intros c Hc sid1 sid2 section1 section2 _ Hsec1 _ Hin1 _.
      destruct Hc. apply (Hocckeys c sid1). by exists section1.
    + intros c sid _. apply Hocc1.
Qed.

(** X11. In the result of a completed run a preassigned student is in every
    section of the student's preassigned list and in no other section: the
    search never moves or adds to a preassigned student. *)
Theorem preassigned_students_keep_exactly_their_sections
    (enrollments : list (string * list string))
    (studentCourses studentCodeToName : gmap string string)
    (studentPreferences : gmap string Preference)
    (preassignedSections : list (string * list string))
    (conflictPairs : list (string * string))
    (subjectsConfig : list Subject) (scheduleConfig : gmap Z Config)
    (balancingStrategy : BalancingStrategy) (r : ScheduleResult) (st : Store)
    (s sid : string) :
  NoDup enrollments.*1 →
  scheduleStudents enrollments studentCourses studentCodeToName studentPreferences
    preassignedSections conflictPairs subjectsConfig scheduleConfig balancingStrategy
    = (Done r, st) →
  s ∈ preassignedSections.*1 →
  occupies (r_sections r) s sid ↔
  ∃ ids, (s, ids) ∈ preassignedSections ∧ sid ∈ ids.
Proof.
  intros Hkeys Hrun Hs.
  pose proof (scheduleStudents_final_inv _ _ _ _ _ _ _ _ _ _ _ Hkeys Hrun)
    as (_ & _ & _ & _ & _ & Hpre).
  apply scheduleStudents_Done in Hrun as (st1 & vars & H1 & _ & H3 & ->). cbn.
  split; [by apply Hpre|]. intros (ids & Hentry & Hsid).
  change st with (Done vars, st).2. rewrite <- H3.
  apply (foldRun_state_inv (λ st, occupies (store_sections st) s sid)).
  - intros vars' c st' _. apply scheduleStudent_occupies.
  - by apply (placement_pass_occupies _ _ _ _ H1 s ids).
Qed.

(** ** The sections a run goes through *)

Lemma pushStore_sameLabels (S0 : gmap string Section) (studentCode sid : string)
    (st : Store) :
  sameLabels S0 (store_sections st) ∧ Forall (sameLabels S0) (store_trace st) →
  sameLabels S0 (store_sections (pushStore studentCode sid st)) ∧
  Forall (sameLabels S0) (store_trace (pushStore studentCode sid st)).
Proof.
  intros [Hnow Htrace].
  assert (sameLabels S0 (store_sections (pushStore studentCode sid st))) as Hnew.
  { intros sid'. rewrite pushStore_lookup, <- Hnow.
    destruct (decide (sid' = sid)) as [->|]; [|done].
    by destruct (store_sections st !! sid). }
  split; [done|].
  destruct (pushStore_trace studentCode sid st) as [-> | ->]; [done|].
  by constructor.
Qed.

Lemma commitStore_sameLabels (S0 : gmap string Section) (studentCode : string)
    (sids : list string) (st : Store) :
  sameLabels S0 (store_sections st) ∧ Forall (sameLabels S0) (store_trace st) →
  sameLabels S0 (store_sections (commitStore studentCode st sids)) ∧
  Forall (sameLabels S0) (store_trace (commitStore studentCode st sids)).
Proof.
  revert st. induction sids as [|sid sids IH]; intros st H; [done|].
  unfold commitStore. cbn [foldl].
  fold (commitStore studentCode (pushStore studentCode sid st) sids).
  by apply IH, pushStore_sameLabels.
Qed.

(** Every section map of a run, recorded or final, has the labels of the
    universe. *)
Lemma scheduleStudents_sameLabels
    (enrollments : list (string * list string))
    (studentCourses studentCodeToName : gmap string string)
    (studentPreferences : gmap string Preference)
    (preassignedSections : list (string * list string))
    (conflictPairs : list (string * string))
    (subjectsConfig : list Subject) (scheduleConfig : gmap Z Config)
    (balancingStrategy : BalancingStrategy) :
  let run := scheduleStudents enrollments studentCourses studentCodeToName
               studentPreferences preassignedSections conflictPairs subjectsConfig
               scheduleConfig balancingStrategy in
  sameLabels (buildSections subjectsConfig scheduleConfig) (store_sections run.2) ∧
  Forall (sameLabels (buildSections subjectsConfig scheduleConfig)) (store_trace run.2).
Proof.
  cbv zeta. set (S0 := buildSections subjectsConfig scheduleConfig).
  set (I := λ st : Store,
              sameLabels S0 (store_sections st) ∧ Forall (sameLabels S0) (store_trace st)).
  unfold scheduleStudents, scheduleStudentsRun. fold S0.
  apply (bind_state_inv I).
  { apply (forEach_state_inv I).
    - intros entry st _. apply (placePreassigned_inv I).
      intros st' sid section _ HI _ _. by apply commitStore_sameLabels.
    - split; [done|constructor]. }
  intros _ st1 H1. apply (bind_state_inv I).
  { apply (forEach_state_inv I); [|done]. intros entry st _ HI.
    by rewrite checkPreassigned_state. }
  intros _ st2 H2. apply (bind_state_inv I).
  { apply (foldRun_state_inv I); [|done]. intros vars x st _ HI.
    destruct (scheduleStudent_cases enrollments studentCodeToName studentPreferences
                (buildConflictMap conflictPairs) subjectsConfig scheduleConfig
                balancingStrategy vars x st) as [->|(best & vars' & _ & ->)]; [done|].
    by apply commitStore_sameLabels. }
  intros vars st3 H3. done.
Qed.

(** X12. A run never adds, removes or relabels a section: every section map
    it goes through, and the one it ends with, has exactly the sections of
    the universe, each with its id, subject, name, block and capacity; only
    the occupant lists change. This holds for runs that stop with an error
    too. *)
Theorem run_changes_only_occupants
    (enrollments : list (string * list string))
    (studentCourses studentCodeToName : gmap string string)
    (studentPreferences : gmap string Preference)
    (preassignedSections : list (string * list string))
    (conflictPairs : list (string * string))
    (subjectsConfig : list Subject) (scheduleConfig : gmap Z Config)
    (balancingStrategy : BalancingStrategy) :
  let run := scheduleStudents enrollments studentCourses studentCodeToName
               studentPreferences preassignedSections conflictPairs subjectsConfig
               scheduleConfig balancingStrategy in
  Forall (sameLabels (buildSections subjectsConfig scheduleConfig))
         (store_sections run.2 :: store_trace run.2) ∧
  match run.1 with
  | Done r => sameLabels (buildSections subjectsConfig scheduleConfig) (r_sections r)
  | Thrown _ => True
  end.
Proof.
  cbv zeta.
  destruct (scheduleStudents_sameLabels enrollments studentCourses studentCodeToName
              studentPreferences preassignedSections conflictPairs subjectsConfig
              scheduleConfig balancingStrategy) as [Hnow Htrace].
  split; [by constructor|].
  destruct (scheduleStudents _ _ _ _ _ _ _ _ _) as [[r|e] st] eqn:Hrun; [|done].
  apply scheduleStudents_Done in Hrun as (st1 & vars & _ & _ & _ & ->). done.
Qed.

(** X13. Preassigning more students to a section than it has seats is
    fatal: when the preassignments name some students, all different, for
    one section and there are more of them than the capacity, the run returns
    no result but stops with an error message. *)
Theorem preassigned_over_capacity_is_fatal
    (enrollments : list (string * list string))
    (studentCourses studentCodeToName : gmap string string)
    (studentPreferences : gmap string Preference)
    (preassignedSections : list (string * list string))
    (conflictPairs : list (string * string))
    (subjectsConfig : list Subject) (scheduleConfig : gmap Z Config)
    (balancingStrategy : BalancingStrategy)
    (students : list string) (sid : string) (section : Section) :
  NoDup students → students ≠ [] →
  (∀ c, c ∈ students → ∃ ids, (c, ids) ∈ preassignedSections ∧ sid ∈ ids) →
  buildSections subjectsConfig scheduleConfig !! sid = Some section →
  sec_capacity section < Z.of_nat (length students) →
  ∃ message,
    (scheduleStudents enrollments studentCourses studentCodeToName
       studentPreferences preassignedSections conflictPairs subjectsConfig
       scheduleConfig balancingStrategy).1 = Thrown (Err message).
Proof.
  intros Hnd Hne Hpre Hsec Hcap. apply scheduleStudents_thrown. intros r st Hrun.
  pose proof (scheduleStudents_storeOk enrollments studentCourses studentCodeToName
                studentPreferences preassignedSections conflictPairs subjectsConfig
                scheduleConfig balancingStrategy) as (_ & Hcapacity & _).
  destruct (scheduleStudents_sameLabels enrollments studentCourses studentCodeToName
              studentPreferences preassignedSections conflictPairs subjectsConfig
              scheduleConfig balancingStrategy) as [Hlabels _].
  rewrite Hrun in Hcapacity, Hlabels. cbn in Hcapacity, Hlabels.
  apply scheduleStudents_Done in Hrun as (st1 & vars & H1 & _ & H3 & _).
  assert (∀ c, c ∈ students → occupies (store_sections st) c sid) as Hocc.
  { intros c (ids & Hentry & Hsid)%Hpre.
    change st with (Done vars, st).2. rewrite <- H3.
    apply (foldRun_state_inv (λ st, occupies (store_sections st) c sid)).
    - intros vars' x st' _. apply scheduleStudent_occupies.
    - by apply (placement_pass_occupies _ _ _ _ H1 c ids). }
  specialize (Hlabels sid). rewrite Hsec in Hlabels.
  destruct (store_sections st !! sid) as [final|] eqn:Hfinal; [|done].
  injection Hlabels as _ _ _ _ Hc.
  assert (students ⊆ sec_students final) as Hsub.
  { intros c Hc'. destruct (Hocc c Hc') as (final' & Hf & ?). congruence. }
  pose proof (submseteq_length _ _ (NoDup_submseteq _ _ Hnd Hsub)) as Hlen.
  destruct (Hcapacity sid final Hfinal) as [Hnil|Hle]; [|lia].
  rewrite Hnil in Hlen. cbn in Hlen. destruct students; [done|cbn in Hlen; lia].
Qed.

(** ** Every visited student is placed or diagnosed *)

Lemma foldRun_Done_inv {A B : Type} (I : list A → B → Store → Prop) (l : list A)
    (body : B → A → Run B) (b : B) (st : Store) (b' : B) (st' : Store) :
  NoDup l →
  (∀ b x rest st b1 st1,
     x ∉ rest → I (x :: rest) b st → body b x st = (Done b1, st1) → I rest b1 st1) →
  I l b st → foldRun body b l st = (Done b', st') → I [] b' st'.
Proof.
  intros Hnd Hstep. revert b st. induction l as [|x l IH]; intros b st HI.
  - by intros [= <- <-].
  - cbn [foldRun]. unfold bind. apply NoDup_cons in Hnd as [Hx Hl].
    destruct (body b x st) as [[b1|e] st1] eqn:Hb; [|done].
    apply IH; [done|]. by apply (Hstep b x l st).
Qed.

Lemma filter_code_absent (c : string) (l : list UnassignedStudentInfo) :
  c ∉ u_studentCode <$> l → filter (λ u, u_studentCode u = c) l = [].
Proof.
  induction l as [|u l IH]; [done|]. rewrite fmap_cons.
  intros [Hne Hc]%not_elem_of_cons.
  rewrite filter_cons_False by done. by apply IH.
Qed.

Lemma searchEntry_is_Some (S S' : gmap string Section) (scheduleConfig : gmap Z Config)
    (a : Assignment) :
  (∀ sid, is_Some (S !! sid) → is_Some (S' !! sid)) →
  Forall (searchEntry S scheduleConfig) a → Forall (searchEntry S' scheduleConfig) a.
Proof.
  intros Hsome Ha. eapply Forall_impl; [exact Ha|].
  intros e (config & suffix & section & ? & ? & ? & Hsec).
  destruct (Hsome e.2) as [section' Hsec']; [by eexists|].
  by exists config, suffix, section'.
Qed.

Section visit.
Context (enrollments : list (string * list string)).
Context (studentCodeToName : gmap string string).
Context (studentPreferences : gmap string Preference).
Context (conflictMap : gmap string (gset string)).
Context (subjectsConfig : list Subject).
Context (scheduleConfig : gmap Z Config).
Context (balancingStrategy : BalancingStrategy).

Local Abbreviation visit_ :=
  (scheduleStudent enrollments studentCodeToName studentPreferences conflictMap
     subjectsConfig scheduleConfig balancingStrategy).
Local Abbreviation outcome_ := (studentOutcome subjectsConfig scheduleConfig enrollments).

(** One visit: the outcome of the visited student, and what stays as it
    was for every other student. *)
Lemma scheduleStudent_visit (vars vars' : LoopVars) (x : string) (st st' : Store) :
  visit_ vars x st = (Done vars', st') →
  x ∉ u_studentCode <$> lv_unassignedStudents vars →
  (∀ sid, ¬ occupies (store_sections st) x sid) →
  outcome_ x (lv_unassignedStudents vars') (store_sections st') ∧
  (∀ c, c ≠ x →
        filter (λ u, u_studentCode u = c) (lv_unassignedStudents vars')
        = filter (λ u, u_studentCode u = c) (lv_unassignedStudents vars) ∧
        (c ∈ u_studentCode <$> lv_unassignedStudents vars' →
         c ∈ u_studentCode <$> lv_unassignedStudents vars) ∧
        ∀ sid, occupies (store_sections st') c sid ↔ occupies (store_sections st) c sid) ∧
  (∀ sid, is_Some (store_sections st !! sid) → is_Some (store_sections st' !! sid)).
Proof.
  intros Hrun Hfresh Hnone. unfold studentOutcome.
  destruct (scheduleStudent_returns enrollments studentCodeToName studentPreferences
              conflictMap subjectsConfig scheduleConfig balancingStrategy vars x st)
    as [[Hsubs Hout]|[(Hsubs & Hfound & Hout)|(Hsubs & best & Hbest & Hout)]];
    rewrite Hout in Hrun; injection Hrun as <- <-; cbn [lv_unassignedStudents].
  - rewrite Hsubs. split_and!; [by apply filter_code_absent|done..].
  - split_and!; [|intros c Hc; split_and!; [| |done]|done].
    + destruct (resolveSubjects subjectsConfig _); [done|]. left. split; [|done].
      rewrite filter_app, filter_code_absent by done.
      by rewrite filter_cons_True.
    + rewrite filter_app. rewrite (filter_cons_False _ _ []) by (cbn; congruence).
      by rewrite filter_nil, app_nil_r.
    + rewrite fmap_app. intros [?|Hin]%elem_of_app; [done|].
      cbn in Hin. by apply list_elem_of_singleton in Hin.
  - assert (Forall (searchEntry (store_sections st) scheduleConfig) best) as Hentries.
    { by eapply findValidAssignments_searchEntry. }
    split_and!; [|intros c Hc; split_and!; [done..|]|].
    + destruct (resolveSubjects subjectsConfig _) as [|s0 subs] eqn:Hs; [done|].
      right. split; [by apply filter_code_absent|]. exists best. split_and!.
      * rewrite findValidAssignments_enumerate in Hbest.
        -- by apply enumerate_keys in Hbest.
        -- rewrite <- Hs. apply NoDup_resolveSubjects.
      * eapply searchEntry_is_Some; [|done]. intros sid. by rewrite commitStore_is_Some.
      * intros sid. rewrite commitStore_occupies_iff. split.
        -- intros [?%Hnone|(_ & ? & _)]; done.
        -- intros Hsid. right. split_and!; [done..|].
           apply list_elem_of_fmap in Hsid as ([s sid'] & -> & Hin).
           rewrite Forall_forall in Hentries.
           destruct (Hentries _ Hin) as (? & ? & section & _ & _ & _ & Hsec).
           by exists section.
    + intros sid. rewrite commitStore_occupies_iff. naive_solver.
    + intros sid. by rewrite commitStore_is_Some.
Qed.

Lemma studentOutcome_stable (c : string) (un un' : list UnassignedStudentInfo)
    (S S' : gmap string Section) :
  filter (λ u, u_studentCode u = c) un' = filter (λ u, u_studentCode u = c) un →
  (∀ sid, occupies S' c sid ↔ occupies S c sid) →
  (∀ sid, is_Some (S !! sid) → is_Some (S' !! sid)) →
  outcome_ c un S → outcome_ c un' S'.
Proof.
  intros Hf Hocc Hsome. unfold studentOutcome. rewrite Hf.
  destruct (resolveSubjects subjectsConfig _).
  - intros [? Hno]. split; [done|]. intros sid. rewrite Hocc. apply Hno.
  - intros [[? Hno]|(? & a & ? & ? & Ha)].
    + left. split; [done|]. intros sid. rewrite Hocc. apply Hno.
    + right. split; [done|]. exists a. split_and!; [done| |].
      * by eapply searchEntry_is_Some.
      * intros sid. by rewrite Hocc.
Qed.

Lemma mainLoop_outcomes (all : list string) (vars : LoopVars) (st0 st : Store) :
  NoDup all →
  (∀ c sid, c ∈ all → ¬ occupies (store_sections st0) c sid) →
  foldRun visit_ (mkLoopVars [] 0) all st0 = (Done vars, st) →
  ∀ c, c ∈ all → outcome_ c (lv_unassignedStudents vars) (store_sections st).
Proof.
  intros Hnd Hnone Hrun.
  set (I := λ (pending : list string) (vars : LoopVars) (st : Store),
     (∀ c, c ∈ pending →
           (c ∉ u_studentCode <$> lv_unassignedStudents vars) ∧
           ∀ sid, ¬ occupies (store_sections st) c sid) ∧
     (∀ c, c ∈ all → c ∉ pending →
           outcome_ c (lv_unassignedStudents vars) (store_sections st))).
  assert (I [] vars st) as [_ Hall].
  { apply (foldRun_Done_inv I all visit_ (mkLoopVars [] 0) st0); try done.
    - intros b x rest s b1 s1 Hx [Hpend Hdone] Hvisit.
      destruct (Hpend x) as [Hfresh Hno]; [by left|].
      destruct (scheduleStudent_visit b b1 x s s1 Hvisit Hfresh Hno)
        as (Hout & Hothers & Hsome).
      split.
      + intros c Hc. assert (c ≠ x) as Hne by (by intros ->).
        destruct (Hothers c Hne) as (_ & Hcodes & Hocc).
        destruct (Hpend c) as [Hf Hn]; [by right|].
        split; [by intros ?%Hcodes|]. intros sid. rewrite Hocc. apply Hn.
      + intros c Hc Hrest. destruct (decide (c = x)) as [->|Hne]; [done|].
        destruct (Hothers c Hne) as (Hf & _ & Hocc).
        eapply studentOutcome_stable; [done..|]. apply Hdone; [done|].
        by apply not_elem_of_cons.
    - split.
      + intros c Hc. split; [cbn; apply not_elem_of_nil|]. intros sid. by apply Hnone.
      + intros c Hc Hc'. done. }
  intros c Hc. apply Hall; [done|apply not_elem_of_nil].
Qed.

(** The diagnostics entries are appended in the order of the visits. *)
Lemma mainLoop_diagnostics_order (l : list string) (vars vars' : LoopVars)
    (st st' : Store) :
  foldRun visit_ vars l st = (Done vars', st') →
  ∃ new,
    u_studentCode <$> lv_unassignedStudents vars'
    = (u_studentCode <$> lv_unassignedStudents vars) ++ new ∧
    sublist new l.
Proof.
  revert vars st. induction l as [|x l IH]; intros vars st.
  - intros [= <- <-]. exists []. by rewrite app_nil_r.
  - cbn [foldRun]. unfold bind.
    destruct (scheduleStudent_returns enrollments studentCodeToName studentPreferences
                conflictMap subjectsConfig scheduleConfig balancingStrategy vars x st)
      as [[_ ->]|[(_ & _ & ->)|(_ & best & _ & ->)]];
      intros (new & Heq & Hsub)%IH; cbn [lv_unassignedStudents] in Heq.
    + exists new. split; [done|]. by apply sublist_cons.
    + exists (x :: new). rewrite Heq, fmap_app, <- app_assoc. split; [done|].
      by apply sublist_skip.
    + exists new. split; [done|]. by apply sublist_cons.
Qed.
End visit.

(** The outcome of every student the main loop visits. *)
Lemma scheduleStudents_outcome
    (enrollments : list (string * list string))
    (studentCourses studentCodeToName : gmap string string)
    (studentPreferences : gmap string Preference)
    (preassignedSections : list (string * list string))
    (conflictPairs : list (string * string))
    (subjectsConfig : list Subject) (scheduleConfig : gmap Z Config)
    (balancingStrategy : BalancingStrategy) (r : ScheduleResult) (st : Store)
    (c : string) :
  NoDup enrollments.*1 →
  scheduleStudents enrollments studentCourses studentCodeToName studentPreferences
    preassignedSections conflictPairs subjectsConfig scheduleConfig balancingStrategy
    = (Done r, st) →
  c ∈ enrollments.*1 → c ∉ preassignedSections.*1 →
  studentOutcome subjectsConfig scheduleConfig enrollments c
    (r_unassignedStudents r) (r_sections r).
Proof.
  intros Hkeys (st1 & vars & H1 & _ & H3 & ->)%scheduleStudents_Done Hc Hpre. cbn.
  assert (occupantsFrom preassignedSections (store_sections st1)) as Hocc1.
  { change st1 with (Done (), st1).2. rewrite <- H1.
    apply (forEach_state_inv (λ st, occupantsFrom preassignedSections (store_sections st))).
    - intros entry st' Hentry ?. by apply placePreassigned_occupantsFrom.
    - intros s sid' (section' & Hsec' & Hin). cbn in Hsec'.
      apply buildSections_empty in Hsec'. rewrite Hsec' in Hin.
      by apply elem_of_nil in Hin. }
  apply (mainLoop_outcomes enrollments studentCodeToName studentPreferences
           (buildConflictMap conflictPairs) subjectsConfig scheduleConfig
           balancingStrategy (studentsToSchedule enrollments preassignedSections)
           vars st1 st); try done.
  - unfold studentsToSchedule. by apply NoDup_filter.
  - intros c' sid [Hc' _]%list_elem_of_filter (ids & Hentry & _)%Hocc1.
    apply Hc'. rewrite elem_of_list_to_set. apply list_elem_of_fmap. by exists (c', ids).
  - unfold studentsToSchedule. apply list_elem_of_filter. split; [|done].
    by rewrite elem_of_list_to_set.
Qed.

(** X14. In a completed run every enrolled student who is not preassigned
    ends in exactly one of three ways. A student none of whose subject names
    is configured is skipped: no section, no diagnostics entry. Any other
    student either occupies exactly one section (slot 1 or slot 2) of each
    enrolled subject and has no diagnostics entry, or occupies no section
    and has exactly one diagnostics entry. *)
Theorem every_searched_student_is_placed_or_diagnosed
    (enrollments : list (string * list string))
    (studentCourses studentCodeToName : gmap string string)
    (studentPreferences : gmap string Preference)
    (preassignedSections : list (string * list string))
    (conflictPairs : list (string * string))
    (subjectsConfig : list Subject) (scheduleConfig : gmap Z Config)
    (balancingStrategy : BalancingStrategy) (r : ScheduleResult) (st : Store)
    (c : string) :
  NoDup enrollments.*1 →
  scheduleStudents enrollments studentCourses studentCodeToName studentPreferences
    preassignedSections conflictPairs subjectsConfig scheduleConfig balancingStrategy
    = (Done r, st) →
  c ∈ enrollments.*1 → c ∉ preassignedSections.*1 →
  studentOutcome subjectsConfig scheduleConfig enrollments c
    (r_unassignedStudents r) (r_sections r).
Proof. apply scheduleStudents_outcome. Qed.

(** X15. The diagnostics list of a completed run names only students the
    main loop searched (enrolled and not preassigned), in the order of the
    enrolment list, and [stats.unassignedStudentsCount] is its length. *)
Theorem diagnostics_follow_enrolment_order
    (enrollments : list (string * list string))
    (studentCourses studentCodeToName : gmap string string)
    (studentPreferences : gmap string Preference)
    (preassignedSections : list (string * list string))
    (conflictPairs : list (string * string))
    (subjectsConfig : list Subject) (scheduleConfig : gmap Z Config)
    (balancingStrategy : BalancingStrategy) (r : ScheduleResult) (st : Store) :
  scheduleStudents enrollments studentCourses studentCodeToName studentPreferences
    preassignedSections conflictPairs subjectsConfig scheduleConfig balancingStrategy
    = (Done r, st) →
  sublist (u_studentCode <$> r_unassignedStudents r)
          (filter (λ code, code ∉ preassignedSections.*1) enrollments.*1) ∧
  unassignedStudentsCount (r_stats r) = length (r_unassignedStudents r).
Proof.
  intros (st1 & vars & _ & _ & H3 & ->)%scheduleStudents_Done. cbn. split; [|done].
  apply mainLoop_diagnostics_order in H3 as (new & Heq & Hsub). cbn in Heq.
  rewrite Heq. unfold studentsToSchedule in Hsub.
  erewrite list_filter_iff; [exact Hsub|].
  intros code. cbn. by rewrite elem_of_list_to_set.
Qed.

(** ** The per-student records of the result *)

Lemma studentToSections_inner (sid : string) (students : list string)
    (m : gmap string (list string)) (c : string) :
  let m' := foldl (λ m studentCode,
                     let m1 := if decide (is_Some (m !! studentCode)) then m
                               else <[studentCode := []]> m in
                     alter (λ l, l ++ [sid]) studentCode m1) m students in
  (is_Some (m' !! c) ↔ is_Some (m !! c) ∨ c ∈ students) ∧
  (∀ x, x ∈ default [] (m' !! c) ↔ x ∈ default [] (m !! c) ∨ (x = sid ∧ c ∈ students)).
Proof.
  cbv zeta. revert m. induction students as [|s students IH]; intros m; cbn [foldl].
  - split; [|intros x]; rewrite ?elem_of_nil; set_solver.
  - destruct (IH (alter (λ l, l ++ [sid]) s
                    (if decide (is_Some (m !! s)) then m else <[s := []]> m)))
      as [Hsome Helem].
    assert (∀ c', alter (λ l, l ++ [sid]) s
                    (if decide (is_Some (m !! s)) then m else <[s := []]> m) !! c'
                  = if decide (c' = s) then Some (default [] (m !! s) ++ [sid])
                    else m !! c') as Hstep.
    { intros c'. destruct (decide (c' = s)) as [->|Hne].
      - rewrite lookup_alter_eq. destruct (decide (is_Some (m !! s))) as [[l Hl]|Hn].
        + by rewrite Hl.
        + rewrite lookup_insert_eq. apply eq_None_not_Some in Hn. by rewrite Hn.
      - rewrite lookup_alter_ne by done. destruct (decide (is_Some (m !! s))); [done|].
        by rewrite lookup_insert_ne. }
    split.
    + rewrite Hsome, Hstep, elem_of_cons. destruct (decide (c = s)) as [->|?].
      * split; [intros _; right; by left|]. intros _. left. by eexists.
      * naive_solver.
    + intros x. rewrite Helem, Hstep, elem_of_cons.
      destruct (decide (c = s)) as [->|?]; cbn.
      * rewrite elem_of_app, list_elem_of_singleton. naive_solver.
      * naive_solver.
Qed.

Lemma studentToSections_outer (entries : list (string * Section))
    (m : gmap string (list string)) (c : string) :
  let m' := foldl (λ m entry,
                     foldl (λ m studentCode,
                              let m1 := if decide (is_Some (m !! studentCode)) then m
                                        else <[studentCode := []]> m in
                              alter (λ l, l ++ [entry.1]) studentCode m1)
                           m (sec_students entry.2)) m entries in
  (is_Some (m' !! c) ↔
   is_Some (m !! c) ∨ ∃ entry, entry ∈ entries ∧ c ∈ sec_students entry.2) ∧
  (∀ x, x ∈ default [] (m' !! c) ↔
        x ∈ default [] (m !! c) ∨
        ∃ section, (x, section) ∈ entries ∧ c ∈ sec_students section).
Proof.
  cbv zeta. revert m. induction entries as [|[sid section] entries IH]; intros m;
    cbn [foldl].
  - split; [|intros x]; (split; [by left|]).
    + intros [?|(? & ?%elem_of_nil & _)]; done.
    + intros [?|(? & ?%elem_of_nil & _)]; done.
  - destruct (IH (foldl (λ m studentCode,
                           let m1 := if decide (is_Some (m !! studentCode)) then m
                                     else <[studentCode := []]> m in
                           alter (λ l, l ++ [sid]) studentCode m1)
                        m (sec_students section))) as [Hsome Helem].
    destruct (studentToSections_inner sid (sec_students section) m c)
      as [Hsome1 Helem1]. cbn [fst snd] in *.
    split.
    + rewrite Hsome, Hsome1. split.
      * intros [[?|?]|(entry & ? & ?)]; [by left| |].
        -- right. exists (sid, section). split; [by left|done].
        -- right. exists entry. split; [by right|done].
      * intros [?|(entry & [->|?]%elem_of_cons & ?)]; [by left; left|by left; right|].
        right. by exists entry.
    + intros x. rewrite Helem, Helem1. split.
      * intros [[?|[-> ?]]|(section' & ? & ?)]; [by left| |].
        -- right. exists section. split; [by left|done].
        -- right. exists section'. split; [by right|done].
      * intros [?|(section' & [[= -> ->]|?]%elem_of_cons & ?)];
          [by left; left|by left; right|].
        right. by exists section'.
Qed.

(** [studentToSectionsMap] lists, for every occupant, the sections that hold
    the occupant. *)
Lemma studentToSectionsMap_spec (S : gmap string Section) (c : string) :
  (is_Some (studentToSectionsMap S !! c) ↔ ∃ sid, occupies S c sid) ∧
  (∀ sid, sid ∈ default [] (studentToSectionsMap S !! c) ↔ occupies S c sid).
Proof.
  destruct (studentToSections_outer (map_to_list S) ∅ c) as [Hsome Helem].
  unfold studentToSectionsMap. split.
  - rewrite Hsome, lookup_empty. split.
    + intros [[? ?]|([sid section] & Hin%elem_of_map_to_list & ?)]; [done|].
      exists sid, section. done.
    + intros (sid & section & ? & ?). right. exists (sid, section).
      split; [by apply elem_of_map_to_list|done].
  - intros sid. rewrite Helem, lookup_empty. cbn. split.
    + intros [?%elem_of_nil|(section & Hin%elem_of_map_to_list & ?)]; [done|].
      by exists section.
    + intros (section & ? & ?). right. exists section.
      split; [by apply elem_of_map_to_list|done].
Qed.

(** The records that [assemble] builds. *)
Lemma assemble_record (enrollments : list (string * list string))
    (studentCourses studentCodeToName : gmap string string)
    (S : gmap string Section) (vars : LoopVars) (s : string) :
  let r := assemble enrollments studentCourses studentCodeToName S vars in
  (is_Some (r_studentAssignments r !! s) ↔
   (∃ sid, occupies S s sid) ∧
   ∃ course, studentCourses !! s = Some course ∧ course ≠ "") ∧
  (∀ record,
     r_studentAssignments r !! s = Some record →
     sa_code record = s ∧
     studentCourses !! s = Some (sa_course record) ∧
     Sorted String.le (sa_sections record) ∧
     ∀ sid, sid ∈ sa_sections record ↔ occupies S s sid).
Proof.
  cbn.
  destruct (studentToSectionsMap_spec S s) as [Hsome Helem].
  unfold buildStudentAssignments. rewrite map_lookup_imap.
  destruct (studentToSectionsMap S !! s) as [l|] eqn:Hl; cbn.
  - assert (∃ sid, occupies S s sid) as Hocc by (apply Hsome; by eexists).
    destruct (studentCourses !! s) as [course|] eqn:Hcourse; cbn.
    + destruct (decide (course = "")) as [->|Hne].
      * split; [|done]. split; [by intros [? ?]|]. intros (_ & course & [= <-] & ?). done.
      * split.
        -- split; [|by eexists]. intros _. split; [done|]. by exists course.
        -- intros record [= <-]. cbn. split_and!; [done..| |].
           ++ apply Sorted_merge_sort, _.
           ++ intros sid. unfold sortIds. rewrite merge_sort_Permutation. apply Helem.
    + split; [|done]. split; [by intros [? ?]|]. by intros (_ & course & ? & _).
  - split; [|done]. split; [by intros [? ?]|]. intros (Hocc & _).
    apply Hsome in Hocc as [? ?]. done.
Qed.

(** The record of a student in the result of a completed run lists the
    sections that hold the student. *)
Lemma scheduleStudents_record_sections
    (enrollments : list (string * list string))
    (studentCourses studentCodeToName : gmap string string)
    (studentPreferences : gmap string Preference)
    (preassignedSections : list (string * list string))
    (conflictPairs : list (string * string))
    (subjectsConfig : list Subject) (scheduleConfig : gmap Z Config)
    (balancingStrategy : BalancingStrategy) (r : ScheduleResult) (st : Store)
    (s : string) (record : StudentAssignment) :
  scheduleStudents enrollments studentCourses studentCodeToName studentPreferences
    preassignedSections conflictPairs subjectsConfig scheduleConfig balancingStrategy
    = (Done r, st) →
  r_studentAssignments r !! s = Some record →
  ∀ sid, sid ∈ sa_sections record ↔ occupies (r_sections r) s sid.
Proof.
  intros (st1 & vars & _ & _ & _ & ->)%scheduleStudents_Done Hrecord.
  by apply (assemble_record enrollments studentCourses studentCodeToName
              (store_sections st) vars s) in Hrecord as (_ & _ & _ & ?).
Qed.

(** X16. The result of a completed run holds a record for a student exactly
    when the student occupies a section and has a non-empty course label;
    the record carries the student's code and course, and its section list
    is sorted and consists of exactly the sections that hold the student. *)
Theorem studentAssignments_record_exact
    (enrollments : list (string * list string))
    (studentCourses studentCodeToName : gmap string string)
    (studentPreferences : gmap string Preference)
    (preassignedSections : list (string * list string))
    (conflictPairs : list (string * string))
    (subjectsConfig : list Subject) (scheduleConfig : gmap Z Config)
    (balancingStrategy : BalancingStrategy) (r : ScheduleResult) (st : Store)
    (s : string) :
  scheduleStudents enrollments studentCourses studentCodeToName studentPreferences
    preassignedSections conflictPairs subjectsConfig scheduleConfig balancingStrategy
    = (Done r, st) →
  (is_Some (r_studentAssignments r !! s) ↔
   (∃ sid, occupies (r_sections r) s sid) ∧
   ∃ course, studentCourses !! s = Some course ∧ course ≠ "") ∧
  (∀ record,
     r_studentAssignments r !! s = Some record →
     sa_code record = s ∧
     studentCourses !! s = Some (sa_course record) ∧
     Sorted String.le (sa_sections record) ∧
     ∀ sid, sid ∈ sa_sections record ↔ occupies (r_sections r) s sid).
Proof.
  intros (st1 & vars & _ & _ & _ & ->)%scheduleStudents_Done.
  apply (assemble_record enrollments studentCourses studentCodeToName
           (store_sections st) vars s).
Qed.

(** ** Manual override *)

Lemma blockClash_false_exists (sections : gmap string Section) (ids : list string)
    (used : gset Z) :
  blockClash sections ids used = Done false →
  ∀ sid, sid ∈ ids → is_Some (sections !! sid).
Proof.
  revert used. induction ids as [|x ids IH]; intros used Hrun sid Hsid.
  - by apply elem_of_nil in Hsid.
  - cbn in Hrun. destruct (sections !! x) as [section|] eqn:Hx; [|done].
    destruct (decide _); [done|].
    apply elem_of_cons in Hsid as [->|Hsid]; [by eexists|]. by eapply IH.
Qed.

(** What a report of valid says about the selected sections. *)
Lemma validate_valid_inv (studentCode : string) (selectedSectionIds : list string)
    (studentSubjectsLength : nat) (sections : gmap string Section)
    (conflictPairs : list (string * string)) (v : Validation) :
  validate studentCode selectedSectionIds studentSubjectsLength sections conflictPairs
    = Done (Some v) →
  isValid v = true →
  NoDup (selectedBlocks sections selectedSectionIds) ∧
  ∀ sid, sid ∈ selectedSectionIds →
    ∃ section,
      sections !! sid = Some section ∧
      Z.of_nat (length (filter (λ s, s ≠ studentCode) (sec_students section)))
        < sec_capacity section ∧
      ∀ c, c ∈ sec_students section →
           c ∉ conflictsOf (buildConflictMap conflictPairs) studentCode.
Proof.
  unfold validate. destruct (decide _); [done|].
  destruct (blockClash sections selectedSectionIds ∅) as [[]|] eqn:Hclash;
    [by intros [= <-]| |done].
  pose proof (blockClash_false_exists _ _ _ Hclash) as Hex.
  destruct (blockClash_spec sections selectedSectionIds ∅ Hex) as (b & Hb & Hiff).
  rewrite Hclash in Hb. injection Hb as <-.
  destruct Hiff as [Hiff _]. destruct (Hiff eq_refl) as [Hnd _].
  destruct (occupancyClash_spec studentCode
              (conflictsOf (buildConflictMap conflictPairs) studentCode)
              sections selectedSectionIds Hex) as (o & -> & Ho & _).
  destruct o as [msg|]; [by intros [= <-]|]. intros _ _.
  split; [done|]. intros sid Hsid. destruct (Hex sid Hsid) as [section Hsec].
  exists section. split; [done|]. destruct Ho as [Ho _]. by apply (Ho eq_refl sid).
Qed.

Lemma filter_all {A : Type} (P : A → Prop) `{∀ x, Decision (P x)} (l : list A) :
  Forall P l → filter P l = l.
Proof.
  induction 1 as [|x l Hx Hl IH]; [done|]. by rewrite filter_cons_True, IH.
Qed.

Lemma removeFrom_idemp (studentCode : string) (section : Section) :
  removeFrom studentCode (removeFrom studentCode section) = removeFrom studentCode section.
Proof.
  unfold removeFrom. cbn. f_equal. rewrite list_filter_filter.
  apply list_filter_iff. tauto.
Qed.

Lemma removeStudent_fold_lookup (studentCode : string) (oldSections : list string)
    (S : gmap string Section) (sid : string) :
  foldl (removeStudent studentCode) S oldSections !! sid =
  if decide (sid ∈ oldSections) then removeFrom studentCode <$> S !! sid else S !! sid.
Proof.
  revert S. induction oldSections as [|x l IH]; intros S; cbn [foldl].
  - rewrite decide_False; [done|apply not_elem_of_nil].
  - rewrite IH.
    assert (removeStudent studentCode S x !! sid =
            if decide (sid = x) then removeFrom studentCode <$> S !! sid else S !! sid)
      as ->.
    { unfold removeStudent. destruct (decide (sid = x)) as [->|Hne].
      - destruct (S !! x) as [section|] eqn:Hx; [by rewrite lookup_insert_eq|].
        by rewrite Hx.
      - destruct (S !! x); [by rewrite lookup_insert_ne|done]. }
    destruct (decide (sid = x)) as [->|Hne].
    + rewrite (decide_True (P := x ∈ x :: l)) by (by left).
      destruct (decide (x ∈ l)); [|done].
      destruct (S !! x); cbn; [|done]. by rewrite removeFrom_idemp.
    + destruct (decide (sid ∈ l)) as [Hin|Hout].
      * rewrite decide_True; [done|by right].
      * rewrite decide_False; [done|]. by apply not_elem_of_cons.
Qed.

Lemma addStudent_fold_lookup (studentCode : string) (newSections : list string)
    (S : gmap string Section) (sid : string) :
  NoDup newSections →
  foldl (addStudent studentCode) S newSections !! sid =
  if decide (sid ∈ newSections) then pushTo studentCode <$> S !! sid else S !! sid.
Proof.
  intros Hnd. revert S. induction Hnd as [|x l Hx Hnd IH]; intros S; cbn [foldl].
  - rewrite decide_False; [done|apply not_elem_of_nil].
  - rewrite IH.
    assert (addStudent studentCode S x !! sid =
            if decide (sid = x) then pushTo studentCode <$> S !! sid else S !! sid)
      as ->.
    { unfold addStudent. destruct (decide (sid = x)) as [->|Hne].
      - destruct (S !! x) as [section|] eqn:Hsec; [by rewrite lookup_insert_eq|].
        by rewrite Hsec.
      - destruct (S !! x); [by rewrite lookup_insert_ne|done]. }
    destruct (decide (sid = x)) as [->|Hne].
    + rewrite (decide_True (P := x ∈ x :: l)) by (by left).
      by rewrite decide_False.
    + destruct (decide (sid ∈ l)) as [Hin|Hout].
      * rewrite decide_True; [done|by right].
      * rewrite decide_False; [done|]. by apply not_elem_of_cons.
Qed.

Lemma selectedBlocks_NoDup_ids (S : gmap string Section) (ids : list string) :
  (∀ sid, sid ∈ ids → is_Some (S !! sid)) →
  NoDup (selectedBlocks S ids) → NoDup ids.
Proof.
  induction ids as [|x ids IH]; intros Hex; [constructor|].
  destruct (Hex x) as [section Hx]; [by left|].
  unfold selectedBlocks. cbn. rewrite Hx. cbn. fold (selectedBlocks S ids).
  intros [Hnotin Hnd]%NoDup_cons. apply NoDup_cons. split.
  - intros Hin. apply Hnotin. unfold selectedBlocks. apply list_elem_of_omap.
    exists x. by rewrite Hx.
  - apply IH; [|done]. intros sid ?. apply Hex. by right.
Qed.

Lemma selectedBlocks_distinct (S : gmap string Section) (ids : list string)
    (sid1 sid2 : string) (section1 section2 : Section) :
  NoDup (selectedBlocks S ids) →
  sid1 ∈ ids → sid2 ∈ ids → sid1 ≠ sid2 →
  S !! sid1 = Some section1 → S !! sid2 = Some section2 →
  sec_block section1 ≠ sec_block section2.
Proof.
  induction ids as [|x ids IH]; intros Hnd H1 H2 Hne Hs1 Hs2;
    [by apply elem_of_nil in H1|].
  unfold selectedBlocks in Hnd. cbn in Hnd.
  assert (∀ sid section, sid ∈ ids → S !! sid = Some section →
                         sec_block section ∈ selectedBlocks S ids) as Hmem.
  { intros sid section Hin Hsec. apply list_elem_of_omap. exists sid. by rewrite Hsec. }
  apply elem_of_cons in H1 as [->|H1]; apply elem_of_cons in H2 as [->|H2]; [done| | |].
  - rewrite Hs1 in Hnd. cbn in Hnd. apply NoDup_cons in Hnd as [Hnotin _].
    intros Heq. apply Hnotin. rewrite Heq. by apply (Hmem sid2).
  - rewrite Hs2 in Hnd. cbn in Hnd. apply NoDup_cons in Hnd as [Hnotin _].
    intros Heq. apply Hnotin. rewrite <- Heq. by apply (Hmem sid1).
  - apply IH; try done. destruct (S !! x); cbn in Hnd; [|done].
    by apply NoDup_cons in Hnd as [_ ?].
Qed.

Section override.
Context (studentCode : string) (newSections : list string).
Context (prevResult : ScheduleResult) (studentAssignment : StudentAssignment).
Context (conflictPairs : list (string * string)) (studentSubjectsLength : nat).
Context (v : Validation).

Local Abbreviation S_ := (r_sections prevResult).
Local Abbreviation S'_ := (r_sections (handleApplyChange studentCode newSections prevResult)).

Hypothesis Hrecord : r_studentAssignments prevResult !! studentCode = Some studentAssignment.
Hypothesis Hconsistent :
  ∀ sid, sid ∈ sa_sections studentAssignment ↔ occupies S_ studentCode sid.
Hypothesis Hvalidate :
  validate studentCode newSections studentSubjectsLength S_ conflictPairs = Done (Some v).
Hypothesis Hvalid : isValid v = true.

Lemma override_lookup (sid : string) :
  S'_ !! sid =
  let removed := if decide (sid ∈ sa_sections studentAssignment)
                 then removeFrom studentCode <$> S_ !! sid else S_ !! sid in
  if decide (sid ∈ newSections) then pushTo studentCode <$> removed else removed.
Proof.
  destruct (validate_valid_inv _ _ _ _ _ _ Hvalidate Hvalid) as [Hnd Hsel].
  unfold handleApplyChange. rewrite Hrecord. cbn.
  rewrite addStudent_fold_lookup, removeStudent_fold_lookup; [done|].
  apply (selectedBlocks_NoDup_ids S_); [|done].
  intros sid' (section & ? & _)%Hsel. by eexists.
Qed.

Lemma override_section (sid : string) (section' : Section) :
  S'_ !! sid = Some section' →
  ∃ section,
    S_ !! sid = Some section ∧
    sec_block section' = sec_block section ∧
    sec_capacity section' = sec_capacity section ∧
    (∀ c, c ≠ studentCode → c ∈ sec_students section' ↔ c ∈ sec_students section) ∧
    (studentCode ∈ sec_students section' ↔ sid ∈ newSections) ∧
    (sid ∈ newSections →
     sec_students section' =
       filter (λ s, s ≠ studentCode) (sec_students section) ++ [studentCode]) ∧
    (sid ∉ newSections →
     sec_students section' = filter (λ s, s ≠ studentCode) (sec_students section)).
Proof.
  rewrite override_lookup. cbv zeta.
  assert (∀ section, S_ !! sid = Some section →
            sid ∉ sa_sections studentAssignment →
            filter (λ s, s ≠ studentCode) (sec_students section) = sec_students section)
    as Hfilter.
  { intros section Hsec Hold. apply filter_all. apply Forall_forall.
    intros c Hc ->. apply Hold, Hconsistent. by exists section. }
  destruct (S_ !! sid) as [section|] eqn:Hsec.
  2: { destruct (decide (sid ∈ newSections)), (decide (sid ∈ _)); done. }
  assert (∃ students,
            students = filter (λ s, s ≠ studentCode) (sec_students section) ∧
            (if decide (sid ∈ sa_sections studentAssignment)
             then removeFrom studentCode <$> Some section else Some section)
            = Some (mkSection (sec_id section) (sec_subjectId section)
                              (sec_subjectName section) (sec_block section)
                              students (sec_capacity section)))
    as (students & Hstudents & ->).
  { eexists. split; [done|]. destruct (decide _) as [Hold|Hold]; [done|].
    rewrite (Hfilter section) by done. by destruct section. }
  assert (∀ c, c ≠ studentCode → c ∈ students ↔ c ∈ sec_students section) as Hothers.
  { intros c Hc. rewrite Hstudents, list_elem_of_filter. tauto. }
  assert (studentCode ∉ students) as Hgone.
  { rewrite Hstudents, list_elem_of_filter. tauto. }
  destruct (decide (sid ∈ newSections)) as [Hnew|Hnew]; cbn; intros [= <-];
    exists section; cbn; split_and!; try done.
  - intros c Hc. rewrite elem_of_app, list_elem_of_singleton, Hothers by done. tauto.
  - split; [done|]. intros _. apply elem_of_app. right. by left.
  - by rewrite Hstudents.
Qed.

Lemma override_occupies_student (sid : string) :
  occupies S'_ studentCode sid ↔ sid ∈ newSections.
Proof.
  split.
  - intros (section' & Hsec' & Hin).
    destruct (override_section sid section' Hsec') as (_ & _ & _ & _ & _ & Hiff & _).
    by apply Hiff.
  - intros Hnew.
    destruct (validate_valid_inv _ _ _ _ _ _ Hvalidate Hvalid) as [_ Hsel].
    destruct (Hsel sid Hnew) as (section & Hsec & _).
    assert (is_Some (S'_ !! sid)) as [section' Hsec'].
    { rewrite override_lookup. cbv zeta. rewrite Hsec.
      destruct (decide (sid ∈ newSections)), (decide (sid ∈ _)); by eexists. }
    exists section'. split; [done|].
    destruct (override_section sid section' Hsec') as (_ & _ & _ & _ & _ & Hiff & _).
    by apply Hiff.
Qed.

Lemma override_occupies_other (c sid : string) :
  c ≠ studentCode → occupies S'_ c sid ↔ occupies S_ c sid.
Proof.
  intros Hc. split.
  - intros (section' & Hsec' & Hin).
    destruct (override_section sid section' Hsec') as (section & Hsec & _ & _ & Hiff & _).
    exists section. split; [done|]. by apply Hiff.
  - intros (section & Hsec & Hin).
    assert (is_Some (S'_ !! sid)) as [section' Hsec'].
    { rewrite override_lookup. cbv zeta. rewrite Hsec.
      destruct (decide (sid ∈ newSections)), (decide (sid ∈ _)); by eexists. }
    exists section'. split; [done|].
    destruct (override_section sid section' Hsec') as (section0 & Hsec0 & _ & _ & Hiff & _).
    assert (section0 = section) as -> by congruence. by apply Hiff.
Qed.

Lemma override_blocksDistinct : blocksDistinct S'_ studentCode.
Proof.
  destruct (validate_valid_inv _ _ _ _ _ _ Hvalidate Hvalid) as [Hnd _].
  intros sid1 sid2 s1 s2 Hne Hs1 Hs2 Hin1 Hin2.
  destruct (override_section sid1 s1 Hs1) as (o1 & Ho1 & -> & _ & _ & Hn1 & _).
  destruct (override_section sid2 s2 Hs2) as (o2 & Ho2 & -> & _ & _ & Hn2 & _).
  apply (selectedBlocks_distinct S_ newSections sid1 sid2); try done.
  - by apply Hn1.
  - by apply Hn2.
Qed.

Lemma override_capacityRespected : capacityRespected S_ → capacityRespected S'_.
Proof.
  destruct (validate_valid_inv _ _ _ _ _ _ Hvalidate Hvalid) as [_ Hsel].
  intros Hcap sid section' Hsec'.
  destruct (override_section sid section' Hsec')
    as (section & Hsec & _ & -> & _ & _ & Hnew & Hold).
  destruct (decide (sid ∈ newSections)) as [Hin|Hout].
  - right. rewrite (Hnew Hin), length_app. cbn.
    destruct (Hsel sid Hin) as (section0 & Hsec0 & Hroom & _).
    assert (section0 = section) as -> by congruence. lia.
  - rewrite (Hold Hout).
    destruct (filter _ (sec_students section)) as [|c l] eqn:Hf; [by left|]. right.
    rewrite <- Hf. pose proof (length_filter (λ s, s ≠ studentCode) (sec_students section)).
    destruct (Hcap sid section Hsec) as [Hnil|?]; [|lia].
    rewrite Hnil in Hf. done.
Qed.

Lemma override_conflictFree :
  conflictFree (buildConflictMap conflictPairs) S_ →
  conflictFree (buildConflictMap conflictPairs) S'_.
Proof.
  destruct (validate_valid_inv _ _ _ _ _ _ Hvalidate Hvalid) as [_ Hsel].
  intros Hfree sid section' a b Hsec' Ha Hb Hab.
  destruct (override_section sid section' Hsec')
    as (section & Hsec & _ & _ & Hothers & Hstudent & _).
  destruct (decide (a = studentCode)) as [->|Hna];
    destruct (decide (b = studentCode)) as [->|Hnb]; [done| | |].
  - apply Hstudent in Ha. destruct (Hsel sid Ha) as (section0 & Hsec0 & _ & Hno).
    assert (section0 = section) as -> by congruence.
    apply Hno. by apply Hothers.
  - apply Hstudent in Hb. destruct (Hsel sid Hb) as (section0 & Hsec0 & _ & Hno).
    assert (section0 = section) as -> by congruence.
    intros Hin%conflictsOf_buildConflictMap_sym. revert Hin. apply Hno.
    by apply Hothers.
  - apply (Hfree sid section a b); try done; by apply Hothers.
Qed.
End override.

(** X17. A manual override that the editor reported valid moves the student
    to exactly the selected sections and leaves every other student where the
    student was; the student's record then lists the selected sections,
    sorted. The student's record is taken to list the sections that hold the
    student, as the records of a scheduling result do. *)
Theorem valid_override_moves_only_the_student
    (studentCode : string) (newSections : list string) (prevResult : ScheduleResult)
    (studentAssignment : StudentAssignment) (conflictPairs : list (string * string))
    (studentSubjectsLength : nat) (v : Validation) :
  r_studentAssignments prevResult !! studentCode = Some studentAssignment →
  (∀ sid, sid ∈ sa_sections studentAssignment ↔
          occupies (r_sections prevResult) studentCode sid) →
  validate studentCode newSections studentSubjectsLength (r_sections prevResult)
    conflictPairs = Done (Some v) →
  isValid v = true →
  let newResult := handleApplyChange studentCode newSections prevResult in
  (∀ sid, occupies (r_sections newResult) studentCode sid ↔ sid ∈ newSections) ∧
  (∀ c sid, c ≠ studentCode →
            occupies (r_sections newResult) c sid ↔ occupies (r_sections prevResult) c sid) ∧
  (∃ record,
     r_studentAssignments newResult !! studentCode = Some record ∧
     Sorted String.le (sa_sections record) ∧
     sa_sections record ≡ₚ newSections) ∧
  (∀ c, c ≠ studentCode →
        r_studentAssignments newResult !! c = r_studentAssignments prevResult !! c).
Proof.
  intros Hrecord Hconsistent Hvalidate Hvalid. cbv zeta. split_and!.
  - intros sid. by eapply override_occupies_student.
  - intros c sid Hc. by eapply override_occupies_other.
  - unfold handleApplyChange. rewrite Hrecord. cbn. rewrite lookup_insert_eq.
    eexists. split; [done|]. cbn. split.
    + apply Sorted_merge_sort, _.
    + apply merge_sort_Permutation.
  - intros c Hc. unfold handleApplyChange. rewrite Hrecord. cbn.
    by rewrite lookup_insert_ne.
Qed.

(** X18. A manual override that the editor reported valid keeps the hard
    constraints: afterwards the student's sections lie on different blocks,
    and a section map that respected the capacities and held no conflict
    pair together still does. *)
Theorem valid_override_keeps_hard_constraints
    (studentCode : string) (newSections : list string) (prevResult : ScheduleResult)
    (studentAssignment : StudentAssignment) (conflictPairs : list (string * string))
    (studentSubjectsLength : nat) (v : Validation) :
  r_studentAssignments prevResult !! studentCode = Some studentAssignment →
  (∀ sid, sid ∈ sa_sections studentAssignment ↔
          occupies (r_sections prevResult) studentCode sid) →
  validate studentCode newSections studentSubjectsLength (r_sections prevResult)
    conflictPairs = Done (Some v) →
  isValid v = true →
  let newResult := handleApplyChange studentCode newSections prevResult in
  blocksDistinct (r_sections newResult) studentCode ∧
  (capacityRespected (r_sections prevResult) →
   capacityRespected (r_sections newResult)) ∧
  (conflictFree (buildConflictMap conflictPairs) (r_sections prevResult) →
   conflictFree (buildConflictMap conflictPairs) (r_sections newResult)).
Proof.
  intros Hrecord Hconsistent Hvalidate Hvalid. cbv zeta. split_and!.
  - by eapply override_blocksDistinct.
  - by eapply override_capacityRespected.
  - by eapply override_conflictFree.
Qed.

(** X19. Every override pushes the previous result on the history, also
    the override for a student without a record, which leaves the result as
    it was; and undoing an override right away restores the result and the
    history. *)
Theorem undo_restores_the_state_before_the_override
    (studentCode : string) (newSections : list string) (prevResult : ScheduleResult)
    (history : list ScheduleResult) :
  let state := mkAppState (Some prevResult) history in
  handleUndo (applyChange studentCode newSections state) = state ∧
  app_history (applyChange studentCode newSections state) = history ++ [prevResult] ∧
  match r_studentAssignments prevResult !! studentCode with
  | None => app_result (applyChange studentCode newSections state) = Some prevResult
  | Some _ => True
  end.
Proof.
  cbv zeta. split_and!.
  - unfold handleUndo, applyChange. cbn. rewrite last_snoc. cbn.
    by rewrite removelast_last.
  - done.
  - unfold applyChange, handleApplyChange. cbn.
    by destruct (r_studentAssignments prevResult !! studentCode).
Qed.

(** ** Reading a subject id back from a section id *)

Lemma pretty_N_char_digit (x : N) :
  (x < 10)%N →
  digitOf (pretty_N_char x) = Some (Z.of_N x) ∧
  isWhiteSpace (pretty_N_char x) = false ∧
  Ascii.eqb (pretty_N_char x) (charOf ".") = false ∧
  Ascii.eqb (pretty_N_char x) (charOf "-") = false ∧
  Ascii.eqb (pretty_N_char x) (charOf "+") = false.
Proof.
  intros Hx.
  assert (x = 0 ∨ x = 1 ∨ x = 2 ∨ x = 3 ∨ x = 4 ∨ x = 5 ∨ x = 6 ∨ x = 7 ∨ x = 8 ∨ x = 9)%N
    as H by lia.
  repeat (destruct H as [->|H]; [by vm_compute|]). subst. by vm_compute.
Qed.

Lemma pretty_N_go_app (x : N) (s t : string) :
  pretty_N_go x s +:+ t = pretty_N_go x (s +:+ t).
Proof.
  revert s. induction (N.lt_wf_0 x) as [x _ IH]; intros s.
  destruct (decide (x = 0)%N) as [->|Hx]; [by rewrite !pretty_N_go_0|].
  rewrite (pretty_N_go_step x s), (pretty_N_go_step x (s +:+ t)) by lia.
  by rewrite IH by (apply N.div_lt; lia).
Qed.

Lemma beforeDot_pretty_N_go (x : N) (s : string) :
  beforeDot (pretty_N_go x s) = pretty_N_go x (beforeDot s).
Proof.
  revert s. induction (N.lt_wf_0 x) as [x _ IH]; intros s.
  destruct (decide (x = 0)%N) as [->|Hx]; [by rewrite !pretty_N_go_0|].
  rewrite (pretty_N_go_step x s), (pretty_N_go_step x (beforeDot s)) by lia.
  rewrite IH by (apply N.div_lt; lia). cbn [beforeDot].
  destruct (pretty_N_char_digit (x `mod` 10)) as (_ & _ & -> & _);
    [by apply N.mod_lt|done].
Qed.

Lemma parseDigits_pretty_N_go (x : N) :
  ∃ p, ∀ acc s, parseDigits acc (pretty_N_go x s) = parseDigits (acc * p + Z.of_N x) s.
Proof.
  induction (N.lt_wf_0 x) as [x _ IH].
  destruct (decide (x = 0)%N) as [->|Hx].
  - exists 1. intros acc s. rewrite pretty_N_go_0. f_equal. lia.
  - destruct (IH (x `div` 10)%N) as [p Hp]; [apply N.div_lt; lia|].
    exists (10 * p). intros acc s. rewrite pretty_N_go_step by lia. rewrite Hp.
    cbn [parseDigits].
    destruct (pretty_N_char_digit (x `mod` 10)) as (-> & _); [by apply N.mod_lt|].
    f_equal. pose proof (N.div_mod x 10). lia.
Qed.

Lemma pretty_N_go_head (x : N) (s : string) :
  (0 < x)%N →
  ∃ c rest,
    pretty_N_go x s = String c rest ∧
    is_Some (digitOf c) ∧ isWhiteSpace c = false ∧
    Ascii.eqb c (charOf "-") = false ∧ Ascii.eqb c (charOf "+") = false.
Proof.
  revert s. induction (N.lt_wf_0 x) as [x _ IH]; intros s Hx.
  rewrite pretty_N_go_step by done.
  destruct (decide (x `div` 10 = 0)%N) as [->|Hd].
  - rewrite pretty_N_go_0. eexists _, _. split; [done|].
    destruct (pretty_N_char_digit (x `mod` 10)) as (-> & -> & _ & -> & ->);
      [by apply N.mod_lt|]. split_and!; [by eexists|done..].
  - apply IH; [apply N.div_lt; lia|by apply N.neq_0_lt_0].
Qed.

Lemma parseInt_pretty_N_go (x : N) :
  (0 < x)%N →
  parseInt (pretty_N_go x "") = Some (Z.of_N x) ∧
  parseInt (String (charOf "-") (pretty_N_go x "")) = Some (- Z.of_N x).
Proof.
  intros Hx. destruct (pretty_N_go_head x "" Hx) as (c & rest & Heq & [d Hd] & Hw & Hm & Hp).
  destruct (parseDigits_pretty_N_go x) as [p Hval].
  pose proof (Hval 0 "") as H0. cbn [parseDigits] in H0. rewrite Heq in H0.
  unfold parseInt. rewrite Heq. split.
  - cbn [trimStart]. rewrite Hw, Hm, Hp, Hd, H0. f_equal; lia.
  - cbn [trimStart]. replace (isWhiteSpace (charOf "-")) with false by (by vm_compute).
    replace (Ascii.eqb (charOf "-") (charOf "-")) with true by (by vm_compute).
    rewrite Hd, H0. f_equal; lia.
Qed.

(** [parseInt] reads back the number a template literal printed. *)
Lemma parseInt_pretty (z : Z) : parseInt (pretty z) = Some z.
Proof.
  destruct z as [|q|q].
  - by vm_compute.
  - unfold pretty, pretty_Z, pretty, pretty_positive, pretty, pretty_N.
    rewrite decide_False by done.
    destruct (parseInt_pretty_N_go (N.pos q)) as [H _]; [done|]. exact H.
  - unfold pretty, pretty_Z, pretty, pretty_positive, pretty, pretty_N.
    rewrite decide_False by done.
    destruct (parseInt_pretty_N_go (N.pos q)) as [_ H]; [done|]. exact H.
Qed.

Lemma beforeDot_sectionId (subjectId : Z) (sectionIdSuffix : string) :
  beforeDot (sectionId subjectId sectionIdSuffix) = pretty subjectId.
Proof.
  unfold sectionId. destruct subjectId as [|q|q].
  - done.
  - unfold pretty, pretty_Z, pretty, pretty_positive, pretty, pretty_N.
    rewrite decide_False by done.
    by rewrite pretty_N_go_app, beforeDot_pretty_N_go.
  - unfold pretty, pretty_Z, pretty, pretty_positive, pretty, pretty_N.
    rewrite decide_False by done.
    change (beforeDot (String (charOf "-")
                         (pretty_N_go (N.pos q) "" +:+ "." +:+ sectionIdSuffix))
            = String (charOf "-") (pretty_N_go (N.pos q) "")).
    cbn [beforeDot].
    replace (Ascii.eqb (charOf "-") (charOf ".")) with false by (by vm_compute).
    by rewrite pretty_N_go_app, beforeDot_pretty_N_go.
Qed.

(** The block the pre-flight check reads from the id of a section of the
    universe is the block of that section. *)
Lemma blockOfSectionId_sectionId (scheduleConfig : gmap Z Config) (subjectId : Z)
    (config : Config) :
  scheduleConfig !! subjectId = Some config →
  blockOfSectionId scheduleConfig (sectionId subjectId "1") = Some (s1_block config) ∧
  blockOfSectionId scheduleConfig (sectionId subjectId "2") = Some (s2_block config).
Proof.
  intros Hcfg. unfold blockOfSectionId.
  rewrite !beforeDot_sectionId, parseInt_pretty, Hcfg.
  by rewrite endsWith_sectionId_1, endsWith_sectionId_2.
Qed.

Lemma blockOfSectionId_universe (subjectsConfig : list Subject)
    (scheduleConfig : gmap Z Config) (sid : string) (section : Section) :
  buildSections subjectsConfig scheduleConfig !! sid = Some section →
  blockOfSectionId scheduleConfig sid = Some (sec_block section).
Proof.
  intros Hsec.
  destruct (buildSections_wf subjectsConfig scheduleConfig sid section Hsec)
    as (config & Hcfg & _ & [[-> ->]|[-> ->]]);
    by destruct (blockOfSectionId_sectionId scheduleConfig (sec_subjectId section)
                   config Hcfg).
Qed.

(** ** The pre-flight check of the preassignments *)

Lemma firstSome_None {A B : Type} (f : A → option B) (l : list A) :
  firstSome f l = None ↔ ∀ x, x ∈ l → f x = None.
Proof.
  induction l as [|x l IH]; cbn.
  - split; [|done]. by intros _ x ?%elem_of_nil.
  - destruct (f x) eqn:Hx.
    + split; [done|]. intros Hall. rewrite <- Hx. apply Hall. by left.
    + rewrite IH. split.
      * intros Hall y [->|?]%elem_of_cons; [done|by apply Hall].
      * intros Hall y ?. apply Hall. by right.
Qed.

Lemma firstSome_Some {A B : Type} (f : A → option B) (l : list A) (y : B) :
  firstSome f l = Some y →
  ∃ before x after,
    l = before ++ x :: after ∧ (∀ z, z ∈ before → f z = None) ∧ f x = Some y.
Proof.
  induction l as [|x l IH]; cbn; [done|].
  destruct (f x) eqn:Hx.
  - intros [= ->]. exists [], x, l. split_and!; [done| |done]. by intros z ?%elem_of_nil.
  - intros (before & x' & after & -> & Hbefore & Hx')%IH.
    exists (x :: before), x', after. split_and!; [done| |done].
    intros z [->|?]%elem_of_cons; [done|by apply Hbefore].
Qed.

Lemma blocks_push_spec (block : Z) (sid : string) (usedBlocks : list (Z * list string)) :
  NoDup usedBlocks.*1 →
  NoDup (blocks_push block sid usedBlocks).*1 ∧
  ∀ b l,
    (b, l) ∈ blocks_push block sid usedBlocks ↔
    (b ≠ block ∧ (b, l) ∈ usedBlocks) ∨
    (b = block ∧ ((∃ l0, (block, l0) ∈ usedBlocks ∧ l = l0 ++ [sid]) ∨
                  ((block ∉ usedBlocks.*1) ∧ l = [sid]))).
Proof.
  induction usedBlocks as [|[b0 l0] G IH]; intros Hnd.
  - cbn. split; [apply NoDup_singleton|]. intros b l.
    rewrite list_elem_of_singleton. split.
    + intros [= -> ->]. right. split; [done|]. right. split; [apply not_elem_of_nil|done].
    + intros [[_ ?%elem_of_nil]|[-> [(? & ?%elem_of_nil & _)|[_ ->]]]]; done.
  - cbn in Hnd. apply NoDup_cons in Hnd as [Hb0 HG]. cbn [blocks_push].
    assert (∀ l, (b0, l) ∉ G) as Hb0'.
    { intros l Hin. apply Hb0. apply list_elem_of_fmap. by exists (b0, l). }
    destruct (decide (b0 = block)) as [->|Hne].
    + split; [cbn; by apply NoDup_cons|]. intros b l.
      rewrite !elem_of_cons. cbn. rewrite elem_of_cons. split.
      * intros [Heq|Hin].
        -- injection Heq as -> ->. right. split; [done|]. left. exists l0.
           split; [by left|done].
        -- left. split; [|by right]. intros ->. by apply (Hb0' l).
      * intros [[Hb [Heq|Hin]]|[-> [(l1 & Hin & ->)|[Hout _]]]].
        -- by injection Heq as -> ->.
        -- by right.
        -- apply elem_of_cons in Hin as [Heq|Hin]; [injection Heq as <-; by left|].
           by destruct (Hb0' l1).
        -- destruct Hout. by left.
    + destruct (IH HG) as [Hnd' Hspec]. split.
      * cbn. apply NoDup_cons. split; [|done].
        intros ([b l] & Heq & Hin)%list_elem_of_fmap. cbn in Heq. subst b.
        apply Hspec in Hin as [[_ Hin]|[? _]]; [|done]. by apply (Hb0' l).
      * intros b l. rewrite elem_of_cons, Hspec. cbn. rewrite !elem_of_cons.
        split.
        -- intros [Heq|[[? ?]|[-> [(l1 & ? & ->)|[? ->]]]]].
           ++ injection Heq as -> ->. left. split; [done|by left].
           ++ left. split; [done|by right].
           ++ right. split; [done|]. left. exists l1. split; [|done].
              apply elem_of_cons. by right.
           ++ right. split; [done|]. right. split; [|done].
              intros [?|?]; [by apply Hne|done].
        -- intros [[? [Heq|?]]|[-> [(l1 & Hin & ->)|[Hout ->]]]].
           ++ by left.
           ++ right. by left.
           ++ apply elem_of_cons in Hin as [Heq|Hin]; [by injection Heq as ? ?|].
              right. right. split; [done|]. left. by exists l1.
           ++ right. right. split; [done|]. right. split; [|done].
              intros ?. apply Hout. by right.
Qed.

(** The groups of the first inner loop: one entry per block that some
    section id of the list stands for, holding the ids of that block in list
    order. *)
Lemma groupByBlock_spec (scheduleConfig : gmap Z Config) (sectionIds : list string) :
  NoDup (groupByBlock scheduleConfig sectionIds).*1 ∧
  ∀ b l,
    (b, l) ∈ groupByBlock scheduleConfig sectionIds ↔
    l ≠ [] ∧
    l = filter (λ sid, blockOfSectionId scheduleConfig sid = Some b) sectionIds.
Proof.
  induction sectionIds as [|x ids IH] using rev_ind.
  - cbn. split; [constructor|]. intros b l. split; [by intros ?%elem_of_nil|].
    by intros [? ->].
  - destruct IH as [Hnd Hspec]. unfold groupByBlock. rewrite foldl_app. cbn [foldl].
    fold (groupByBlock scheduleConfig ids).
    destruct (blockOfSectionId scheduleConfig x) as [block|] eqn:Hx.
    + destruct (blocks_push_spec block x _ Hnd) as [Hnd' Hpush]. split; [done|].
      intros b l. rewrite Hpush, filter_app. split.
      * intros [[Hne Hin]|[-> [(l0 & Hin & ->)|[Hout ->]]]].
        -- apply Hspec in Hin as [? ->]. split; [done|].
           rewrite (filter_cons_False _ x []) by congruence.
           by rewrite filter_nil, app_nil_r.
        -- apply Hspec in Hin as [? ->]. split; [by destruct (filter _ ids)|].
           by rewrite filter_cons_True.
        -- split; [done|]. rewrite (filter_cons_True _ x []) by done.
           destruct (filter (λ sid, blockOfSectionId scheduleConfig sid = Some block) ids)
             as [|y l'] eqn:Hf; [done|].
           destruct Hout. apply list_elem_of_fmap. exists (block, y :: l'). split; [done|].
           apply Hspec. by rewrite Hf.
      * intros [Hne ->]. destruct (decide (b = block)) as [->|Hb].
        -- right. split; [done|]. rewrite (filter_cons_True _ x []) by done.
           destruct (filter (λ sid, blockOfSectionId scheduleConfig sid = Some block) ids)
             as [|y l'] eqn:Hf.
           ++ right. split; [|done]. intros ([b l] & Heq & Hin)%list_elem_of_fmap.
              cbn in Heq. subst b. apply Hspec in Hin as [? ->]. by rewrite Hf in *.
           ++ left. exists (y :: l'). split; [|done]. apply Hspec. by rewrite Hf.
        -- left. split; [done|]. apply Hspec.
           rewrite (filter_cons_False _ x []) in * by congruence.
           rewrite filter_nil, app_nil_r in *. done.
    + split; [done|]. intros b l. rewrite Hspec, filter_app.
      rewrite (filter_cons_False _ x []) by congruence.
      by rewrite filter_nil, app_nil_r.
Qed.

Lemma NoDup_omap_filter {A B : Type} `{EqDecision B} (f : A → option B) (l : list A) :
  NoDup (omap f l) ↔
  ∀ b, (length (filter (λ x, f x = Some b) l) ≤ 1)%nat.
Proof.
  induction l as [|x l IH].
  - split; [intros _ b; cbn; lia|constructor].
  - change (omap f (x :: l))
      with (match f x with Some y => y :: omap f l | None => omap f l end).
    assert (∀ b, b ∈ omap f l ↔ filter (λ x, f x = Some b) l ≠ []) as Hmem.
    { intros b. rewrite list_elem_of_omap. split.
      - intros (y & Hy & Hfy) Hnil.
        assert (y ∈ filter (λ x, f x = Some b) l) as Hin
          by (by apply list_elem_of_filter).
        rewrite Hnil in Hin. by apply elem_of_nil in Hin.
      - destruct (filter _ l) as [|y l'] eqn:Hf; [done|]. intros _.
        assert (y ∈ filter (λ x, f x = Some b) l) as Hy by (rewrite Hf; by left).
        apply list_elem_of_filter in Hy as [? ?]. by exists y. }
    destruct (f x) as [b0|] eqn:Hx.
    + rewrite NoDup_cons, IH, Hmem. split.
      * intros [Hnil Hall] b. destruct (decide (b = b0)) as [->|Hne].
        -- rewrite filter_cons_True by done. cbn.
           destruct (filter (λ x, f x = Some b0) l); [cbn; lia|by destruct Hnil].
        -- rewrite filter_cons_False by congruence. apply Hall.
      * intros Hall. split.
        -- intros Hne. specialize (Hall b0). rewrite filter_cons_True in Hall by done.
           cbn in Hall. destruct (filter (λ x, f x = Some b0) l); [done|cbn in Hall; lia].
        -- intros b. specialize (Hall b).
           destruct (decide (f x = Some b)).
           ++ rewrite filter_cons_True in Hall by done. cbn in Hall. lia.
           ++ by rewrite filter_cons_False in Hall.
    + rewrite IH. split; intros Hall b; specialize (Hall b).
      * by rewrite filter_cons_False by congruence.
      * by rewrite filter_cons_False in Hall by congruence.
Qed.

Lemma NoDup_omap_distinct {A B : Type} (f : A → option B) (l : list A)
    (x y : A) (a b : B) :
  NoDup (omap f l) → x ∈ l → y ∈ l → x ≠ y →
  f x = Some a → f y = Some b → a ≠ b.
Proof.
  induction l as [|z l IH]; intros Hnd Hx Hy Hne Hfx Hfy; [by apply elem_of_nil in Hx|].
  cbn in Hnd.
  apply elem_of_cons in Hx as [->|Hx]; apply elem_of_cons in Hy as [->|Hy]; [done| | |].
  - rewrite Hfx in Hnd. apply NoDup_cons in Hnd as [Hnotin _].
    intros ->. apply Hnotin. apply list_elem_of_omap. by exists y.
  - rewrite Hfy in Hnd. apply NoDup_cons in Hnd as [Hnotin _].
    intros <-. apply Hnotin. apply list_elem_of_omap. by exists x.
  - apply IH; try done. destruct (f z); [|done]. by apply NoDup_cons in Hnd as [_ ?].
Qed.

Lemma groupByBlock_find_None (scheduleConfig : gmap Z Config) (sectionIds : list string) :
  List.find (λ e : Z * list string, bool_decide (1 < length e.2)%nat)
            (groupByBlock scheduleConfig sectionIds) = None ↔
  NoDup (preassignedBlocks scheduleConfig sectionIds).
Proof.
  destruct (groupByBlock_spec scheduleConfig sectionIds) as [_ Hspec].
  unfold preassignedBlocks. rewrite NoDup_omap_filter. split.
  - intros Hnone b.
    destruct (filter (λ sid, blockOfSectionId scheduleConfig sid = Some b) sectionIds)
      as [|y l] eqn:Hf; [cbn; lia|].
    assert ((b, y :: l) ∈ groupByBlock scheduleConfig sectionIds) as Hin.
    { apply Hspec. by rewrite Hf. }
    apply list_elem_of_In in Hin. apply (find_none _ _ Hnone) in Hin.
    apply bool_decide_eq_false in Hin. cbn in *. lia.
  - intros Hall. destruct (List.find _ _) as [[b l]|] eqn:Hfind; [|done].
    apply find_some in Hfind as [Hin%list_elem_of_In Hlen%bool_decide_eq_true].
    apply Hspec in Hin as [_ ->]. specialize (Hall b). cbn in Hlen. lia.
Qed.

Lemma findPreassignmentConflict_None_blocks (processedData : ProcessedFileData)
    (scheduleConfig : gmap Z Config) :
  findPreassignmentConflict processedData scheduleConfig = None →
  ∀ studentCode sectionIds,
    (studentCode, sectionIds) ∈ pd_preassignedSections processedData →
    NoDup (preassignedBlocks scheduleConfig sectionIds).
Proof.
  unfold findPreassignmentConflict. intros Hfirst code ids Hin.
  apply groupByBlock_find_None.
  pose proof (proj1 (firstSome_None _ _) Hfirst _ Hin) as Hnone. cbn in Hnone.
  revert Hnone.
  by destruct (List.find _ (groupByBlock scheduleConfig ids)) as [[? ?]|].
Qed.

(** X20. The pre-flight check answers [null] exactly when, for every
    preassigned student, the section ids of the student's list stand for
    pairwise different blocks. Otherwise it reports the first student of the
    preassignment map who has two ids on one block, with that block and, as
    conflicting sections, all the ids of the list that stand for it. *)
Theorem findPreassignmentConflict_exact (processedData : ProcessedFileData)
    (scheduleConfig : gmap Z Config) :
  match findPreassignmentConflict processedData scheduleConfig with
  | None =>
      ∀ studentCode sectionIds,
        (studentCode, sectionIds) ∈ pd_preassignedSections processedData →
        NoDup (preassignedBlocks scheduleConfig sectionIds)
  | Some info =>
      ∃ before after,
        pd_preassignedSections processedData
        = before ++ (pc_studentCode info, pc_allPreassignedSections info) :: after ∧
        (∀ entry, entry ∈ before → NoDup (preassignedBlocks scheduleConfig entry.2)) ∧
        ¬ NoDup (preassignedBlocks scheduleConfig (pc_allPreassignedSections info)) ∧
        (1 < length (pc_conflictingSections info))%nat ∧
        pc_conflictingSections info
        = filter (λ sid, blockOfSectionId scheduleConfig sid
                         = Some (pc_conflictingBlock info))
                 (pc_allPreassignedSections info)
  end.
Proof.
  destruct (findPreassignmentConflict processedData scheduleConfig) as [info|] eqn:Hfirst.
  - unfold findPreassignmentConflict in Hfirst.
    apply firstSome_Some in Hfirst as (before & [code ids] & after & Heq & Hbefore & Hx).
    destruct (List.find _ (groupByBlock scheduleConfig ids)) as [[b l]|] eqn:Hfind;
      [|done].
    injection Hx as <-. cbn. exists before, after. split_and!; [done| | | |].
    + intros [c cids] Hin. specialize (Hbefore _ Hin). cbn in Hbefore.
      apply groupByBlock_find_None. cbn [snd]. revert Hbefore.
      by destruct (List.find _ (groupByBlock scheduleConfig cids)) as [[? ?]|].
    + intros Hnd%groupByBlock_find_None. congruence.
    + by apply find_some in Hfind as [_ Hlen%bool_decide_eq_true].
    + apply find_some in Hfind as [Hin%list_elem_of_In _].
      by apply groupByBlock_spec in Hin as [_ ?].
  - by apply findPreassignmentConflict_None_blocks.
Qed.

Lemma NoDup_fst_unique {A B : Type} (l : list (A * B)) (x : A) (y1 y2 : B) :
  NoDup l.*1 → (x, y1) ∈ l → (x, y2) ∈ l → y1 = y2.
Proof.
  induction l as [|[a b] l IH]; intros Hnd H1 H2; [by apply elem_of_nil in H1|].
  cbn in Hnd. apply NoDup_cons in Hnd as [Hnotin Hnd].
  assert (∀ y, (a, y) ∉ l) as Hfresh.
  { intros y Hin. apply Hnotin. apply list_elem_of_fmap. by exists (a, y). }
  apply elem_of_cons in H1 as [H1|H1]; apply elem_of_cons in H2 as [H2|H2].
  - congruence.
  - injection H1 as -> ->. by destruct (Hfresh y2).
  - injection H2 as -> ->. by destruct (Hfresh y1).
  - by apply IH.
Qed.

(** X21. The import path runs the pre-flight check and then the scheduler
    on the same data and configuration. When the check answers [null] and
    the run completes, no student, preassigned or not, is left in two
    sections of the same block. *)
Theorem preflight_clean_run_has_distinct_blocks (processedData : ProcessedFileData)
    (conflictPairs : list (string * string))
    (subjectsConfig : list Subject) (scheduleConfig : gmap Z Config)
    (balancingStrategy : BalancingStrategy) (r : ScheduleResult) (st : Store)
    (s : string) :
  NoDup (pd_enrollments processedData).*1 →
  NoDup (pd_preassignedSections processedData).*1 →
  findPreassignmentConflict processedData scheduleConfig = None →
  scheduleStudents (pd_enrollments processedData) (pd_studentCourses processedData)
    (pd_studentCodeToName processedData) (pd_studentPreferences processedData)
    (pd_preassignedSections processedData) conflictPairs subjectsConfig scheduleConfig
    balancingStrategy = (Done r, st) →
  blocksDistinct (r_sections r) s.
Proof.
  intros Hkeys Hpkeys Hclean Hrun.
  pose proof (scheduleStudents_final_inv _ _ _ _ _ _ _ _ _ _ _ Hkeys Hrun)
    as (_ & Hsame & _ & _ & Hdist & Hpre).
  apply scheduleStudents_Done in Hrun as (st1 & vars & _ & _ & _ & ->). cbn.
  destruct (decide (s ∈ (pd_preassignedSections processedData).*1)) as [Hin|Hout];
    [|by apply Hdist].
  intros sid1 sid2 section1 section2 Hne Hsec1 Hsec2 Hin1 Hin2.
  destruct (Hpre s sid1 Hin) as (ids1 & He1 & Hi1); [by exists section1|].
  destruct (Hpre s sid2 Hin) as (ids2 & He2 & Hi2); [by exists section2|].
  assert (ids2 = ids1) as -> by (by eapply NoDup_fst_unique).
  destruct (Hsame _ _ Hsec1) as (sec1 & HS1 & <-).
  destruct (Hsame _ _ Hsec2) as (sec2 & HS2 & <-).
  apply (NoDup_omap_distinct (blockOfSectionId scheduleConfig) ids1 sid1 sid2);
    try done.
  - by apply (findPreassignmentConflict_None_blocks processedData scheduleConfig Hclean
                s ids1).
  - by eapply blockOfSectionId_universe.
  - by eapply blockOfSectionId_universe.
Qed.

(** ** The configuration panel *)

Lemma initialScheduleConfig_inStep (initialSubjects : list Subject) :
  NoDup (subj_id <$> initialSubjects) →
  configInStep (mkAdminState initialSubjects (initialScheduleConfig initialSubjects)).
Proof.
  unfold configInStep. cbn. intros Hnd. split; [done|].
  induction initialSubjects as [|x l IH] using rev_ind; intros id config.
  - cbn. rewrite lookup_empty. split; [done|]. by intros (? & ?%elem_of_nil & _).
  - rewrite fmap_app in Hnd. apply NoDup_app in Hnd as (Hl & Hx & _).
    unfold initialScheduleConfig. rewrite foldl_app. cbn [foldl].
    fold (initialScheduleConfig l).
    destruct (decide (id = subj_id x)) as [->|Hne].
    + rewrite lookup_insert_eq. split.
      * intros [= <-]. exists x. split; [|done]. apply elem_of_app. right. by left.
      * intros (s & [Hin| ->%list_elem_of_singleton]%elem_of_app & Hid & ->); [|done].
        destruct (Hx (subj_id x)); [|by left]. apply list_elem_of_fmap. by exists s.
    + rewrite lookup_insert_ne by done. rewrite (IH Hl). split.
      * intros (s & ? & ? & ?). exists s. split; [|done]. apply elem_of_app. by left.
      * intros (s & [Hin| ->%list_elem_of_singleton]%elem_of_app & Hid & ->); [|done].
        by exists s.
Qed.

Lemma handleSaveSubject_inStep (state : AdminState) (subjectToSave : Subject) :
  configInStep state → configInStep (handleSaveSubject state subjectToSave).
Proof.
  intros [Hnd Hcfg]. unfold handleSaveSubject, configInStep. cbn.
  destruct (existsb _ (ad_subjects state)) eqn:Hex; cbn.
  - apply existsb_exists in Hex as (old & Hold%list_elem_of_In & Hid%bool_decide_eq_true).
    assert (∀ s, s ∈ ((λ s, if decide (subj_id s = subj_id subjectToSave)
                            then subjectToSave else s) <$> ad_subjects state) ↔
                 (s = subjectToSave ∨
                  (s ∈ ad_subjects state ∧ subj_id s ≠ subj_id subjectToSave))) as Hmem.
    { intros s. rewrite list_elem_of_fmap. split.
      - intros (t & -> & Ht). destruct (decide _); [by left|by right].
      - intros [->|[Hs Hne]].
        + exists old. by rewrite decide_True.
        + exists s. by rewrite decide_False. }
    split.
    + rewrite <- list_fmap_compose.
      erewrite list_fmap_ext; [exact Hnd|]. intros i s _. cbn.
      by destruct (decide _).
    + intros id config. destruct (decide (id = subj_id subjectToSave)) as [->|Hne].
      * rewrite lookup_insert_eq. split.
        -- intros [= <-]. exists subjectToSave. split; [|done]. apply Hmem. by left.
        -- intros (s & [->|[_ ?]]%Hmem & Hid' & ->); done.
      * rewrite lookup_insert_ne by done. rewrite Hcfg. split.
        -- intros (s & ? & <- & ->). exists s. split; [|done]. apply Hmem. by right.
        -- intros (s & [->|[? _]]%Hmem & <- & ->); [done|]. by exists s.
  - assert (∀ s, s ∈ ad_subjects state → subj_id s ≠ subj_id subjectToSave) as Hfresh.
    { intros s Hs Hid. apply not_true_iff_false in Hex. apply Hex, existsb_exists.
      exists s. split; [by apply list_elem_of_In|by apply bool_decide_eq_true]. }
    split.
    + rewrite fmap_app. apply NoDup_app. split_and!; [done| |apply NoDup_singleton].
      intros id (s & -> & Hs)%list_elem_of_fmap ?%list_elem_of_singleton.
      by apply (Hfresh s).
    + intros id config. destruct (decide (id = subj_id subjectToSave)) as [->|Hne].
      * rewrite lookup_insert_eq. split.
        -- intros [= <-]. exists subjectToSave. split; [|done]. apply elem_of_app.
           right. by left.
        -- intros (s & [Hs| ->%list_elem_of_singleton]%elem_of_app & Hid & ->); [|done].
           by destruct (Hfresh s).
      * rewrite lookup_insert_ne by done. rewrite Hcfg. split.
        -- intros (s & ? & ? & ?). exists s. split; [|done]. apply elem_of_app. by left.
        -- intros (s & [Hs| ->%list_elem_of_singleton]%elem_of_app & Hid & ->); [|done].
           by exists s.
Qed.

Lemma handleDelete_inStep (state : AdminState) (subjectId : Z) :
  configInStep state → configInStep (handleDelete state subjectId).
Proof.
  intros [Hnd Hcfg]. unfold handleDelete, configInStep. cbn. split.
  - assert (sublist (subj_id <$> filter (λ s, subj_id s ≠ subjectId) (ad_subjects state))
                    (subj_id <$> ad_subjects state)) as Hsub
      by apply fmap_sublist, sublist_filter.
    eapply sublist_NoDup; eauto.
  - intros id config. destruct (decide (id = subjectId)) as [->|Hne].
    + rewrite lookup_delete_eq. split; [done|].
      intros (s & [? _]%list_elem_of_filter & ? & _). done.
    + rewrite lookup_delete_ne by done. rewrite Hcfg. split.
      * intros (s & ? & <- & ->). exists s. split; [|done].
        by apply list_elem_of_filter.
      * intros (s & [_ ?]%list_elem_of_filter & ? & ?). by exists s.
Qed.

Lemma maxOf_seed (id : Z) (ids : list Z) : id ≤ maxOf id ids.
Proof.
  unfold maxOf. revert id. induction ids as [|y ids IH]; intros id; cbn [foldl]; [lia|].
  etrans; [|apply IH]. lia.
Qed.

Lemma maxOf_upper (id : Z) (ids : list Z) (x : Z) :
  x ∈ id :: ids → x ≤ maxOf id ids.
Proof.
  intros [->|Hin]%elem_of_cons; [apply maxOf_seed|].
  revert id. induction ids as [|y ids IH]; intros id; [by apply elem_of_nil in Hin|].
  unfold maxOf. cbn [foldl]. fold (maxOf (id `max` y) ids).
  apply elem_of_cons in Hin as [->|Hin].
  - etrans; [|apply maxOf_seed]. lia.
  - by apply IH.
Qed.

(** X22. The subject list and the schedule configuration stay in step.
    The initial configuration has an entry exactly for the listed subjects,
    with each subject's blocks and capacity; saving a subject and deleting a
    subject keep it so, and keep the ids different; and the id proposed for
    a new subject is not in use, so saving the new subject replaces nothing. *)
Theorem configuration_stays_in_step (initialSubjects : list Subject)
    (state : AdminState) (subjectToSave : Subject) (subjectId : Z) :
  NoDup (subj_id <$> initialSubjects) →
  configInStep state →
  configInStep (mkAdminState initialSubjects (initialScheduleConfig initialSubjects)) ∧
  configInStep (handleSaveSubject state subjectToSave) ∧
  configInStep (handleDelete state subjectId) ∧
  (subj_id (handleAddNew state) ∉ subj_id <$> ad_subjects state) ∧
  ad_subjects (handleSaveSubject state (handleAddNew state))
  = ad_subjects state ++ [handleAddNew state].
Proof.
  intros Hinit Hstate.
  assert (subj_id (handleAddNew state) ∉ (subj_id <$> ad_subjects state)) as Hfresh.
  { unfold handleAddNew. cbn. destruct (subj_id <$> ad_subjects state) as [|id ids];
      [apply not_elem_of_nil|].
    intros Hin%maxOf_upper. lia. }
  split_and!.
  - by apply initialScheduleConfig_inStep.
  - by apply handleSaveSubject_inStep.
  - by apply handleDelete_inStep.
  - done.
  - unfold handleSaveSubject. cbn [ad_subjects].
    destruct (existsb _ (ad_subjects state)) eqn:Hex; [|done]. exfalso.
    apply existsb_exists in Hex as (s & Hs%list_elem_of_In & Hid%bool_decide_eq_true).
    apply Hfresh. rewrite <- Hid. apply list_elem_of_fmap. by exists s.
Qed.

(** ** The substitution the diagnoser proposes *)

(** X23. When the diagnoser proposes a substitution, the subject to give up
    is one of the student's subjects, the subject to take is a configured
    subject the student is not enrolled in, and the search for the changed
    subject list, on the sections as they are, does find a combination. *)
Theorem findSuggestion_sound (studentCode : string) (studentSubjects : list Z)
    (conflictMap : gmap string (gset string)) (sections : gmap string Section)
    (scheduleConfig : gmap Z Config) (allSubjectIds : list Z)
    (subjectToReplaceId newSubjectId : Z) :
  findSuggestion studentCode studentSubjects conflictMap sections scheduleConfig
    allSubjectIds = Some (subjectToReplaceId, newSubjectId) →
  subjectToReplaceId ∈ studentSubjects ∧
  newSubjectId ∈ allSubjectIds ∧
  (newSubjectId ∉ studentSubjects) ∧
  findValidAssignments
    (filter (λ id, id ≠ subjectToReplaceId) studentSubjects ++ [newSubjectId])
    studentCode conflictMap sections scheduleConfig ≠ [].
Proof.
  unfold findSuggestion.
  intros (before & x & after & Heq & _ & Hx)%firstSome_Some.
  destruct (List.find _ _) as [y|] eqn:Hfind; [|done].
  injection Hx as -> ->.
  apply find_some in Hfind as [[Hnew Hall]%list_elem_of_In%list_elem_of_filter Hlen].
  apply bool_decide_eq_true in Hlen.
  split_and!; [|done..|].
  - rewrite Heq. apply elem_of_app. right. by left.
  - intros Hnil. rewrite Hnil in Hlen. cbn in Hlen. lia.
Qed.

(** ** Validation of a selection with a missing section *)

Lemma blockClash_missing (sections : gmap string Section) (ids : list string)
    (used : gset Z) (sid : string) :
  sid ∈ ids → sections !! sid = None →
  blockClash sections ids used = Thrown TypeErr ∨
  blockClash sections ids used = Done true.
Proof.
  intros Hin Hnone. revert used. induction ids as [|x ids IH]; intros used;
    [by apply elem_of_nil in Hin|].
  cbn. destruct (sections !! x) as [section|] eqn:Hx; [|by left].
  destruct (decide _); [by right|].
  apply elem_of_cons in Hin as [->|Hin]; [congruence|]. by apply IH.
Qed.

(** X24. A selection that names a section missing from the section map is
    never reported valid: the validation either stops on the missing section
    with a TypeError, or reports the block clash it met before reaching it. *)
Theorem validate_with_missing_section (studentCode : string)
    (selectedSectionIds : list string) (sections : gmap string Section)
    (conflictPairs : list (string * string)) (sid : string) :
  sid ∈ selectedSectionIds → sections !! sid = None →
  validate studentCode selectedSectionIds (length selectedSectionIds) sections
    conflictPairs = Thrown TypeErr ∨
  validate studentCode selectedSectionIds (length selectedSectionIds) sections
    conflictPairs
  = Done (Some (mkValidation false
                  "Conflicto de horario: dos asignaturas en el mismo bloque.")).
Proof.
  intros Hin Hnone. unfold validate. rewrite decide_False by (by intros ?).
  destruct (blockClash_missing sections selectedSectionIds ∅ sid Hin Hnone) as [-> | ->];
    [by left|by right].
Qed.

(** ** Section ids read back *)

(** X25. For every section of the universe, the pre-flight check reads the
    section's subject id back from the section id (the number before the
    dot) and finds the section's block. *)
Theorem preflight_reads_the_blocks_of_the_universe (subjectsConfig : list Subject)
    (scheduleConfig : gmap Z Config) (sid : string) (section : Section) :
  buildSections subjectsConfig scheduleConfig !! sid = Some section →
  parseInt (beforeDot sid) = Some (sec_subjectId section) ∧
  blockOfSectionId scheduleConfig sid = Some (sec_block section).
Proof.
  intros Hsec. split; [|by eapply blockOfSectionId_universe].
  destruct (buildSections_wf subjectsConfig scheduleConfig sid section Hsec)
    as (config & _ & _ & [[-> _]|[-> _]]);
    by rewrite beforeDot_sectionId, parseInt_pretty.
Qed.

(** ** What the dashboard reads from a result *)

Lemma diagnoseFailure_reason_prefix (allSubjects : list Subject) (studentCode : string)
    (studentSubjects : list Z) (conflictMap : gmap string (gset string))
    (sections : gmap string Section) (studentCodeToName : gmap string string)
    (scheduleConfig : gmap Z Config) :
  startsWith
    (d_reason (diagnoseFailure allSubjects studentCode studentSubjects conflictMap
                 sections studentCodeToName scheduleConfig))
    "Conflicto de Horario" = true ↔
  d_type (diagnoseFailure allSubjects studentCode studentSubjects conflictMap sections
            studentCodeToName scheduleConfig) = SCHEDULE.
Proof.
  unfold diagnoseFailure.
  destruct (findValidAssignments studentSubjects "" ∅ sections scheduleConfig).
  - destruct (List.find _ studentSubjects); cbn; [split; discriminate|done].
  - destruct (filter _ _) as [|b bs]; [cbn; split; discriminate|].
    destruct (foldl _ b bs); cbn; split; discriminate.
Qed.

Lemma foldRun_vars_inv {A B : Type} (I : B → Prop) (body : B → A → Run B) (l : list A)
    (b : B) (st : Store) (b' : B) (st' : Store) :
  (∀ b x st b1 st1, I b → body b x st = (Done b1, st1) → I b1) →
  I b → foldRun body b l st = (Done b', st') → I b'.
Proof.
  intros Hstep. revert b st. induction l as [|x l IH]; intros b st HI.
  - by intros [= <- <-].
  - cbn [foldRun]. unfold bind. destruct (body b x st) as [[b1|e] st1] eqn:Hb; [|done].
    apply IH. by apply (Hstep b x st b1 st1).
Qed.

(** X26. The analysis panel selects the diagnostics entries to count by the
    prefix of their reason text. On the result of a completed run this
    selects exactly the entries of type SCHEDULE. *)
Theorem panel_counts_exactly_the_SCHEDULE_diagnoses
    (enrollments : list (string * list string))
    (studentCourses studentCodeToName : gmap string string)
    (studentPreferences : gmap string Preference)
    (preassignedSections : list (string * list string))
    (conflictPairs : list (string * string))
    (subjectsConfig : list Subject) (scheduleConfig : gmap Z Config)
    (balancingStrategy : BalancingStrategy) (r : ScheduleResult) (st : Store)
    (ua : UnassignedStudentInfo) :
  scheduleStudents enrollments studentCourses studentCodeToName studentPreferences
    preassignedSections conflictPairs subjectsConfig scheduleConfig balancingStrategy
    = (Done r, st) →
  ua ∈ r_unassignedStudents r →
  countedByPanel ua = true ↔ d_type (u_diagnosis ua) = SCHEDULE.
Proof.
  intros (st1 & vars & _ & _ & H3 & ->)%scheduleStudents_Done Hua. cbn in Hua.
  assert (Forall (λ ua, countedByPanel ua = true ↔ d_type (u_diagnosis ua) = SCHEDULE)
                 (lv_unassignedStudents vars)) as Hall.
  { apply (foldRun_vars_inv
             (λ vars, Forall (λ ua, countedByPanel ua = true ↔
                                    d_type (u_diagnosis ua) = SCHEDULE)
                             (lv_unassignedStudents vars)) _ _ _ _ _ _) in H3;
      [done| |by constructor].
    intros b x s b1 s1 Hb.
    destruct (scheduleStudent_returns enrollments studentCodeToName studentPreferences
                (buildConflictMap conflictPairs) subjectsConfig scheduleConfig
                balancingStrategy b x s)
      as [[_ ->]|[(_ & _ & ->)|(_ & best & _ & ->)]]; intros [= <- <-]; [done| |done].
    cbn. apply Forall_app. split; [done|]. constructor; [|constructor].
    apply diagnoseFailure_reason_prefix. }
  rewrite Forall_forall in Hall. by apply Hall.
Qed.

Lemma foldl_set_add_spec (l acc : list string) :
  NoDup acc →
  NoDup (foldl (λ names name, set_add name names) acc l) ∧
  ∀ x, x ∈ foldl (λ names name, set_add name names) acc l ↔ x ∈ acc ∨ x ∈ l.
Proof.
  intros Hacc. split; [|intros x; apply elem_of_foldl_set_add].
  revert acc Hacc. induction l as [|y l IH]; intros acc Hacc; [done|].
  cbn [foldl]. by apply IH, NoDup_set_add.
Qed.

(** The dashboard's status of a record, as a comparison of two sets of
    names. *)
Lemma getValidationStatus_spec (enrollments : list (string * list string))
    (sections : gmap string Section) (assignment : StudentAssignment) :
  let enrolledSubjects := default [] (entries_get (sa_code assignment) enrollments) in
  let assignedNames :=
    filter (λ name, name ≠ "")
      (omap (λ secId, sec_subjectName <$> sections !! secId) (sa_sections assignment)) in
  NoDup enrolledSubjects →
  (vs_isValid (getValidationStatus enrollments sections assignment) = true ↔
   ∀ name, name ∈ enrolledSubjects ↔ name ∈ assignedNames) ∧
  (getValidationStatus enrollments sections assignment = mkValidationStatus true [] ∨
   getValidationStatus enrollments sections assignment
   = mkValidationStatus false (filter (λ s, s ∉ assignedNames) enrolledSubjects)).
Proof.
  cbv zeta. intros Hnd. unfold getValidationStatus.
  set (enrolled := default [] (entries_get (sa_code assignment) enrollments)) in *.
  set (names := filter (λ name, name ≠ "")
                  (omap (λ secId, sec_subjectName <$> sections !! secId)
                        (sa_sections assignment))).
  destruct (foldl_set_add_spec names [] (NoDup_nil_2)) as [Hset Hmem].
  set (assigned := foldl (λ names name, set_add name names) [] names) in *.
  assert (∀ x, x ∈ assigned ↔ x ∈ names) as Hmem'.
  { intros x. rewrite Hmem, elem_of_nil. tauto. }
  assert (filter (λ s, s ∉ assigned) enrolled = filter (λ s, s ∉ names) enrolled) as Hf.
  { apply list_filter_iff. intros x. by rewrite Hmem'. }
  rewrite Hf.
  destruct (decide (length enrolled ≠ length assigned)) as [Hlen|Hlen].
  - split; [|by right]. cbn. split; [done|]. intros Hsame. destruct Hlen.
    apply Permutation_length, NoDup_Permutation; [done..|].
    intros x. by rewrite Hsame, Hmem'.
  - apply dec_stable in Hlen.
    destruct (List.find _ enrolled) as [x|] eqn:Hfind.
    + split; [|by right]. cbn. split; [done|]. intros Hsame.
      apply find_some in Hfind as [Hx%list_elem_of_In Hout%bool_decide_eq_true].
      destruct Hout. by apply Hmem', Hsame.
    + split; [|by left]. cbn. split; [|done]. intros _.
      assert (enrolled ⊆ assigned) as Hsub.
      { intros x Hx. apply list_elem_of_In in Hx as Hx'.
        apply (find_none _ _ Hfind) in Hx'. apply bool_decide_eq_false in Hx'.
        by apply dec_stable in Hx'. }
      assert (enrolled ≡ₚ assigned) as Hperm.
      { apply submseteq_length_Permutation; [by apply NoDup_submseteq|lia]. }
      intros x. by rewrite <- Hmem', Hperm.
Qed.

(** X27. The dashboard marks a record valid exactly when the student's
    enrolled subject names are the names of the subjects of the record's
    sections, as sets; otherwise it lists as missing the enrolled names
    that no section of the record bears. *)
Theorem getValidationStatus_exact (enrollments : list (string * list string))
    (sections : gmap string Section) (assignment : StudentAssignment) :
  let enrolledSubjects := default [] (entries_get (sa_code assignment) enrollments) in
  let assignedNames :=
    filter (λ name, name ≠ "")
      (omap (λ secId, sec_subjectName <$> sections !! secId) (sa_sections assignment)) in
  NoDup enrolledSubjects →
  (vs_isValid (getValidationStatus enrollments sections assignment) = true ↔
   ∀ name, name ∈ enrolledSubjects ↔ name ∈ assignedNames) ∧
  (getValidationStatus enrollments sections assignment = mkValidationStatus true [] ∨
   getValidationStatus enrollments sections assignment
   = mkValidationStatus false (filter (λ s, s ∉ assignedNames) enrolledSubjects)).
Proof. apply getValidationStatus_spec. Qed.

Lemma NoDup_subj_id_unique (subjectsConfig : list Subject) (x y : Subject) :
  NoDup (subj_id <$> subjectsConfig) →
  x ∈ subjectsConfig → y ∈ subjectsConfig → subj_id x = subj_id y → x = y.
Proof.
  induction subjectsConfig as [|z l IH]; intros Hnd Hx Hy Heq;
    [by apply elem_of_nil in Hx|].
  cbn in Hnd. apply NoDup_cons in Hnd as [Hz Hnd].
  assert (∀ w, w ∈ l → subj_id w ≠ subj_id z) as Hfresh.
  { intros w Hw Hid. apply Hz. rewrite <- Hid. apply list_elem_of_fmap. by exists w. }
  apply elem_of_cons in Hx as [->|Hx]; apply elem_of_cons in Hy as [->|Hy].
  - done.
  - by destruct (Hfresh y Hy).
  - by destruct (Hfresh x Hx).
  - by apply IH.
Qed.

(** The name a section of a search result bears, in a section map with the
    labels of the universe: the name of the configured subject of that id. *)
Lemma searchEntry_subjectName (subjectsConfig : list Subject)
    (scheduleConfig : gmap Z Config) (S : gmap string Section) (e : Z * string) :
  NoDup (subj_id <$> subjectsConfig) →
  sameLabels (buildSections subjectsConfig scheduleConfig) S →
  searchEntry S scheduleConfig e →
  ∃ x section,
    x ∈ subjectsConfig ∧ subj_id x = e.1 ∧
    S !! e.2 = Some section ∧ sec_subjectName section = subj_name x.
Proof.
  intros Hnd Hlabels (config & suffix & section & Hcfg & Hsuffix & Hsid & Hsec).
  pose proof (Hlabels e.2) as Hl. rewrite Hsec in Hl.
  destruct (buildSections subjectsConfig scheduleConfig !! e.2) as [section0|] eqn:H0;
    [|done].
  injection Hl as _ _ Hname _ _.
  apply buildSections_lookup_iff in H0 as (x & config' & Hx & _ & Hslot); [|done].
  exists x, section. split_and!; [done| |done|].
  - destruct Hslot as [[Heq _]|[Heq _]]; rewrite Hsid in Heq;
      destruct Hsuffix as [-> | ->];
      by apply sectionId_inj in Heq as [? _].
  - rewrite Hname. by destruct Hslot as [[_ ->]|[_ ->]].
Qed.

(** X28. A student whom the search placed passes the dashboard's check. In
    the result of a completed run over subjects with different ids, take an
    enrolled, non-preassigned student who has a record and whose enrolled
    names are all names of configured subjects; the dashboard marks the
    record valid, with no missing subject. *)
Theorem placed_student_is_valid_on_the_dashboard
    (enrollments : list (string * list string))
    (studentCourses studentCodeToName : gmap string string)
    (studentPreferences : gmap string Preference)
    (preassignedSections : list (string * list string))
    (conflictPairs : list (string * string))
    (subjectsConfig : list Subject) (scheduleConfig : gmap Z Config)
    (balancingStrategy : BalancingStrategy) (r : ScheduleResult) (st : Store)
    (c : string) (record : StudentAssignment) :
  NoDup enrollments.*1 →
  NoDup (subj_id <$> subjectsConfig) →
  scheduleStudents enrollments studentCourses studentCodeToName studentPreferences
    preassignedSections conflictPairs subjectsConfig scheduleConfig balancingStrategy
    = (Done r, st) →
  c ∈ enrollments.*1 → c ∉ preassignedSections.*1 →
  NoDup (default [] (entries_get c enrollments)) →
  (∀ name, name ∈ default [] (entries_get c enrollments) →
           name ≠ "" ∧ ∃ subject, subject ∈ subjectsConfig ∧ subj_name subject = name) →
  r_studentAssignments r !! c = Some record →
  getValidationStatus enrollments (r_sections r) record = mkValidationStatus true [].
Proof.
  intros Hkeys Hids Hrun Hc Hpre Hnd Hconfigured Hrecord.
  pose proof (scheduleStudents_outcome _ _ _ _ _ _ _ _ _ _ _ c Hkeys Hrun Hc Hpre)
    as Hout.
  destruct (scheduleStudents_sameLabels enrollments studentCourses studentCodeToName
              studentPreferences preassignedSections conflictPairs subjectsConfig
              scheduleConfig balancingStrategy) as [Hlabels _].
  rewrite Hrun in Hlabels. cbn [snd] in Hlabels.
  apply scheduleStudents_Done in Hrun as (st1 & vars & _ & _ & _ & ->).
  cbn [assemble r_sections r_unassignedStudents] in *.
  set (S := store_sections st) in *.
  destruct (assemble_record enrollments studentCourses studentCodeToName S vars c)
    as [Hsome Hrec].
  destruct (Hrec record Hrecord) as (Hcode & _ & _ & Hsections).
  assert (∃ sid, occupies S c sid) as [sid0 Hocc0].
  { apply Hsome. by eexists. }
  unfold studentOutcome in Hout.
  pose proof (resolveSubjects_spec subjectsConfig
                (default [] (entries_get c enrollments))) as Hsubs.
  destruct (resolveSubjects subjectsConfig (default [] (entries_get c enrollments)))
    as [|s0 subs] eqn:Hs.
  { destruct Hout as [_ Hno]. by destruct (Hno sid0). }
  rewrite <- Hs in *.
  destruct Hout as [[_ Hno]|(_ & a & Hkeys' & Hentries & Hocc)];
    [by destruct (Hno sid0)|].
  rewrite Forall_forall in Hentries.
  destruct (getValidationStatus_spec enrollments S record) as [Hvalid Hstatus].
  { by rewrite Hcode. }
  rewrite Hcode in Hvalid, Hstatus.
  assert (vs_isValid (getValidationStatus enrollments S record) = true) as Htrue.
  { apply Hvalid. intros name.
    rewrite list_elem_of_filter, list_elem_of_omap. split.
    - intros Hname. destruct (Hconfigured name Hname) as [Hne (subject & Hsubject & Hn)].
      split; [done|].
      destruct (List.find (λ s, bool_decide (subj_name s = name)) subjectsConfig)
        as [y|] eqn:Hfind.
      2: { apply list_elem_of_In in Hsubject. apply (find_none _ _ Hfind) in Hsubject.
           by apply bool_decide_eq_false in Hsubject. }
      assert (subj_id y ∈ a.*1) as Hin.
      { rewrite Hkeys'. apply Hsubs. by exists name, y. }
      apply find_some in Hfind as [Hy%list_elem_of_In Hyname%bool_decide_eq_true].
      apply list_elem_of_fmap in Hin as (e & He1 & He).
      destruct (searchEntry_subjectName subjectsConfig scheduleConfig S e Hids Hlabels
                  (Hentries e He)) as (x & section & Hx & Hxid & Hsec & Hsecname).
      assert (x = y) as -> by (apply (NoDup_subj_id_unique subjectsConfig); congruence).
      exists e.2. split.
      + apply Hsections, Hocc. apply list_elem_of_fmap. by exists e.
      + rewrite Hsec. cbn. congruence.
    - intros [_ (secId & HsecId & Hlook)].
      apply Hsections, Hocc in HsecId.
      apply list_elem_of_fmap in HsecId as (e & -> & He).
      destruct (searchEntry_subjectName subjectsConfig scheduleConfig S e Hids Hlabels
                  (Hentries e He)) as (x & section & Hx & Hxid & Hsec & Hsecname).
      rewrite Hsec in Hlook. cbn in Hlook. injection Hlook as <-.
      assert (e.1 ∈ a.*1) as Hin by (apply list_elem_of_fmap; by exists e).
      rewrite Hkeys' in Hin. apply Hsubs in Hin as (name' & y & Hname' & Hfind & Hyid).
      apply find_some in Hfind as [Hy%list_elem_of_In Hyname%bool_decide_eq_true].
      assert (x = y) as -> by (apply (NoDup_subj_id_unique subjectsConfig); congruence).
      congruence. }
  destruct Hstatus as [?|Hfalse]; [done|]. rewrite Hfalse in Htrue. done.
Qed.

(** * The further properties at work on the worked configurations *)

Lemma NoDup_subject_ids : NoDup (subj_id <$> Examples.subjects).
Proof. exact NoDup_1_2. Qed.

(** X2 on section 1.1 of the first configuration. *)
Lemma buildSections_lookup_witness :
  NoDup (subj_id <$> Examples.subjects) ∧
  (buildSections Examples.subjects Examples.config !! "1.1"
   = Some (mkSection "1.1" 1 "A" 1 [] 1) ↔
   ∃ subject config,
     subject ∈ Examples.subjects ∧
     Examples.config !! subj_id subject = Some config ∧
     (("1.1" = sectionId (subj_id subject) "1" ∧
       mkSection "1.1" 1 "A" 1 [] 1
       = mkSection "1.1" (subj_id subject) (subj_name subject)
                   (s1_block config) [] (capacity config)) ∨
      ("1.1" = sectionId (subj_id subject) "2" ∧
       mkSection "1.1" 1 "A" 1 [] 1
       = mkSection "1.1" (subj_id subject) (subj_name subject)
                   (s2_block config) [] (capacity config)))).
Proof.
  split; [exact NoDup_subject_ids|].
  exact (buildSections_lookup Examples.subjects Examples.config "1.1"
           (mkSection "1.1" 1 "A" 1 [] 1) NoDup_subject_ids).
Defined.

(** X3 on a student enrolled in subject 1 and in a subject 7 that is not
    configured. *)
Lemma findValidAssignments_unconfigured_subject_witness :
  7 ∈ [1; 7] ∧ Examples.config !! 7 = None ∧
  findValidAssignments [1; 7] "X" ∅
    (buildSections Examples.subjects Examples.config) Examples.config = [].
Proof.
  assert (7 ∈ [1; 7]) as Hin by (right; left).
  split; [exact Hin|]. split; [reflexivity|].
  exact (findValidAssignments_unconfigured_subject [1; 7] "X" ∅
           (buildSections Examples.subjects Examples.config) Examples.config 7
           Hin eq_refl).
Defined.

(** X9 on the preassignment of P to section 9.1. *)
Lemma preassigned_unknown_section_is_fatal_witness :
  ("P", ["9.1"]) ∈ Cases.unknownSection ∧ "9.1" ∈ ["9.1"] ∧
  buildSections Examples.subjects Examples.config !! "9.1" = None ∧
  ∃ message,
    (scheduleStudents Examples.enrollments ∅ ∅ ∅ Cases.unknownSection []
       Examples.subjects Examples.config speed).1 = Thrown (Err message).
Proof.
  assert (("P", ["9.1"]) ∈ Cases.unknownSection) as Hentry by left.
  assert ("9.1" ∈ ["9.1"]) as Hsid by left.
  assert (buildSections Examples.subjects Examples.config !! "9.1" = None) as Hnone.
  { vm_compute. reflexivity. }
  split; [exact Hentry|]. split; [exact Hsid|]. split; [exact Hnone|].
  exact (preassigned_unknown_section_is_fatal Examples.enrollments ∅ ∅ ∅
           Cases.unknownSection [] Examples.subjects Examples.config speed
           "P" ["9.1"] "9.1" Hentry Hsid Hnone).
Defined.

(** X10 on P and Q, preassigned together to section 1.1. *)
Lemma preassigned_conflicting_pair_is_fatal_witness :
  ("P", ["1.1"]) ∈ Cases.sharedSection ∧ ("Q", ["1.1"]) ∈ Cases.sharedSection ∧
  "1.1" ∈ ["1.1"] ∧ "P" ≠ "Q" ∧
  (("P", "Q") ∈ [("P", "Q")] ∨ ("Q", "P") ∈ [("P", "Q")]) ∧
  ∃ message,
    (scheduleStudents Examples.wideEnrollments ∅ ∅ ∅ Cases.sharedSection [("P", "Q")]
       Examples.wideSubjects Examples.wideConfig speed).1 = Thrown (Err message).
Proof.
  assert (("P", ["1.1"]) ∈ Cases.sharedSection) as HP by left.
  assert (("Q", ["1.1"]) ∈ Cases.sharedSection) as HQ by (right; left).
  assert ("1.1" ∈ ["1.1"]) as Hsid by left.
  assert ("P" ≠ "Q") as Hne by discriminate.
  assert (("P", "Q") ∈ [("P", "Q")] ∨ ("Q", "P") ∈ [("P", "Q")]) as Hpair
    by (left; left).
  split; [exact HP|]. split; [exact HQ|]. split; [exact Hsid|]. split; [exact Hne|].
  split; [exact Hpair|].
  exact (preassigned_conflicting_pair_is_fatal Examples.wideEnrollments ∅ ∅ ∅
           Cases.sharedSection [("P", "Q")] Examples.wideSubjects Examples.wideConfig
           speed "P" "Q" ["1.1"] ["1.1"] "1.1" HP HQ Hsid Hsid Hne Hpair).
Defined.

(** X13 on P and Q, preassigned to section 1.1 of the first configuration,
    which has one seat. *)
Lemma preassigned_over_capacity_is_fatal_witness :
  NoDup ["P"; "Q"] ∧ ["P"; "Q"] ≠ [] ∧
  (∀ c, c ∈ ["P"; "Q"] → ∃ ids, (c, ids) ∈ Cases.sharedSection ∧ "1.1" ∈ ids) ∧
  buildSections Examples.subjects Examples.config !! "1.1"
    = Some (mkSection "1.1" 1 "A" 1 [] 1) ∧
  sec_capacity (mkSection "1.1" 1 "A" 1 [] 1) < Z.of_nat (length ["P"; "Q"]) ∧
  ∃ message,
    (scheduleStudents Examples.enrollments ∅ ∅ ∅ Cases.sharedSection []
       Examples.subjects Examples.config speed).1 = Thrown (Err message).
Proof.
  assert (NoDup ["P"; "Q"]) as Hnd.
  { apply (bool_decide_unpack (NoDup ["P"; "Q"])). vm_compute. exact I. }
  assert (["P"; "Q"] ≠ []) as Hne by discriminate.
  assert (∀ c, c ∈ ["P"; "Q"] → ∃ ids, (c, ids) ∈ Cases.sharedSection ∧ "1.1" ∈ ids)
    as Hpre.
  { intros c [->|[->|[]%elem_of_nil]%elem_of_cons]%elem_of_cons;
      exists ["1.1"]; (split; [|by left]); [left|right; left]. }
  assert (buildSections Examples.subjects Examples.config !! "1.1"
          = Some (mkSection "1.1" 1 "A" 1 [] 1)) as Hsec by (vm_compute; reflexivity).
  assert (sec_capacity (mkSection "1.1" 1 "A" 1 [] 1) < Z.of_nat (length ["P"; "Q"]))
    as Hcap by (cbn; lia).
  split; [exact Hnd|]. split; [exact Hne|]. split; [exact Hpre|]. split; [exact Hsec|].
  split; [exact Hcap|].
  exact (preassigned_over_capacity_is_fatal Examples.enrollments ∅ ∅ ∅
           Cases.sharedSection [] Examples.subjects Examples.config speed
           ["P"; "Q"] "1.1" _ Hnd Hne Hpre Hsec Hcap).
Defined.

(** The run of the first configuration completes. *)
Lemma run_Done :
  Examples.run = (Done (Examples.resultOf Examples.run), Examples.run.2).
Proof. vm_compute. reflexivity. Qed.

Lemma NoDup_enrollment_keys : NoDup Examples.enrollments.*1.
Proof. apply (bool_decide_unpack (NoDup Examples.enrollments.*1)). vm_compute. exact I. Qed.

(** X11 on P, preassigned to section 1.2 in the first configuration. *)
Lemma preassigned_students_keep_exactly_their_sections_witness :
  NoDup Examples.enrollments.*1 ∧
  Examples.run = (Done (Examples.resultOf Examples.run), Examples.run.2) ∧
  "P" ∈ Examples.preassigned.*1 ∧
  (occupies (r_sections (Examples.resultOf Examples.run)) "P" "1.2" ↔
   ∃ ids, ("P", ids) ∈ Examples.preassigned ∧ "1.2" ∈ ids).
Proof.
  assert ("P" ∈ Examples.preassigned.*1) as HP by (cbn; left).
  split; [exact NoDup_enrollment_keys|]. split; [exact run_Done|]. split; [exact HP|].
  exact (preassigned_students_keep_exactly_their_sections Examples.enrollments ∅ ∅ ∅
           Examples.preassigned [] Examples.subjects Examples.config speed _ _
           "P" "1.2" NoDup_enrollment_keys run_Done HP).
Defined.

(** X14 on X, whom the run of the first configuration could not place. *)
Lemma every_searched_student_is_placed_or_diagnosed_witness :
  NoDup Examples.enrollments.*1 ∧
  Examples.run = (Done (Examples.resultOf Examples.run), Examples.run.2) ∧
  "X" ∈ Examples.enrollments.*1 ∧ ("X" ∉ Examples.preassigned.*1) ∧
  studentOutcome Examples.subjects Examples.config Examples.enrollments "X"
    (r_unassignedStudents (Examples.resultOf Examples.run))
    (r_sections (Examples.resultOf Examples.run)).
Proof.
  assert ("X" ∈ Examples.enrollments.*1) as HX by (cbn; right; right; left).
  assert ("X" ∉ Examples.preassigned.*1) as Hpre.
  { cbn. intros [?|[?|[]%elem_of_nil]%elem_of_cons]%elem_of_cons; discriminate. }
  split; [exact NoDup_enrollment_keys|]. split; [exact run_Done|].
  split; [exact HX|]. split; [exact Hpre|].
  exact (every_searched_student_is_placed_or_diagnosed Examples.enrollments ∅ ∅ ∅
           Examples.preassigned [] Examples.subjects Examples.config speed _ _ "X"
           NoDup_enrollment_keys run_Done HX Hpre).
Defined.

(** X15 on the run of the first configuration. *)
Lemma diagnostics_follow_enrolment_order_witness :
  Examples.run = (Done (Examples.resultOf Examples.run), Examples.run.2) ∧
  sublist (u_studentCode <$> r_unassignedStudents (Examples.resultOf Examples.run))
          (filter (λ code, code ∉ Examples.preassigned.*1) Examples.enrollments.*1) ∧
  unassignedStudentsCount (r_stats (Examples.resultOf Examples.run))
  = length (r_unassignedStudents (Examples.resultOf Examples.run)).
Proof.
  split; [exact run_Done|].
  exact (diagnostics_follow_enrolment_order Examples.enrollments ∅ ∅ ∅
           Examples.preassigned [] Examples.subjects Examples.config speed _ _ run_Done).
Defined.

(** The run of the second configuration with course labels completes. *)
Lemma courseRun_Done :
  Cases.courseRun = (Done (Examples.resultOf Cases.courseRun), Cases.courseRun.2).
Proof. vm_compute. reflexivity. Qed.

(** X16 on Q in that run. *)
Lemma studentAssignments_record_exact_witness :
  Cases.courseRun = (Done (Examples.resultOf Cases.courseRun), Cases.courseRun.2) ∧
  (is_Some (r_studentAssignments (Examples.resultOf Cases.courseRun) !! "Q") ↔
   (∃ sid, occupies (r_sections (Examples.resultOf Cases.courseRun)) "Q" sid) ∧
   ∃ course, Cases.courses !! "Q" = Some course ∧ course ≠ "") ∧
  (∀ record,
     r_studentAssignments (Examples.resultOf Cases.courseRun) !! "Q" = Some record →
     sa_code record = "Q" ∧
     Cases.courses !! "Q" = Some (sa_course record) ∧
     Sorted String.le (sa_sections record) ∧
     ∀ sid, sid ∈ sa_sections record ↔
            occupies (r_sections (Examples.resultOf Cases.courseRun)) "Q" sid).
Proof.
  split; [exact courseRun_Done|].
  exact (studentAssignments_record_exact Examples.wideEnrollments Cases.courses ∅
           Examples.widePreferences [] Examples.widePairs Examples.wideSubjects
           Examples.wideConfig equitable _ _ "Q" courseRun_Done).
Defined.

(** The record of Q in that run, and the editor's report on moving Q to
    sections 1.1 and 2.2. *)
Lemma courseRun_record_Q :
  r_studentAssignments (Examples.resultOf Cases.courseRun) !! "Q"
  = Some (mkStudentAssignment "Desconocido" "Q" "3B" ["1.2"; "2.1"]).
Proof. vm_compute. reflexivity. Qed.

Lemma courseRun_record_Q_sections (sid : string) :
  sid ∈ sa_sections (mkStudentAssignment "Desconocido" "Q" "3B" ["1.2"; "2.1"]) ↔
  occupies (r_sections (Examples.resultOf Cases.courseRun)) "Q" sid.
Proof.
  exact (scheduleStudents_record_sections Examples.wideEnrollments Cases.courses ∅
           Examples.widePreferences [] Examples.widePairs Examples.wideSubjects
           Examples.wideConfig equitable _ _ "Q" _ courseRun_Done courseRun_record_Q sid).
Qed.

Lemma courseRun_validate_Q :
  validate "Q" ["1.1"; "2.2"] 2 (r_sections (Examples.resultOf Cases.courseRun))
    Examples.widePairs
  = Done (Some (mkValidation true "La nueva asignación es válida.")).
Proof. vm_compute. reflexivity. Qed.

(** X17 on moving Q to sections 1.1 and 2.2. *)
Lemma valid_override_moves_only_the_student_witness :
  r_studentAssignments (Examples.resultOf Cases.courseRun) !! "Q"
    = Some (mkStudentAssignment "Desconocido" "Q" "3B" ["1.2"; "2.1"]) ∧
  (∀ sid, sid ∈ sa_sections (mkStudentAssignment "Desconocido" "Q" "3B" ["1.2"; "2.1"]) ↔
          occupies (r_sections (Examples.resultOf Cases.courseRun)) "Q" sid) ∧
  validate "Q" ["1.1"; "2.2"] 2 (r_sections (Examples.resultOf Cases.courseRun))
    Examples.widePairs
    = Done (Some (mkValidation true "La nueva asignación es válida.")) ∧
  isValid (mkValidation true "La nueva asignación es válida.") = true ∧
  let newResult :=
    handleApplyChange "Q" ["1.1"; "2.2"] (Examples.resultOf Cases.courseRun) in
  (∀ sid, occupies (r_sections newResult) "Q" sid ↔ sid ∈ ["1.1"; "2.2"]) ∧
  (∀ c sid, c ≠ "Q" →
            occupies (r_sections newResult) c sid ↔
            occupies (r_sections (Examples.resultOf Cases.courseRun)) c sid) ∧
  (∃ record,
     r_studentAssignments newResult !! "Q" = Some record ∧
     Sorted String.le (sa_sections record) ∧
     sa_sections record ≡ₚ ["1.1"; "2.2"]) ∧
  (∀ c, c ≠ "Q" →
        r_studentAssignments newResult !! c
        = r_studentAssignments (Examples.resultOf Cases.courseRun) !! c).
Proof.
  split; [exact courseRun_record_Q|]. split; [exact courseRun_record_Q_sections|].
  split; [exact courseRun_validate_Q|]. split; [reflexivity|].
  exact (valid_override_moves_only_the_student "Q" ["1.1"; "2.2"]
           (Examples.resultOf Cases.courseRun) _ Examples.widePairs 2 _
           courseRun_record_Q courseRun_record_Q_sections courseRun_validate_Q eq_refl).
Defined.

(** X18 on the same override. *)
Lemma valid_override_keeps_hard_constraints_witness :
  r_studentAssignments (Examples.resultOf Cases.courseRun) !! "Q"
    = Some (mkStudentAssignment "Desconocido" "Q" "3B" ["1.2"; "2.1"]) ∧
  (∀ sid, sid ∈ sa_sections (mkStudentAssignment "Desconocido" "Q" "3B" ["1.2"; "2.1"]) ↔
          occupies (r_sections (Examples.resultOf Cases.courseRun)) "Q" sid) ∧
  validate "Q" ["1.1"; "2.2"] 2 (r_sections (Examples.resultOf Cases.courseRun))
    Examples.widePairs
    = Done (Some (mkValidation true "La nueva asignación es válida.")) ∧
  isValid (mkValidation true "La nueva asignación es válida.") = true ∧
  let newResult :=
    handleApplyChange "Q" ["1.1"; "2.2"] (Examples.resultOf Cases.courseRun) in
  blocksDistinct (r_sections newResult) "Q" ∧
  (capacityRespected (r_sections (Examples.resultOf Cases.courseRun)) →
   capacityRespected (r_sections newResult)) ∧
  (conflictFree (buildConflictMap Examples.widePairs)
     (r_sections (Examples.resultOf Cases.courseRun)) →
   conflictFree (buildConflictMap Examples.widePairs) (r_sections newResult)).
Proof.
  split; [exact courseRun_record_Q|]. split; [exact courseRun_record_Q_sections|].
  split; [exact courseRun_validate_Q|]. split; [reflexivity|].
  exact (valid_override_keeps_hard_constraints "Q" ["1.1"; "2.2"]
           (Examples.resultOf Cases.courseRun) _ Examples.widePairs 2 _
           courseRun_record_Q courseRun_record_Q_sections courseRun_validate_Q eq_refl).
Defined.

(** The pre-flight check passes the preassignment of P to 1.1 and 2.2, and
    the run on it completes. *)
Lemma compatibleData_clean :
  findPreassignmentConflict Cases.compatibleData Examples.config = None.
Proof. vm_compute. reflexivity. Qed.

Lemma compatibleRun_Done :
  Cases.compatibleRun
  = (Done (Examples.resultOf Cases.compatibleRun), Cases.compatibleRun.2).
Proof. vm_compute. reflexivity. Qed.

(** X21 on P in that run. *)
Lemma preflight_clean_run_has_distinct_blocks_witness :
  NoDup (pd_enrollments Cases.compatibleData).*1 ∧
  NoDup (pd_preassignedSections Cases.compatibleData).*1 ∧
  findPreassignmentConflict Cases.compatibleData Examples.config = None ∧
  Cases.compatibleRun
    = (Done (Examples.resultOf Cases.compatibleRun), Cases.compatibleRun.2) ∧
  blocksDistinct (r_sections (Examples.resultOf Cases.compatibleRun)) "P".
Proof.
  assert (NoDup (pd_enrollments Cases.compatibleData).*1) as He
    by (cbn; apply NoDup_singleton).
  assert (NoDup (pd_preassignedSections Cases.compatibleData).*1) as Hp
    by (cbn; apply NoDup_singleton).
  split; [exact He|]. split; [exact Hp|]. split; [exact compatibleData_clean|].
  split; [exact compatibleRun_Done|].
  exact (preflight_clean_run_has_distinct_blocks Cases.compatibleData []
           Examples.subjects Examples.config speed _ _ "P" He Hp compatibleData_clean
           compatibleRun_Done).
Defined.

(** X22 on the panel of the first configuration, saving a subject 3 and
    deleting subject 1. *)
Lemma configuration_stays_in_step_witness :
  NoDup (subj_id <$> Examples.subjects) ∧
  configInStep Cases.panel ∧
  configInStep (mkAdminState Examples.subjects (initialScheduleConfig Examples.subjects)) ∧
  configInStep (handleSaveSubject Cases.panel (mkSubject 3 "C" 30 1 3)) ∧
  configInStep (handleDelete Cases.panel 1) ∧
  (subj_id (handleAddNew Cases.panel) ∉ subj_id <$> ad_subjects Cases.panel) ∧
  ad_subjects (handleSaveSubject Cases.panel (handleAddNew Cases.panel))
  = ad_subjects Cases.panel ++ [handleAddNew Cases.panel].
Proof.
  assert (configInStep Cases.panel) as Hpanel
    by exact (initialScheduleConfig_inStep Examples.subjects NoDup_subject_ids).
  split; [exact NoDup_subject_ids|]. split; [exact Hpanel|].
  exact (configuration_stays_in_step Examples.subjects Cases.panel
           (mkSubject 3 "C" 30 1 3) 1 NoDup_subject_ids Hpanel).
Defined.

(** The diagnoser's proposal for X in the blocked configuration. *)
Lemma blockedRun_suggestion :
  findSuggestion "X" [1] (buildConflictMap [("P", "X")])
    (store_sections Cases.blockedRun.2) Examples.wideConfig [1; 2] = Some (1, 2).
Proof. vm_compute. reflexivity. Qed.

(** X23 on that proposal. *)
Lemma findSuggestion_sound_witness :
  findSuggestion "X" [1] (buildConflictMap [("P", "X")])
    (store_sections Cases.blockedRun.2) Examples.wideConfig [1; 2] = Some (1, 2) ∧
  1 ∈ [1] ∧ 2 ∈ [1; 2] ∧ (2 ∉ [1]) ∧
  findValidAssignments (filter (λ id, id ≠ 1) [1] ++ [2]) "X"
    (buildConflictMap [("P", "X")]) (store_sections Cases.blockedRun.2)
    Examples.wideConfig ≠ [].
Proof.
  split; [exact blockedRun_suggestion|].
  exact (findSuggestion_sound "X" [1] (buildConflictMap [("P", "X")])
           (store_sections Cases.blockedRun.2) Examples.wideConfig [1; 2] 1 2
           blockedRun_suggestion).
Defined.

(** X24 on a selection that names section 9.1. *)
Lemma validate_with_missing_section_witness :
  "9.1" ∈ ["1.1"; "9.1"] ∧
  buildSections Examples.subjects Examples.config !! "9.1" = None ∧
  (validate "X" ["1.1"; "9.1"] (length ["1.1"; "9.1"])
     (buildSections Examples.subjects Examples.config) []
   = Thrown TypeErr ∨
   validate "X" ["1.1"; "9.1"] (length ["1.1"; "9.1"])
     (buildSections Examples.subjects Examples.config) []
   = Done (Some (mkValidation false
                   "Conflicto de horario: dos asignaturas en el mismo bloque."))).
Proof.
  assert ("9.1" ∈ ["1.1"; "9.1"]) as Hin by (right; left).
  assert (buildSections Examples.subjects Examples.config !! "9.1" = None) as Hnone.
  { vm_compute. reflexivity. }
  split; [exact Hin|]. split; [exact Hnone|].
  exact (validate_with_missing_section "X" ["1.1"; "9.1"]
           (buildSections Examples.subjects Examples.config) [] "9.1" Hin Hnone).
Defined.

(** X25 on section 1.1 of the first configuration. *)
Lemma preflight_reads_the_blocks_of_the_universe_witness :
  buildSections Examples.subjects Examples.config !! "1.1"
  = Some (mkSection "1.1" 1 "A" 1 [] 1) ∧
  parseInt (beforeDot "1.1") = Some 1 ∧
  blockOfSectionId Examples.config "1.1" = Some 1.
Proof.
  assert (buildSections Examples.subjects Examples.config !! "1.1"
          = Some (mkSection "1.1" 1 "A" 1 [] 1)) as Hsec.
  { vm_compute. reflexivity. }
  split; [exact Hsec|].
  exact (preflight_reads_the_blocks_of_the_universe Examples.subjects Examples.config
           "1.1" _ Hsec).
Defined.

(** The diagnostics entry of X in the run of the first configuration. *)
Lemma run_diagnoses_X :
  ∃ ua, ua ∈ r_unassignedStudents (Examples.resultOf Examples.run) ∧
        u_studentCode ua = "X".
Proof.
  destruct (r_unassignedStudents (Examples.resultOf Examples.run)) as [|ua l] eqn:Hl;
    [by vm_compute in Hl|].
  exists ua. split; [left|]. vm_compute in Hl. by injection Hl as <- _.
Qed.

(** X26 on that entry. *)
Lemma panel_counts_exactly_the_SCHEDULE_diagnoses_witness :
  Examples.run = (Done (Examples.resultOf Examples.run), Examples.run.2) ∧
  ∃ ua, ua ∈ r_unassignedStudents (Examples.resultOf Examples.run) ∧
        u_studentCode ua = "X" ∧
        (countedByPanel ua = true ↔ d_type (u_diagnosis ua) = SCHEDULE).
Proof.
  split; [exact run_Done|].
  destruct run_diagnoses_X as (ua & Hua & HX).
  exists ua. split; [exact Hua|]. split; [exact HX|].
  exact (panel_counts_exactly_the_SCHEDULE_diagnoses Examples.enrollments ∅ ∅ ∅
           Examples.preassigned [] Examples.subjects Examples.config speed _ _ ua
           run_Done Hua).
Defined.

Lemma NoDup_A_B : NoDup ["A"; "B"].
Proof. apply (bool_decide_unpack (NoDup ["A"; "B"])). vm_compute. exact I. Qed.

(** X27 on the record of Q in the run of the second configuration with
    course labels. *)
Lemma getValidationStatus_exact_witness :
  let record := mkStudentAssignment "Desconocido" "Q" "3B" ["1.2"; "2.1"] in
  let sections := r_sections (Examples.resultOf Cases.courseRun) in
  let enrolledSubjects := default [] (entries_get "Q" Examples.wideEnrollments) in
  let assignedNames :=
    filter (λ name, name ≠ "")
      (omap (λ secId, sec_subjectName <$> sections !! secId) (sa_sections record)) in
  NoDup enrolledSubjects ∧
  (vs_isValid (getValidationStatus Examples.wideEnrollments sections record) = true ↔
   ∀ name, name ∈ enrolledSubjects ↔ name ∈ assignedNames) ∧
  (getValidationStatus Examples.wideEnrollments sections record
   = mkValidationStatus true [] ∨
   getValidationStatus Examples.wideEnrollments sections record
   = mkValidationStatus false (filter (λ s, s ∉ assignedNames) enrolledSubjects)).
Proof.
  cbv zeta. split; [exact NoDup_A_B|].
  exact (getValidationStatus_exact Examples.wideEnrollments
           (r_sections (Examples.resultOf Cases.courseRun))
           (mkStudentAssignment "Desconocido" "Q" "3B" ["1.2"; "2.1"]) NoDup_A_B).
Defined.

Lemma NoDup_wide_enrollment_keys : NoDup Examples.wideEnrollments.*1.
Proof.
  apply (bool_decide_unpack (NoDup Examples.wideEnrollments.*1)). vm_compute. exact I.
Qed.

Lemma wide_names_configured (name : string) :
  name ∈ default [] (entries_get "Q" Examples.wideEnrollments) →
  name ≠ "" ∧
  ∃ subject, subject ∈ Examples.wideSubjects ∧ subj_name subject = name.
Proof.
  intros [->|[->|[]%elem_of_nil]%elem_of_cons]%elem_of_cons.
  - split; [done|]. exists (mkSubject 1 "A" 3 1 3). split; [left|done].
  - split; [done|]. exists (mkSubject 2 "B" 3 2 3). split; [right; left|done].
Qed.

(** X28 on Q, whom that run placed in sections 1.2 and 2.1. *)
Lemma placed_student_is_valid_on_the_dashboard_witness :
  NoDup Examples.wideEnrollments.*1 ∧
  NoDup (subj_id <$> Examples.wideSubjects) ∧
  Cases.courseRun = (Done (Examples.resultOf Cases.courseRun), Cases.courseRun.2) ∧
  "Q" ∈ Examples.wideEnrollments.*1 ∧
  ("Q" ∉ ([] : list (string * list string)).*1) ∧
  NoDup (default [] (entries_get "Q" Examples.wideEnrollments)) ∧
  (∀ name, name ∈ default [] (entries_get "Q" Examples.wideEnrollments) →
           name ≠ "" ∧
           ∃ subject, subject ∈ Examples.wideSubjects ∧ subj_name subject = name) ∧
  r_studentAssignments (Examples.resultOf Cases.courseRun) !! "Q"
  = Some (mkStudentAssignment "Desconocido" "Q" "3B" ["1.2"; "2.1"]) ∧
  getValidationStatus Examples.wideEnrollments
    (r_sections (Examples.resultOf Cases.courseRun))
    (mkStudentAssignment "Desconocido" "Q" "3B" ["1.2"; "2.1"])
  = mkValidationStatus true [].
Proof.
  assert ("Q" ∈ Examples.wideEnrollments.*1) as HQ by (cbn; right; left).
  assert ("Q" ∉ ([] : list (string * list string)).*1) as Hpre
    by (cbn; apply not_elem_of_nil).
  split; [exact NoDup_wide_enrollment_keys|]. split; [exact NoDup_1_2|].
  split; [exact courseRun_Done|]. split; [exact HQ|]. split; [exact Hpre|].
  split; [exact NoDup_A_B|]. split; [exact wide_names_configured|].
  split; [exact courseRun_record_Q|].
  exact (placed_student_is_valid_on_the_dashboard Examples.wideEnrollments Cases.courses
           ∅ Examples.widePreferences [] Examples.widePairs Examples.wideSubjects
           Examples.wideConfig equitable _ _ "Q" _ NoDup_wide_enrollment_keys NoDup_1_2
           courseRun_Done HQ Hpre NoDup_A_B wide_names_configured courseRun_record_Q).
Defined.
